(** * nlm: the batchexecute transport and codec layer

    A shallow embedding of the Go packages

    - [gen/method]                 (argument encoders),
    - [internal/rpc]               (session parameters and their cache),
    - [internal/rpc/grpcendpoint]  (unary and streaming transport),

    together with the parts of the Go standard library they call
    ([strings], [encoding/json]).  Go strings are byte sequences and are
    modelled by [string]; Go's [int] is a 64-bit two's-complement integer
    and is modelled by [Z] with the wrap-around written out. *)

From Stdlib Require Import ZArith NArith List String Ascii Bool Lia DecimalString.
Import ListNotations.

Set Warnings "-register-all".

Open Scope string_scope.
Open Scope Z_scope.

(** ** Text literals *)

(** The line feed and the double quote. *)
Definition LF : ascii := "010"%char.
Definition DQ : ascii := "034"%char.
Definition nl : string := String LF EmptyString.

(** [bq s] is [s] with every backquote replaced by a double quote; it only
    serves to write JSON texts legibly. *)
Fixpoint bq (s : string) : string :=
  match s with
  | EmptyString => EmptyString
  | String c t => String (if Ascii.eqb c "`" then DQ else c) (bq t)
  end.

(** ** Results of fallible code

    A Go function returning [(T, error)] yields [Ok] or [Err]; an index out
    of range or a nil dereference is a run-time panic, kept apart from the
    errors returned as values. *)
Inductive outcome (E A : Type) : Type :=
| Ok (a : A)
| Err (e : E)
| Panic.
Arguments Ok {E A} a.
Arguments Err {E A} e.
Arguments Panic {E A}.

Definition bind {E A B} (m : outcome E A) (k : A -> outcome E B) : outcome E B :=
  match m with
  | Ok a => k a
  | Err e => Err e
  | Panic => Panic
  end.

Notation "x <- m ;; k" := (bind m (fun x => k))
  (at level 61, m at next level, right associativity).

(** [index l i] is the Go expression [l[i]]. *)
Definition index {E A} (l : list A) (i : nat) : outcome E A :=
  match nth_error l i with
  | Some a => Ok a
  | None => Panic
  end.

(** ** Package strings *)
Module Strings.

(** [strings.HasPrefix]. *)
Fixpoint HasPrefix (s p : string) {struct p} : bool :=
  match p, s with
  | EmptyString, _ => true
  | String _ _, EmptyString => false
  | String b p', String a s' => Ascii.eqb a b && HasPrefix s' p'
  end.

(** [s[n:]], for [n <= len(s)]. *)
Fixpoint drop (n : nat) (s : string) : string :=
  match n, s with
  | O, _ => s
  | S n', String _ t => drop n' t
  | S _, EmptyString => EmptyString
  end.

(** [strings.TrimPrefix]. *)
Definition TrimPrefix (s p : string) : string :=
  if HasPrefix s p then drop (String.length p) s else s.

(** [strings.TrimLeft(s, cutset)] for a cutset of one ASCII byte, which is
    the library's [trimLeftByte]. *)
Fixpoint trimLeftByte (s : string) (c : ascii) : string :=
  match s with
  | String a t => if Ascii.eqb a c then trimLeftByte t c else s
  | EmptyString => EmptyString
  end.

(** [cut s sep] splits [s] around the first occurrence of the byte [sep]. *)
Fixpoint cut (s : string) (sep : ascii) : option (string * string) :=
  match s with
  | EmptyString => None
  | String a t =>
      if Ascii.eqb a sep then Some (EmptyString, t)
      else match cut t sep with
           | Some (l, r) => Some (String a l, r)
           | None => None
           end
  end.

(** [strings.SplitN(s, sep, n)] for a one-byte separator and [n > 0]: at most
    [n] fields, the last one being the unsplit remainder. *)
Fixpoint SplitN (s : string) (sep : ascii) (n : nat) : list string :=
  match n with
  | O => []
  | S O => [s]
  | S n' =>
      match cut s sep with
      | Some (l, r) => l :: SplitN r sep n'
      | None => [s]
      end
  end.

(** [strings.Repeat] of one byte. *)
Fixpoint repeat (c : ascii) (k : nat) : string :=
  match k with
  | O => EmptyString
  | S k' => String c (repeat c k')
  end.

(** [c] does not occur in [s]. *)
Fixpoint free_of (c : ascii) (s : string) : bool :=
  match s with
  | EmptyString => true
  | String a t => negb (Ascii.eqb a c) && free_of c t
  end.

(** [s] does not begin with the byte [c]. *)
Definition not_headed (c : ascii) (s : string) : bool :=
  match s with
  | EmptyString => true
  | String a _ => negb (Ascii.eqb a c)
  end.

End Strings.

(** ** Package unicode/utf8 *)
Module Utf8.
Local Open Scope N_scope.

Definition byte_in (lo hi : N) (c : ascii) : bool :=
  (lo <=? N_of_ascii c) && (N_of_ascii c <=? hi).

(** Continuation byte, [0x80..0xBF]. *)
Definition cont (c : ascii) : bool := byte_in 128 191 c.

(** The bounds on the second byte of a multi-byte encoding that starts with
    [b0], and the number of continuation bytes after the second one; [None]
    for a byte that starts no well-formed encoding (the table [first] of
    the library). *)
Definition lead (b0 : ascii) : option (N * N * nat) :=
  if byte_in 194 223 b0 then Some (128, 191, 0%nat)
  else if byte_in 224 224 b0 then Some (160, 191, 1%nat)
  else if byte_in 225 236 b0 then Some (128, 191, 1%nat)
  else if byte_in 237 237 b0 then Some (128, 159, 1%nat)
  else if byte_in 238 239 b0 then Some (128, 191, 1%nat)
  else if byte_in 240 240 b0 then Some (144, 191, 2%nat)
  else if byte_in 241 243 b0 then Some (128, 191, 2%nat)
  else if byte_in 244 244 b0 then Some (128, 143, 2%nat)
  else None.

Fixpoint conts (k : nat) (s : string) : bool :=
  match k, s with
  | O, _ => true
  | S k', String c t => cont c && conts k' t
  | S _, EmptyString => false
  end.

(** Width in bytes of the well-formed encoding at the head of [s]; [0] when
    [s] is empty or starts with an ill-formed sequence, for which
    [utf8.DecodeRuneInString] answers [(RuneError, 1)] or [(RuneError, 0)]. *)
Definition width (s : string) : nat :=
  match s with
  | EmptyString => 0
  | String b0 t =>
      if byte_in 0 127 b0 then 1
      else match lead b0, t with
           | Some (lo, hi, k), String b1 t' =>
               if byte_in lo hi b1 && conts k t' then S (S k) else 0
           | _, _ => 0
           end
  end%nat.

(** The encoding of U+FFFD, the replacement character. *)
Definition replacement : string :=
  String "239"%char (String "191"%char (String "189"%char EmptyString)).

(** [utf8.AppendRune] for a code point; surrogates and values past U+10FFFF
    are encoded as U+FFFD. *)
Definition encode (r : N) : string :=
  let b (n : N) := String (ascii_of_N n) EmptyString in
  if r <? 128 then b r
   else if r <? 2048 then b (192 + r / 64) ++ b (128 + r mod 64)
   else if (55296 <=? r) && (r <=? 57343) then replacement
   else if r <? 65536 then
     b (224 + r / 4096) ++ b (128 + (r / 64) mod 64) ++ b (128 + r mod 64)
   else if r <=? 1114111 then
     b (240 + r / 262144) ++ b (128 + (r / 4096) mod 64)
       ++ b (128 + (r / 64) mod 64) ++ b (128 + r mod 64)
   else replacement.

(** Every byte of [s] is below [0x80]. *)
Fixpoint ascii_only (s : string) : bool :=
  match s with
  | EmptyString => true
  | String c t => byte_in 0 127 c && ascii_only t
  end.

End Utf8.

(** ** Package encoding/json: encoding *)
Module Json.

(** The Go values the encoders of this repository build and hand to
    [json.Marshal] as [interface{}]: the nil interface, strings, ints and
    [[]interface{}] slices.  A slice that was declared and never appended
    to is nil; Go treats it as a slice of length 0, and [json.Marshal]
    writes it as [null] rather than [[]], so the two are kept apart.
    [Unsupported] stands for a value [json.Marshal] rejects (a channel, a
    function). *)
Inductive value : Type :=
| Nil
| Str (s : string)
| Int (n : Z)
| NilSlice
| Slice (l : list value)
| Unsupported.

(** The built-in [append] on a [[]interface{}]. *)
Definition append (s : value) (x : value) : value :=
  match s with
  | NilSlice => Slice [x]
  | Slice l => Slice (l ++ [x])
  | _ => s
  end.

(** The elements of a slice, [None] for a value that is no slice. *)
Definition elems (v : value) : option (list value) :=
  match v with
  | NilSlice => Some []
  | Slice l => Some l
  | _ => None
  end.

Definition hexdigit (n : N) : ascii :=
  (if n <? 10 then ascii_of_N (48 + n) else ascii_of_N (87 + n))%N.

(** The text [json.Marshal] writes for one byte below [0x80] of a string
    (HTML escaping is on by default; the short escapes for backspace and
    form feed are those of Go 1.22 and later). *)
Definition escape (c : ascii) : string :=
  let n := N_of_ascii c in
  let one a := String a EmptyString in
  (if Ascii.eqb c DQ then String "\" (one DQ)
   else if Ascii.eqb c "\" then "\\"
   else if n =? 8 then "\b"
   else if n =? 12 then "\f"
   else if n =? 10 then "\n"
   else if n =? 13 then "\r"
   else if n =? 9 then "\t"
   else if (n <? 32) || Ascii.eqb c "<" || Ascii.eqb c ">" || Ascii.eqb c "&"
     then "\u00" ++ one (hexdigit (n / 16)) ++ one (hexdigit (n mod 16))
   else one c)%N.

(** A [\u] escape with the four hexadecimal digits [h]. *)
Definition uescape (h : string) : string := "\u" ++ h.

(** U+2028 and U+2029 (encoded [E2 80 A8] and [E2 80 A9]) are written as
    escapes. *)
Definition line_sep (s : string) : option string :=
  match s with
  | String "226" (String "128" (String "168" _)) => Some (uescape "2028")
  | String "226" (String "128" (String "169" _)) => Some (uescape "2029")
  | _ => None
  end.

(** The body of a quoted string.  [skip] counts the bytes that remain of a
    multi-byte encoding already dealt with; they are copied when [keep] is
    set and dropped otherwise.  A byte that starts no well-formed encoding
    is written as the escape of U+FFFD. *)
Fixpoint quote_body (keep : bool) (skip : nat) (s : string) : string :=
  match s with
  | EmptyString => EmptyString
  | String c t =>
      match skip with
      | S k => (if keep then String c (quote_body keep k t) else quote_body keep k t)
      | O =>
          if Utf8.byte_in 0%N 127%N c then escape c ++ quote_body false 0 t
          else match Utf8.width s with
               | O => uescape "fffd" ++ quote_body false 0 t
               | S k =>
                   match line_sep s with
                   | Some e => e ++ quote_body false k t
                   | None => String c (quote_body true k t)
                   end
               end
      end
  end.

(** A Go string as a JSON string literal. *)
Definition quote (s : string) : string :=
  String DQ (quote_body false 0 s ++ String DQ EmptyString).

(** [strconv.Itoa], as used for ints by [json.Marshal] and by the verb
    [%d]. *)
Definition itoa (n : Z) : string := NilZero.string_of_int (Z.to_int n).

(** [json.Marshal] on a [value]; [None] is the error for an unsupported
    type. *)
Fixpoint Marshal (v : value) : option string :=
  match v with
  | Nil => Some "null"
  | Str s => Some (quote s)
  | Int n => Some (itoa n)
  | NilSlice => Some "null"
  | Slice l =>
      let fix items (l : list value) : option (list string) :=
        match l with
        | [] => Some []
        | x :: r =>
            match Marshal x, items r with
            | Some a, Some b => Some (a :: b)
            | _, _ => None
            end
        end in
      match items l with
      | Some ts => Some ("[" ++ String.concat "," ts ++ "]")
      | None => None
      end
  | Unsupported => None
  end.

End Json.

(** ** Package gen/method: argument encoders *)
Module Method.
Import Json.

(** Modelled from the spec: the request messages of the generated package
    [notebooklm/v1alpha1], which is not part of the sources at hand.  The
    encoders read them through the getters [GetSourceIds], [GetAction] and
    [GetPrompt] only; the spec names the fields as the resource identifiers,
    the action name and the prompt string. *)
Record ActOnSourcesRequest : Type := {
  ActOnSources_SourceIds : list string;
  ActOnSources_Action : string
}.

Record GenerateFreeFormStreamedRequest : Type := {
  FreeForm_SourceIds : list string;
  FreeForm_Prompt : string
}.

(** The loop [for _, sid := range ids { inner = append(inner, sid) }] over
    a slice declared by [var inner []interface{}]. *)
Definition collect (ids : list string) : value :=
  fold_left (fun inner sid => append inner (Str sid)) ids NilSlice.

(** The metadata tuple in the last slot. *)
Definition metadata : value := Slice [Int 2; Nil; Slice [Int 1]].

Definition EncodeActOnSourcesArgs (req : ActOnSourcesRequest) : list value :=
  let sourceIDsInner := collect (ActOnSources_SourceIds req) in
  let sourceIDsNested := Slice [Slice [sourceIDsInner]] in
  let actionInfo :=
    Slice [Str (ActOnSources_Action req);
           Slice [Slice [Str "[CONTEXT]"; Str EmptyString]];
           Str EmptyString] in
  [sourceIDsNested; Nil; Nil; Nil; Nil; actionInfo; Nil; metadata].

Definition EncodeGenerateFreeFormStreamedArgs
    (req : GenerateFreeFormStreamedRequest) : list value :=
  let sourceIDsInner := collect (FreeForm_SourceIds req) in
  let sourceIDsNested := Slice [sourceIDsInner] in
  [sourceIDsNested; Str (FreeForm_Prompt req); Nil; Nil; Nil; Nil; Nil; metadata].

End Method.

(** ** Package encoding/json: decoding *)
Module Decode.

(** What [json.Unmarshal] stores into an [interface{}]: nil, bool, float64,
    string, [[]interface{}] and [map[string]interface{}].  A number is kept
    as its literal (the code under study never looks at one) and an object
    as its members in document order. *)
Inductive jvalue : Type :=
| JNull
| JBool (b : bool)
| JNumber (lit : string)
| JString (s : string)
| JArray (l : list jvalue)
| JObject (m : list (string * jvalue)).

(** *** Lexical elements *)

Inductive token : Type :=
| TLBracket | TRBracket | TLBrace | TRBrace | TComma | TColon
| TString (raw : string)
| TNumber (lit : string)
| TWord (w : string).

Definition is_space (c : ascii) : bool :=
  Ascii.eqb c " " || Ascii.eqb c "009" || Ascii.eqb c "013" || Ascii.eqb c "010".

Definition is_digit (c : ascii) : bool := Utf8.byte_in 48 57 c.
Definition is_lower (c : ascii) : bool := Utf8.byte_in 97 122 c.

Definition is_numchar (c : ascii) : bool :=
  is_digit c || Ascii.eqb c "-" || Ascii.eqb c "+" || Ascii.eqb c "."
  || Ascii.eqb c "e" || Ascii.eqb c "E".

Definition snoc (s : string) (c : ascii) : string := s ++ String c EmptyString.

Inductive mode : Type :=
| MTop
| MStr (raw : string)
| MEsc (raw : string)
| MNum (lit : string)
| MWord (w : string).

(** The scanner takes one byte at a time, as the [step] function of the
    library does.  A string token carries the bytes between its quotes,
    escapes included; a control byte inside a string is an error. *)

(** A byte met between tokens. *)
Definition start (acc : list token) (c : ascii) : option (mode * list token) :=
  if is_space c then Some (MTop, acc)
  else if Ascii.eqb c "[" then Some (MTop, TLBracket :: acc)
  else if Ascii.eqb c "]" then Some (MTop, TRBracket :: acc)
  else if Ascii.eqb c "{" then Some (MTop, TLBrace :: acc)
  else if Ascii.eqb c "}" then Some (MTop, TRBrace :: acc)
  else if Ascii.eqb c "," then Some (MTop, TComma :: acc)
  else if Ascii.eqb c ":" then Some (MTop, TColon :: acc)
  else if Ascii.eqb c DQ then Some (MStr EmptyString, acc)
  else if is_digit c || Ascii.eqb c "-" then Some (MNum (String c EmptyString), acc)
  else if is_lower c then Some (MWord (String c EmptyString), acc)
  else None.

Definition lex_step (m : mode) (acc : list token) (c : ascii)
  : option (mode * list token) :=
  match m with
  | MTop => start acc c
  | MStr raw =>
      if Ascii.eqb c DQ then Some (MTop, TString raw :: acc)
      else if Ascii.eqb c "\" then Some (MEsc (snoc raw c), acc)
      else if Utf8.byte_in 0 31 c then None
      else Some (MStr (snoc raw c), acc)
  | MEsc raw => Some (MStr (snoc raw c), acc)
  | MNum l =>
      if is_numchar c then Some (MNum (snoc l c), acc)
      else start (TNumber l :: acc) c
  | MWord w =>
      if is_lower c then Some (MWord (snoc w c), acc)
      else start (TWord w :: acc) c
  end.

(** The end of the text. *)
Definition finish (m : mode) (acc : list token) : option (list token) :=
  match m with
  | MTop => Some (rev acc)
  | MStr _ | MEsc _ => None
  | MNum l => Some (rev (TNumber l :: acc))
  | MWord w => Some (rev (TWord w :: acc))
  end.

Fixpoint lex (m : mode) (acc : list token) (s : string) : option (list token) :=
  match s with
  | EmptyString => finish m acc
  | String c t =>
      match lex_step m acc c with
      | Some (m', acc') => lex m' acc' t
      | None => None
      end
  end.

(** The state of the scanner after the bytes of [s]. *)
Fixpoint lex_run (m : mode) (acc : list token) (s : string)
  : option (mode * list token) :=
  match s with
  | EmptyString => Some (m, acc)
  | String c t =>
      match lex_step m acc c with
      | Some (m', acc') => lex_run m' acc' t
      | None => None
      end
  end.

(** The bytes of [e] can stand between the quotes of a string token: no
    control byte and no quote outside an escape.  [esc] tells whether a
    backslash was just read; the answer is that state at the end of [e]. *)
Fixpoint scan_str (esc : bool) (e : string) : option bool :=
  match e with
  | EmptyString => Some esc
  | String c t =>
      if esc then scan_str false t
      else if Ascii.eqb c DQ then None
      else if Ascii.eqb c "\" then scan_str true t
      else if Utf8.byte_in 0 31 c then None
      else scan_str false t
  end.

(** *** Numbers *)

Fixpoint take_digits (s : string) : string * string :=
  match s with
  | String c t =>
      if is_digit c then let (d, r) := take_digits t in (String c d, r)
      else (EmptyString, s)
  | EmptyString => (EmptyString, EmptyString)
  end.

Fixpoint digits_value (acc : Z) (s : string) : Z :=
  match s with
  | String c t => digits_value (10 * acc + (Z.of_N (N_of_ascii c) - 48)) t
  | EmptyString => acc
  end.

(** A literal of the JSON number grammar, as the digits of its mantissa
    read as one integer and the power of ten that scales them. *)
Definition scan_number (lit : string) : option (Z * Z) :=
  let body := match lit with String "-" t => t | _ => lit end in
  let (ip, r1) := take_digits body in
  let int_ok :=
    match ip with
    | EmptyString => false
    | String "0" (String _ _) => false
    | _ => true
    end in
  let '(fp, frac_ok, r2) :=
    match r1 with
    | String "." t =>
        let (fp, r2) := take_digits t in
        (fp, negb (String.eqb fp EmptyString), r2)
    | _ => (EmptyString, true, r1)
    end in
  let '(ex, exp_ok) :=
    match r2 with
    | EmptyString => (0, true)
    | String c t =>
        if Ascii.eqb c "e" || Ascii.eqb c "E" then
          let '(neg, u) :=
            match t with
            | String "-" u => (true, u)
            | String "+" u => (false, u)
            | _ => (false, t)
            end in
          let (ep, r3) := take_digits u in
          ((if neg then - digits_value 0 ep else digits_value 0 ep),
           negb (String.eqb ep EmptyString) && String.eqb r3 EmptyString)
        else (0, false)
    end in
  if int_ok && frac_ok && exp_ok
  then Some (digits_value 0 (ip ++ fp), ex - Z.of_nat (String.length fp))
  else None.

(** [strconv.ParseFloat(lit, 64)] fails with a range error exactly when the
    magnitude rounds to infinity, which is from [2^1024 - 2^970] on. *)
Definition float64_in_range (m e : Z) : bool :=
  let bound := 2 ^ 1024 - 2 ^ 970 in
  if 0 <=? e then m * 10 ^ e <? bound else m <? bound * 10 ^ (- e).

(** *** String literals *)

Definition hex_value (c : ascii) : option N :=
  let n := N_of_ascii c in
  (if Utf8.byte_in 48 57 c then Some (n - 48)
   else if Utf8.byte_in 97 102 c then Some (n - 87)
   else if Utf8.byte_in 65 70 c then Some (n - 55)
   else None)%N.

(** [getu4] after the [\u]: the value of four hexadecimal digits. *)
Definition hex4 (s : string) : option N :=
  match s with
  | String a (String b (String c (String d _))) =>
      match hex_value a, hex_value b, hex_value c, hex_value d with
      | Some x, Some y, Some z, Some w => Some (((x * 16 + y) * 16 + z) * 16 + w)%N
      | _, _, _, _ => None
      end
  | _ => None
  end.

(** The escape whose backslash was just read: the bytes it stands for and
    how many bytes of [t] it occupies.  A surrogate that is not followed by
    its other half decodes to U+FFFD. *)
Definition escape_at (t : string) : option (string * nat) :=
  let one (n : N) := Some (String (ascii_of_N n) EmptyString, 1%nat) in
  match t with
  | EmptyString => None
  | String e u =>
      if Ascii.eqb e DQ then one 34%N
      else if Ascii.eqb e "\" then one 92%N
      else if Ascii.eqb e "/" then one 47%N
      else if Ascii.eqb e "b" then one 8%N
      else if Ascii.eqb e "f" then one 12%N
      else if Ascii.eqb e "n" then one 10%N
      else if Ascii.eqb e "r" then one 13%N
      else if Ascii.eqb e "t" then one 9%N
      else if Ascii.eqb e "u" then
        match hex4 u with
        | None => None
        | Some r =>
            if ((55296 <=? r) && (r <? 57344))%N then
              match Strings.drop 4 u with
              | String "\" (String "u" v) =>
                  match hex4 v with
                  | Some r2 =>
                      if ((r <? 56320) && (56320 <=? r2) && (r2 <? 57344))%N
                      then Some (Utf8.encode ((r - 55296) * 1024 + (r2 - 56320) + 65536)%N, 11%nat)
                      else Some (Utf8.replacement, 5%nat)
                  | None => Some (Utf8.replacement, 5%nat)
                  end
              | _ => Some (Utf8.replacement, 5%nat)
              end
            else Some (Utf8.encode r, 5%nat)
        end
      else None
  end.

(** [unquote] on the bytes between the quotes.  Escapes are replaced, an
    ill-formed UTF-8 byte becomes U+FFFD.  [skip] counts pending bytes of
    an element already dealt with; they are copied when [keep] is set. *)
Fixpoint unquote (keep : bool) (skip : nat) (s : string) : option string :=
  match s with
  | EmptyString => Some EmptyString
  | String c t =>
      match skip with
      | S k =>
          if keep then option_map (String c) (unquote keep k t)
          else unquote keep k t
      | O =>
          if Ascii.eqb c "\" then
            match escape_at t with
            | Some (out, n) => option_map (String.append out) (unquote false n t)
            | None => None
            end
          else if Utf8.byte_in 0 127 c then option_map (String c) (unquote false 0 t)
          else match Utf8.width s with
               | O => option_map (String.append Utf8.replacement) (unquote false 0 t)
               | S k => option_map (String c) (unquote true k t)
               end
      end
  end.

(** *** Values *)

Definition word_value (w : string) : option jvalue :=
  if String.eqb w "true" then Some (JBool true)
  else if String.eqb w "false" then Some (JBool false)
  else if String.eqb w "null" then Some JNull
  else None.

Definition number_value (lit : string) : option jvalue :=
  match scan_number lit with
  | Some (m, e) => if float64_in_range m e then Some (JNumber lit) else None
  | None => None
  end.

Definition string_value (raw : string) : option string := unquote false 0 raw.

(** An open array with the elements read so far, or an open object with
    its members and the key whose value is being read. *)
Inductive frame : Type :=
| FArray (done : list jvalue)
| FObject (done : list (string * jvalue)) (key : string).

Inductive pstate : Type :=
| SValue (st : list frame)
| SArrOpen (st : list frame)
| SObjOpen (st : list frame)
| SKey (st : list frame)
| SColon (st : list frame)
| SMore (st : list frame)
| SDone (v : jvalue).

(** The scanner refuses more than [maxNestingDepth] open brackets. *)
Definition maxNestingDepth : Z := 10000.

(** The value [v] is complete below the open brackets [st]. *)
Definition close (st : list frame) (v : jvalue) : pstate :=
  match st with
  | [] => SDone v
  | FArray done :: r => SMore (FArray (done ++ [v]) :: r)
  | FObject done k :: r => SMore (FObject (done ++ [(k, v)]) k :: r)
  end.

Definition begin_value (st : list frame) (t : token) : option pstate :=
  match t with
  | TString raw => option_map (fun s => close st (JString s)) (string_value raw)
  | TNumber lit => option_map (close st) (number_value lit)
  | TWord w => option_map (close st) (word_value w)
  | TLBracket =>
      if Z.of_nat (List.length st) <? maxNestingDepth then Some (SArrOpen (FArray [] :: st)) else None
  | TLBrace =>
      if Z.of_nat (List.length st) <? maxNestingDepth
      then Some (SObjOpen (FObject [] EmptyString :: st)) else None
  | _ => None
  end.

Definition set_key (st : list frame) (raw : string) : option pstate :=
  match st, string_value raw with
  | FObject done _ :: r, Some k => Some (SColon (FObject done k :: r))
  | _, _ => None
  end.

Definition step (s : pstate) (t : token) : option pstate :=
  match s, t with
  | SValue st, _ => begin_value st t
  | SArrOpen (FArray _ :: r), TRBracket => Some (close r (JArray []))
  | SArrOpen st, _ => begin_value st t
  | SObjOpen (FObject _ _ :: r), TRBrace => Some (close r (JObject []))
  | SObjOpen st, TString raw => set_key st raw
  | SKey st, TString raw => set_key st raw
  | SColon st, TColon => Some (SValue st)
  | SMore (FArray done :: r), TComma => Some (SValue (FArray done :: r))
  | SMore (FArray done :: r), TRBracket => Some (close r (JArray done))
  | SMore (FObject done k :: r), TComma => Some (SKey (FObject done k :: r))
  | SMore (FObject done _ :: r), TRBrace => Some (close r (JObject done))
  | _, _ => None
  end.

Fixpoint run (s : pstate) (ts : list token) : option pstate :=
  match ts with
  | [] => Some s
  | t :: r => match step s t with
              | Some s' => run s' r
              | None => None
              end
  end.

(** One JSON text decoded into an [interface{}]; [None] when the text is
    not valid JSON or holds a number beyond float64. *)
Definition decode (text : string) : option jvalue :=
  match lex MTop [] text with
  | Some ts => match run (SValue []) ts with
               | Some (SDone v) => Some v
               | _ => None
               end
  | None => None
  end.

(** An element of the outer array as a [[]interface{}]: [null] leaves the
    nil slice, anything but an array is a type error. *)
Definition row (v : jvalue) : option (list jvalue) :=
  match v with
  | JNull => Some []
  | JArray l => Some l
  | _ => None
  end.

Fixpoint rows (l : list jvalue) : option (list (list jvalue)) :=
  match l with
  | [] => Some []
  | v :: r => match row v, rows r with
              | Some a, Some b => Some (a :: b)
              | _, _ => None
              end
  end.

(** [json.Unmarshal(text, &outer)] for [var outer [][]interface{}]: the
    slice left in [outer], or [None] when the call returns an error. *)
Definition Unmarshal (text : string) : option (list (list jvalue)) :=
  match decode text with
  | Some JNull => Some []
  | Some (JArray l) => rows l
  | _ => None
  end.

Definition is_JString (v : jvalue) : bool :=
  match v with JString _ => true | _ => false end.

End Decode.

(** ** Packages net/http, io, os and regexp: what the code observes *)
Module Http.

(** How a response body ends: [io.EOF] or another read error. *)
Inductive read_end : Type := EOF | ReadFailure.

(** A response body as the results of the successive [Read] calls on it:
    each call hands over some bytes, and the last one also reports how the
    body ends.  (A [Read] may return bytes together with [io.EOF].) *)
Inductive reader : Type :=
| Last (data : string) (e : read_end)
| More (data : string) (rest : reader).

(** [io.ReadAll]: the bytes read, and whether reading failed. *)
Fixpoint ReadAll (r : reader) : string * bool :=
  match r with
  | Last d EOF => (d, false)
  | Last d ReadFailure => (d, true)
  | More d rest => let (ds, failed) := ReadAll rest in (d ++ ds, failed)
  end.

Record Request : Type := {
  Method : string;
  URL : string;
  Query : list (string * string);
  Header : list (string * string);
  Form : list (string * string)
}.

Record Response : Type := {
  StatusCode : Z;
  Body : reader
}.

Definition StatusOK : Z := 200.

(** A status of the 2xx class. *)
Definition is_2xx (code : Z) : bool := (200 <=? code) && (code <=? 299).

(** The value of a parameter in a [url.Values] filled by [Set] calls. *)
Fixpoint lookup (k : string) (kvs : list (string * string)) : option string :=
  match kvs with
  | [] => None
  | (k', v) :: r => if String.eqb k k' then Some v else lookup k r
  end.

End Http.

(** The surroundings of one call: the environment variables, the regular
    expression engine, and the network.  [NewRequest] tells whether
    [http.NewRequest] accepts the URL; [Do] answers a request with a
    response, or with [None] for a transport error. *)
Record Env : Type := {
  Getenv : string -> string;
  FindStringSubmatch : string -> string -> list string;
  NewRequest : Http.Request -> bool;
  Do : Http.Request -> option Http.Response
}.

(** ** Package internal/rpc: session parameters *)
Module Rpc.

Definition DefaultBuildVersion : string := "boq_labs-tailwind-frontend_20251120.08_p0".
Definition DefaultSessionID : string := "-8913782897795119716".

Record APIParams : Type := {
  BuildVersion : string;
  SessionID : string
}.

(** A [*APIParams] is an address in the store of allocated structs. *)
Definition ptr : Type := nat.

(** What leaves the process. *)
Inductive event : Type :=
| Sent (r : Http.Request)
| Delivered (chunk : string).

(** The state of the process: the allocated [APIParams] structs, the
    package variable [cachedParams] ([None] is nil), the package variable
    [requestCounter] of [grpcendpoint], and the events so far, oldest
    first.  [paramsMutex] serialises the calls and has no state of its own
    in a sequential run. *)
Record World : Type := {
  heap : list APIParams;
  cachedParams : option ptr;
  requestCounter : Z;
  trace : list event
}.

Definition init : World :=
  {| heap := []; cachedParams := None; requestCounter := 0; trace := [] |}.

(** [&APIParams{...}]. *)
Definition alloc (v : APIParams) (w : World) : ptr * World :=
  (List.length (heap w),
   {| heap := heap w ++ [v]; cachedParams := cachedParams w;
      requestCounter := requestCounter w; trace := trace w |}).

(** [*p]. *)
Definition load (p : ptr) (w : World) : option APIParams := nth_error (heap w) p.

Definition set_cachedParams (c : option ptr) (w : World) : World :=
  {| heap := heap w; cachedParams := c;
     requestCounter := requestCounter w; trace := trace w |}.

Definition log (e : event) (w : World) : World :=
  {| heap := heap w; cachedParams := cachedParams w;
     requestCounter := requestCounter w; trace := trace w ++ [e] |}.

(** The four patterns of [fetchAPIParamsFromPage]. *)
Definition blRegex : string := bq "`cfb2h`:`(boq_labs-tailwind-frontend_[^`]+)`".
Definition sidRegex : string := bq "`FdrFJe`:`(-?\d+)`".
Definition blAltRegex : string := bq "bl['`:\s=]+['`]?(boq_labs-tailwind-frontend_[^'`&\s]+)".
Definition sidAltRegex : string := bq "f\.sid['`:\s=]+['`]?(-?\d+)".

(** [if m := re.FindStringSubmatch(html); len(m) > 1 { field = m[1] }]. *)
Definition submatch (env : Env) (re html old : string) : string :=
  match FindStringSubmatch env re html with
  | _ :: m1 :: _ => m1
  | _ => old
  end.

Definition pageRequest (cookies : string) : Http.Request :=
  {| Http.Method := "GET";
     Http.URL := "https://notebooklm.google.com/";
     Http.Query := [];
     Http.Header :=
       [("Cookie", cookies);
        ("User-Agent", "Mozilla/5.0 (Windows NT 10.0; Win64; x64) AppleWebKit/537.36")];
     Http.Form := [] |}.

Definition is_empty (s : string) : bool := String.eqb s EmptyString.

(** One field of [fetchAPIParamsFromPage]: the capture of the primary
    pattern, or that of the alternative pattern when the field is still
    empty; empty when neither matches. *)
Definition found (env : Env) (re alt html : string) : string :=
  let v := submatch env re html EmptyString in
  if is_empty v then submatch env alt html v else v.

(** The extraction of [fetchAPIParamsFromPage] from the page text: the
    struct filled in, or [None] where the function returns nil.  The
    struct is local to the function until it is returned; the debug print
    writes to the standard output only. *)
Definition extract (env : Env) (html : string) : option APIParams :=
  let bl := found env blRegex blAltRegex html in
  let sid := found env sidRegex sidAltRegex html in
  if negb (is_empty bl) || negb (is_empty sid) then
    let bl := if is_empty bl then DefaultBuildVersion else bl in
    let sid := if is_empty sid then DefaultSessionID else sid in
    Some {| BuildVersion := bl; SessionID := sid |}
  else None.

(** The page text [fetchAPIParamsFromPage] works on: the body of the
    response to the page request, read in full; [None] when the round trip
    or the read fails. *)
Definition page_text (env : Env) (cookies : string) : option string :=
  match Do env (pageRequest cookies) with
  | None => None
  | Some resp =>
      match Http.ReadAll (Http.Body resp) with
      | (_, true) => None
      | (html, false) => Some html
      end
  end.

(** [fetchAPIParamsFromPage].  The status of the response is not looked
    at. *)
Definition fetchAPIParamsFromPage (env : Env) (cookies : string) (w : World)
  : option ptr * World :=
  let req := pageRequest cookies in
  if negb (NewRequest env req) then (None, w) else
  let w := log (Sent req) w in
  match page_text env cookies with
  | None => (None, w)
  | Some html =>
      match extract env html with
      | Some params => let (p, w) := alloc params w in (Some p, w)
      | None => (None, w)
      end
  end.

(** [GetAPIParams]. *)
Definition GetAPIParams (env : Env) (cookies : string) (w : World) : ptr * World :=
  match cachedParams w with
  | Some p => (p, w)
  | None =>
      let bl := Getenv env "NLM_BUILD_VERSION" in
      let sid := Getenv env "NLM_SESSION_ID" in
      if negb (is_empty bl) && negb (is_empty sid) then
        let (p, w) := alloc {| BuildVersion := bl; SessionID := sid |} w in
        (p, set_cachedParams (Some p) w)
      else
        let (fetched, w) :=
          if negb (is_empty cookies) then fetchAPIParamsFromPage env cookies w
          else (None, w) in
        match fetched with
        | Some p => (p, set_cachedParams (Some p) w)
        | None =>
            let (p, w) :=
              alloc {| BuildVersion := DefaultBuildVersion;
                       SessionID := DefaultSessionID |} w in
            (p, set_cachedParams (Some p) w)
        end
  end.

(** [ClearAPIParamsCache]. *)
Definition ClearAPIParamsCache (w : World) : World := set_cachedParams None w.

(** The struct of the two default constants. *)
Definition defaults : APIParams :=
  {| BuildVersion := DefaultBuildVersion; SessionID := DefaultSessionID |}.

(** The resolution order as the spec lists it after the cache, with the
    requests it sends: the explicit override when both values are present;
    else, with cookies, the fetch of the root page, each field taken from
    the page or from its default; else the defaults. *)
Definition resolution (env : Env) (cookies : string) : APIParams * list event :=
  let bl := Getenv env "NLM_BUILD_VERSION" in
  let sid := Getenv env "NLM_SESSION_ID" in
  if negb (is_empty bl) && negb (is_empty sid)
  then ({| BuildVersion := bl; SessionID := sid |}, [])
  else if is_empty cookies then (defaults, [])
  else if negb (NewRequest env (pageRequest cookies)) then (defaults, [])
  else
    (match page_text env cookies with
     | Some html =>
         {| BuildVersion :=
              let bl := found env blRegex blAltRegex html in
              if is_empty bl then DefaultBuildVersion else bl;
            SessionID :=
              let sid := found env sidRegex sidAltRegex html in
              if is_empty sid then DefaultSessionID else sid |}
     | None => defaults
     end,
     [Sent (pageRequest cookies)]).

(** The world after a struct [v] was allocated and cached and the events
    [evs] happened. *)
Definition cached_with (v : APIParams) (evs : list event) (w : World) : World :=
  {| heap := heap w ++ [v];
     cachedParams := Some (List.length (heap w));
     requestCounter := requestCounter w;
     trace := trace w ++ evs |}.

(** Two worlds with the same structs and the same cache. *)
Definition same_store (w w' : World) : Prop :=
  heap w = heap w' /\ cachedParams w = cachedParams w'.

(** The cached pointer, if any, leads to a struct with both fields set. *)
Definition cache_filled (w : World) : Prop :=
  forall p, cachedParams w = Some p ->
    exists v, load p w = Some v
              /\ BuildVersion v <> EmptyString /\ SessionID v <> EmptyString.

(** Both fields of the struct at [p] are set. *)
Definition filled (p : ptr) (w : World) : Prop :=
  exists v, load p w = Some v
            /\ BuildVersion v <> EmptyString /\ SessionID v <> EmptyString.

End Rpc.

(** ** Package internal/rpc/grpcendpoint: the transport *)
Module Grpcendpoint.
Import Rpc.

(** The errors the transport returns.  A wrapped cause ([%w]) is not kept;
    [StatusError] holds the two values its message is formatted from. *)
Inductive error : Type :=
| EncodeError
| CreateRequestError
| SendError
| ReadError
| StatusError (code : Z) (body : string)
| ParseOuterError
| FormatError
| DataTypeError
| HandlerError (cause : string)
| StreamReadError.

(** The text of an error, up to the wrapped cause. *)
Definition message (e : error) : string :=
  match e with
  | EncodeError => "failed to encode request body: "
  | CreateRequestError => "failed to create request: "
  | SendError => "failed to send request: "
  | ReadError => "failed to read response: "
  | StatusError code body =>
      "request failed with status " ++ Json.itoa code ++ ": " ++ body
  | ParseOuterError => "parse outer response: "
  | FormatError => "invalid response format: expected [['wrb.fr',null,'data',...]]"
  | DataTypeError => "invalid response data type: expected string"
  | HandlerError cause => "handler error: " ++ cause
  | StreamReadError => "read error: "
  end.

Record Client : Type := {
  authToken : string;
  cookies : string;
  debug : bool
}.

Definition NewClient (authToken cookies : string) : Client :=
  {| authToken := authToken; cookies := cookies; debug := false |}.

Record Request : Type := {
  Endpoint : string;
  Body : Json.value
}.

(** Go's [int] on the 64-bit targets: the result of an arithmetic operation
    is reduced into [-2^63, 2^63). *)
Definition maxInt : Z := 2 ^ 63 - 1.
Definition wrap (z : Z) : Z := (z + 2 ^ 63) mod 2 ^ 64 - 2 ^ 63.

(** [generateRequestID]. *)
Definition generateRequestID (w : World) : Z * World :=
  let counter := wrap (requestCounter w + 1) in
  (wrap (1000000 + counter),
   {| heap := heap w; cachedParams := cachedParams w;
      requestCounter := counter; trace := trace w |}).

Definition guard : string := ")]}'".

(** Lines 114-119 of [Execute]: the guard and the line feeds after it are
    dropped. *)
Definition strip_guard (body : string) : string :=
  if Strings.HasPrefix body guard
  then Strings.trimLeftByte (Strings.TrimPrefix body guard) LF
  else body.

(** Lines 121-127: the second of the fields cut off by the first two line
    feeds, when there are two fields at least. *)
Definition first_chunk (bodyStr : string) : outcome error string :=
  let lines := Strings.SplitN bodyStr LF 3 in
  if (2 <=? List.length lines)%nat then index lines 1 else Ok bodyStr.

(** Lines 129-151: the envelope is parsed and the string at index 2 of its
    first element is returned. *)
Definition payload (bodyStr : string) : outcome error string :=
  match Decode.Unmarshal bodyStr with
  | None => Err ParseOuterError
  | Some outerArray =>
      if (List.length outerArray =? 0)%nat then Err FormatError else
      first <- index outerArray 0 ;;
      if (List.length first <? 3)%nat then Err FormatError else
      data <- index first 2 ;;
      match data with
      | Decode.JString dataStr => Ok dataStr
      | _ => Err DataTypeError
      end
  end.

(** Lines 114-151 of [Execute], from the response body to the result.
    The debug prints write to the standard output only. *)
Definition unframe (body : string) : outcome error string :=
  bodyStr <- first_chunk (strip_guard body) ;;
  payload bodyStr.

Definition baseURL : string := "https://notebooklm.google.com/_/LabsTailwindUi/data".

(** The query parameters both transports set. *)
Definition queryParams (apiParams : APIParams) (reqid : Z) : list (string * string) :=
  [("bl", BuildVersion apiParams);
   ("f.sid", SessionID apiParams);
   ("hl", "en");
   ("_reqid", Json.itoa reqid);
   ("rt", "c")].

Definition formData (bodyJSON : string) (c : Client) : list (string * string) :=
  [("f.req", bodyJSON); ("at", authToken c)].

Definition commonHeaders (c : Client) : list (string * string) :=
  [("Content-Type", "application/x-www-form-urlencoded;charset=UTF-8");
   ("Cookie", cookies c);
   ("Origin", "https://notebooklm.google.com");
   ("Referer", "https://notebooklm.google.com/");
   ("X-Same-Domain", "1")].

Definition post (c : Client) (req : Request) (apiParams : APIParams) (reqid : Z)
    (bodyJSON : string) (extra : list (string * string)) : Http.Request :=
  {| Http.Method := "POST";
     Http.URL := baseURL ++ Endpoint req;
     Http.Query := queryParams apiParams reqid;
     Http.Header := commonHeaders c ++ extra;
     Http.Form := formData bodyJSON c |}.

(** The steps [Execute] and [Stream] share, up to the response: session
    parameters, request id, encoding, request, round trip. *)
Definition exchange (env : Env) (c : Client) (req : Request)
    (extra : list (string * string)) (w : World)
  : outcome error Http.Response * World :=
  let (ap, w) := GetAPIParams env (cookies c) w in
  match load ap w with
  | None => (Panic, w)
  | Some apiParams =>
      let (reqid, w) := generateRequestID w in
      match Json.Marshal (Body req) with
      | None => (Err EncodeError, w)
      | Some bodyJSON =>
          let httpReq := post c req apiParams reqid bodyJSON extra in
          if negb (NewRequest env httpReq) then (Err CreateRequestError, w) else
          let w := log (Sent httpReq) w in
          match Do env httpReq with
          | None => (Err SendError, w)
          | Some resp => (Ok resp, w)
          end
      end
  end.

(** Lines 98-151 of [Execute]: the body is read in full, then the status is
    checked, then the body is unframed. *)
Definition receive (resp : Http.Response) : outcome error string :=
  match Http.ReadAll (Http.Body resp) with
  | (_, true) => Err ReadError
  | (body, false) =>
      if negb (Http.StatusCode resp =? Http.StatusOK)
      then Err (StatusError (Http.StatusCode resp) body)
      else unframe body
  end.

(** The two headers only [Execute] sets. *)
Definition acceptHeaders : list (string * string) :=
  [("Accept", "*/*"); ("Accept-Language", "en-US,en;q=0.9")].

(** [Client.Execute]. *)
Definition Execute (env : Env) (c : Client) (req : Request) (w : World)
  : outcome error string * World :=
  match exchange env c req acceptHeaders w with
  | (Ok resp, w) => (receive resp, w)
  | (Err e, w) => (Err e, w)
  | (Panic, w) => (Panic, w)
  end.

(** The read loop of [Stream] over a 4096-byte buffer.  The handler is a
    closure: its captured variables are the state [h]; it answers with an
    error text or with [None] for nil. *)
Fixpoint readLoop {H : Type} (handler : H -> string -> H * option string)
    (r : Http.reader) (h : H) (w : World) : outcome error unit * H * World :=
  let deliver (data : string) (h : H) (w : World) : option string * H * World :=
    if (0 <? String.length data)%nat then
      let (h', res) := handler h data in (res, h', log (Delivered data) w)
    else (None, h, w) in
  match r with
  | Http.Last data e =>
      match deliver data h w with
      | (Some cause, h, w) => (Err (HandlerError cause), h, w)
      | (None, h, w) =>
          match e with
          | Http.EOF => (Ok tt, h, w)
          | Http.ReadFailure => (Err StreamReadError, h, w)
          end
      end
  | Http.More data rest =>
      match deliver data h w with
      | (Some cause, h, w) => (Err (HandlerError cause), h, w)
      | (None, h, w) => readLoop handler rest h w
      end
  end.

(** [Client.Stream]. *)
Definition Stream {H : Type} (env : Env) (c : Client) (req : Request)
    (handler : H -> string -> H * option string) (h : H) (w : World)
  : outcome error unit * H * World :=
  match exchange env c req [] w with
  | (Ok resp, w) =>
      if negb (Http.StatusCode resp =? Http.StatusOK) then
        let (body, _) := Http.ReadAll (Http.Body resp) in
        (Err (StatusError (Http.StatusCode resp) body), h, w)
      else readLoop handler (Http.Body resp) h w
  | (Err e, w) => (Err e, h, w)
  | (Panic, w) => (Panic, h, w)
  end.

End Grpcendpoint.

(** ** Sequential runs of the process *)
Module Process.
Import Json Rpc Grpcendpoint.

(** One call into the two packages. *)
Inductive call : Type :=
| CallGetAPIParams (cookies : string)
| CallClearAPIParamsCache
| CallExecute (c : Client) (req : Request)
| CallStream (H : Type) (c : Client) (req : Request)
    (handler : H -> string -> H * option string) (h : H).

Definition perform (env : Env) (k : call) (w : World) : World :=
  match k with
  | CallGetAPIParams cookies => snd (GetAPIParams env cookies w)
  | CallClearAPIParamsCache => ClearAPIParamsCache w
  | CallExecute c req => snd (Execute env c req w)
  | CallStream _ c req handler h => snd (Stream env c req handler h w)
  end.

Definition is_transport (k : call) : bool :=
  match k with
  | CallExecute _ _ | CallStream _ _ _ _ _ => true
  | _ => false
  end.

(** The calls of a script, each in its own surroundings, from first to
    last. *)
Fixpoint run (script : list (Env * call)) (w : World) : World :=
  match script with
  | [] => w
  | (env, k) :: rest => run rest (perform env k w)
  end.

(** The number of [Execute] and [Stream] calls in a script. *)
Fixpoint transport_count (script : list (Env * call)) : nat :=
  match script with
  | [] => O
  | (_, k) :: rest =>
      if is_transport k then S (transport_count rest) else transport_count rest
  end.

(** A call that gets as far as sending its POST request in the
    surroundings [env]: the URL is accepted and the body can be encoded. *)
Definition sends (env : Env) (k : call) : Prop :=
  (forall r, NewRequest env r = true)
  /\ match k with
     | CallExecute _ req | CallStream _ _ req _ _ => Marshal (Body req) <> None
     | _ => True
     end.

(** The decimal texts of [1000000 + first], ..., [1000000 + first + n - 1]. *)
Fixpoint ids_from (first : Z) (n : nat) : list string :=
  match n with
  | O => []
  | S n' => Json.itoa (1000000 + first) :: ids_from (first + 1) n'
  end.

(** The [_reqid] of the POST requests among the events. *)
Fixpoint reqids (t : list event) : list string :=
  match t with
  | [] => []
  | Sent r :: rest =>
      if String.eqb (Http.Method r) "POST"
      then match Http.lookup "_reqid" (Http.Query r) with
           | Some v => v :: reqids rest
           | None => reqids rest
           end
      else reqids rest
  | Delivered _ :: rest => reqids rest
  end.

(** The effect of a step on the counter and on the events: the counter
    moves by [d], and the events added hold the request ids [ids]. *)
Definition moves (d : Z) (ids : list string) (w w' : World) : Prop :=
  requestCounter w' = requestCounter w + d
  /\ exists evs : list event, trace w' = (trace w ++ evs)%list /\ reqids evs = ids.

End Process.

(** ** Sample inputs *)
Module Samples.
Import Method Rpc Grpcendpoint.

(** The envelope of the spec's exemplar and its payload. *)
Definition envelope : string := bq "[[`wrb.fr`,null,`{\`a\`:1}`,null,null,null]]".
Definition payload_a1 : string := bq "{`a`:1}".

(** The envelope around a payload [s], as [json.Marshal] writes it. *)
Definition wrb_envelope (s : string) : string :=
  "[[" ++ Json.quote "wrb.fr" ++ ",null," ++ Json.quote s ++ ",null,null,null]]".

(** The exemplar body: guard, line feed, length line, envelope line. *)
Definition exemplar : string := guard ++ nl ++ "31" ++ nl ++ envelope ++ nl.

(** The text after the chunk: nothing, or a line feed and more. *)
Definition after (tail : option string) : string :=
  match tail with
  | None => EmptyString
  | Some rest => nl ++ rest
  end.

(** A framed body: optionally the guard and [k] line feeds, then a first
    field, a line feed, the chunk, and the tail. *)
Definition framed (guarded : bool) (k : nat) (len chunk : string)
    (tail : option string) : string :=
  (if guarded then guard ++ Strings.repeat LF k else EmptyString)
    ++ len ++ nl ++ chunk ++ after tail.

(** A body whose envelope has two positions only in its first element, a
    body whose envelope is the empty array, and a body with no chunk
    framing at all. *)
Definition short_body : string := guard ++ nl ++ "17" ++ nl ++ bq "[[`wrb.fr`,null]]" ++ nl.
Definition empty_body : string := guard ++ nl ++ "2" ++ nl ++ "[]" ++ nl.
Definition bare_body : string := envelope.

Definition act_on_src1 : ActOnSourcesRequest :=
  {| ActOnSources_SourceIds := ["src1"]; ActOnSources_Action := "do_it" |}.

Definition freeform_hello : GenerateFreeFormStreamedRequest :=
  {| FreeForm_SourceIds := ["src1"; "src2"]; FreeForm_Prompt := "hello" |}.

(** Surroundings with no variable set and no network. *)
Definition offline : Env :=
  {| Getenv := fun _ => EmptyString;
     FindStringSubmatch := fun _ _ => [];
     NewRequest := fun _ => true;
     Do := fun _ => None |}.

(** Surroundings with both override variables set. *)
Definition overridden : Env :=
  {| Getenv := fun name =>
       if String.eqb name "NLM_BUILD_VERSION" then "boq_x"
       else if String.eqb name "NLM_SESSION_ID" then "42"
       else EmptyString;
     FindStringSubmatch := fun _ _ => [];
     NewRequest := fun _ => true;
     Do := fun _ => None |}.

(** Surroundings whose network answers every request with the given status
    and body. *)
Definition answering (status : Z) (body : string) : Env :=
  {| Getenv := fun _ => EmptyString;
     FindStringSubmatch := fun _ _ => [];
     NewRequest := fun _ => true;
     Do := fun _ => Some {| Http.StatusCode := status; Http.Body := Http.Last body Http.EOF |} |}.

(** Surroundings whose root page matches the primary session-id pattern
    and no build-version pattern. *)
Definition sid_only_page : Env :=
  {| Getenv := fun _ => EmptyString;
     FindStringSubmatch := fun re _ =>
       if String.eqb re sidRegex then [bq "`FdrFJe`:`-77`"; "-77"] else [];
     NewRequest := fun _ => true;
     Do := fun _ =>
       Some {| Http.StatusCode := 200;
               Http.Body := Http.Last (bq "<script>`FdrFJe`:`-77`</script>") Http.EOF |} |}.

Definition client : Client := NewClient "token" "SID=abc".

Definition request : Request :=
  {| Endpoint := "/svc/ActOnSources";
     Body := Json.Slice (EncodeActOnSourcesArgs act_on_src1) |}.

(** Two transport calls in a row, one unary and one streaming, both
    answered with the exemplar body. *)
Definition two_calls : list (Env * Process.call) :=
  [(answering 200 exemplar, Process.CallExecute client request);
   (answering 200 exemplar,
    Process.CallStream unit client request (fun _ _ => (tt, None)) tt)].

End Samples.

(** ** The read loop of [Stream], seen from the handler *)
Module Reads.
Import Rpc.

(** The non-empty pieces of data the successive [Read] calls hand over, in
    order: those for which the handler is invoked. *)
Fixpoint chunks (r : Http.reader) : list string :=
  let keep (d : string) (l : list string) :=
    if (0 <? String.length d)%nat then d :: l else l in
  match r with
  | Http.Last d _ => keep d []
  | Http.More d rest => keep d (chunks rest)
  end.

(** How the body ends. *)
Fixpoint ending (r : Http.reader) : Http.read_end :=
  match r with
  | Http.Last _ e => e
  | Http.More _ rest => ending rest
  end.

(** The handler fed with the chunks [cs] one after the other until it
    answers with an error: the chunks it was invoked on, its last state,
    and its error if any. *)
Fixpoint feed {H : Type} (handler : H -> string -> H * option string)
    (cs : list string) (h : H) : list string * H * option string :=
  match cs with
  | [] => ([], h, None)
  | c :: rest =>
      match handler h c with
      | (h', Some cause) => ([c], h', Some cause)
      | (h', None) =>
          let '(seen, h'', res) := feed handler rest h' in (c :: seen, h'', res)
      end
  end.

(** The chunks put end to end. *)
Definition joined (l : list string) : string :=
  fold_right String.append EmptyString l.

(** The state of a handler that never fails, after the chunks [cs]. *)
Definition fed {H : Type} (handler : H -> string -> H * option string)
    (cs : list string) (h : H) : H :=
  fold_left (fun h c => fst (handler h c)) cs h.

(** A handler that appends every chunk to what it has. *)
Definition gather (sofar chunk : string) : string * option string :=
  (sofar ++ chunk, None).

(** The number of requests for the root page among the events. *)
Fixpoint page_gets (t : list event) : nat :=
  match t with
  | [] => O
  | Sent r :: rest =>
      if String.eqb (Http.Method r) "GET" then S (page_gets rest) else page_gets rest
  | Delivered _ :: rest => page_gets rest
  end.

(** The POST requests among the events, oldest first. *)
Fixpoint posts (t : list event) : list Http.Request :=
  match t with
  | [] => []
  | Sent r :: rest =>
      if String.eqb (Http.Method r) "POST" then r :: posts rest else posts rest
  | Delivered _ :: rest => posts rest
  end.

(** The surroundings [env] with every environment variable unset. *)
Definition unset (env : Env) : Env :=
  {| Getenv := fun _ => EmptyString;
     FindStringSubmatch := FindStringSubmatch env;
     NewRequest := NewRequest env;
     Do := Do env |}.

(** Every byte of [s] is a decimal digit. *)
Fixpoint all_digits (s : string) : bool :=
  match s with
  | EmptyString => true
  | String c t => Decode.is_digit c && all_digits t
  end.

(** The number of [ClearAPIParamsCache] calls in a script. *)
Fixpoint clears (script : list (Env * Process.call)) : nat :=
  match script with
  | [] => O
  | (_, Process.CallClearAPIParamsCache) :: rest => S (clears rest)
  | _ :: rest => clears rest
  end.


(** The requests for the page so far are within [n], plus one when the
    cache is filled. *)
Definition gets_within (n : nat) (w : World) : Prop :=
  (page_gets (trace w)
   <= n + match cachedParams w with Some _ => 1 | None => 0 end)%nat.

End Reads.

(** ** Package grpcendpoint: the chat request *)
Module Chat.
Import Json Method Decode.

(** The inner array of [BuildChatRequest]; the source ids are gathered by
    the same loop as in the encoders. *)
Definition innerArray (sourceIDs : list string) (prompt : string) : value :=
  let sourceIDsInner := collect sourceIDs in
  let sourceIDsNested := Slice [Slice [sourceIDsInner]] in
  Slice [sourceIDsNested; Str prompt; Nil; Slice [Int 2; Nil; Slice [Int 1]]].

(** [BuildChatRequest].  The error of [json.Marshal] is dropped; with an
    error the bytes are nil and the string made of them is empty. *)
Definition BuildChatRequest (sourceIDs : list string) (prompt : string) : value :=
  let innerJSON :=
    match Marshal (innerArray sourceIDs prompt) with
    | Some text => text
    | None => EmptyString
    end in
  Slice [Nil; Str innerJSON].

(** The JSON text of a slice of strings gathered by [collect]: [null] for
    none, else the quoted strings between brackets. *)
Definition ids_text (ids : list string) : string :=
  match ids with
  | [] => "null"
  | _ => "[" ++ String.concat "," (map quote ids) ++ "]"
  end.

(** The text expected for the inner array. *)
Definition chat_text (ids : list string) (prompt : string) : string :=
  "[[[" ++ ids_text ids ++ "]]," ++ quote prompt ++ ",null,[2,null,[1]]]".

(** What the decoder makes of the gathered source ids. *)
Definition ids_value (ids : list string) : jvalue :=
  match ids with
  | [] => JNull
  | _ => JArray (map JString ids)
  end.

(** The quoted strings [ids], each after a comma. *)
Definition commas (ids : list string) : string :=
  fold_right (fun sid acc => "," ++ quote sid ++ acc) EmptyString ids.

(** The tokens of the quoted strings [ids], each after a comma. *)
Definition more_tokens (ids : list string) : list token :=
  flat_map (fun sid => [TComma; TString (quote_body false 0 sid)]) ids.

(** The tokens after the source ids: two closing brackets, the prompt and
    the fixed tail. *)
Definition chat_tail_tokens (prompt : string) : list token :=
  [TRBracket; TRBracket; TComma; TString (quote_body false 0 prompt);
   TComma; TWord "null"; TComma; TLBracket; TNumber "2"; TComma;
   TWord "null"; TComma; TLBracket; TNumber "1"; TRBracket; TRBracket;
   TRBracket].

End Chat.

(** ** Package internal/rpc: the batchexecute client and small helpers *)
Module RpcClient.
Import Rpc.

(** A Go [map[string]string], by what a lookup gives. *)
Definition gomap : Type := string -> option string.

Definition empty : gomap := fun _ => None.

(** [m[k] = v]. *)
Definition set (m : gomap) (k v : string) : gomap :=
  fun k' => if String.eqb k' k then Some v else m k'.

(** Modelled from the spec: the types [Config] and [RPC] of the package
    [batchexecute], which is not part of the sources at hand, with the
    fields [rpc.go] sets and reads; its client is taken as the function
    from a call to the data of the response, [None] for an error. *)
Record Config : Type := {
  Host : string;
  App : string;
  AuthToken : string;
  Cookies : string;
  Headers : gomap;
  URLParams : gomap;
  Debug : bool
}.

Record RPC : Type := {
  ID : string;
  Args : Json.value;
  Index : string;
  RPC_URLParams : gomap
}.

(** [rpc.Call]. *)
Record Call : Type := {
  Call_ID : string;
  Call_Args : Json.value;
  NotebookID : string
}.

(** [rpc.Client]. *)
Record Client : Type := {
  Client_Config : Config;
  client : RPC -> option string
}.

Definition RPCListRecentlyViewedProjects : string := "wXbhsf".

(** [New].  [newClient] stands for [batchexecute.NewClient] with the
    options given. *)
Definition New (newClient : Config -> RPC -> option string) (env : Env)
    (authToken cookies : string) (w : World) : outcome unit Client * World :=
  let (p, w) := GetAPIParams env cookies w in
  match load p w with
  | None => (Panic, w)
  | Some params =>
      let config :=
        {| Host := "notebooklm.google.com";
           App := "LabsTailwindUi";
           AuthToken := authToken;
           Cookies := cookies;
           Headers :=
             set (set (set (set (set (set (set (set empty
               "content-type" "application/x-www-form-urlencoded;charset=UTF-8")
               "origin" "https://notebooklm.google.com")
               "referer" "https://notebooklm.google.com/")
               "x-same-domain" "1")
               "accept" "*/*")
               "accept-language" "en-US,en;q=0.9")
               "cache-control" "no-cache")
               "pragma" "no-cache";
           URLParams :=
             set (set (set empty "bl" (BuildVersion params))
                      "f.sid" (SessionID params))
                 "hl" "en";
           Debug := false |} in
      (Ok {| Client_Config := config; client := newClient config |}, w)
  end.

(** The call [Do] hands to the batchexecute client: the URL parameters of
    the configuration copied into a new map, then [source-path] set. *)
Definition request_of (c : Client) (call : Call) : RPC :=
  let urlParams : gomap := fun k => URLParams (Client_Config c) k in
  let urlParams :=
    if negb (is_empty (NotebookID call))
    then set urlParams "source-path" ("/notebook/" ++ NotebookID call)
    else set urlParams "source-path" "/" in
  {| ID := Call_ID call;
     Args := Call_Args call;
     Index := "generic";
     RPC_URLParams := urlParams |}.

(** The errors of this client. *)
Inductive error : Type :=
| ExecuteRpcError
| NotImplemented.

(** [Client.Do]; the debug dumps write to the standard output only. *)
Definition Do (c : Client) (call : Call) : outcome error string :=
  match client c (request_of c call) with
  | None => Err ExecuteRpcError
  | Some data => Ok data
  end.

(** [ListNotebooks], [CreateNotebook], [DeleteNotebook], [Heartbeat]. *)
Definition ListNotebooks (c : Client) : outcome error string :=
  Do c {| Call_ID := RPCListRecentlyViewedProjects;
          Call_Args := Json.NilSlice;
          NotebookID := EmptyString |}.

Definition CreateNotebook (c : Client) (title : string) : outcome error string :=
  Err NotImplemented.

Definition DeleteNotebook (c : Client) (id : string) : outcome error unit :=
  Err NotImplemented.

Definition Heartbeat (c : Client) : outcome error unit := Ok tt.

(** [strings.Contains]. *)
Fixpoint Contains (s substr : string) : bool :=
  Strings.HasPrefix s substr
  || match s with
     | EmptyString => false
     | String _ t => Contains t substr
     end.

(** [isNotebookLMPage]. *)
Definition isNotebookLMPage (html : string) : bool :=
  Contains html "notebooklm" || Contains html "LabsTailwind".

(** [min], as declared in both packages. *)
Definition min (a b : Z) : Z := if a <? b then a else b.

(** The slice expression [s[:n]]: a panic when [n] is negative or beyond
    the length. *)
Definition slice_to (s : string) (n : Z) : outcome unit string :=
  if (n <? 0) || (Z.of_nat (String.length s) <? n) then Panic
  else Ok (String.substring 0 (Z.to_nat n) s).

(** The excerpt of the extracted data that [Execute] prints in debug
    mode, and that of the build version that [fetchAPIParamsFromPage]
    prints. *)
Definition data_excerpt (dataStr : string) : outcome unit string :=
  slice_to dataStr (min 300 (Z.of_nat (String.length dataStr))).

Definition version_excerpt (buildVersion : string) : outcome unit string :=
  slice_to buildVersion (min 50 (Z.of_nat (String.length buildVersion))).

End RpcClient.

(** ** Package internal/auth, Linux build: finding the browser *)
Module AuthLinux.

(** Modelled from the spec: the type [Browser] and the constants
    [BrowserUnknown] and [BrowserChrome], declared in a file of the package
    that is not part of the sources at hand, with the fields this file
    sets. *)
Inductive BrowserType : Type := BrowserUnknown | BrowserChrome.

Record Browser : Type := {
  Type_ : BrowserType;
  Path : string;
  Name : string;
  Version : string
}.

(** The machine: [exec.LookPath] ([None] for an error), the output of
    [path --version] ([None] when the command fails), and the library
    function [strings.TrimSpace]. *)
Record Machine : Type := {
  LookPath : string -> option string;
  Output : string -> option string;
  TrimSpace : string -> string
}.

(** [getChromeVersion]. *)
Definition getChromeVersion (m : Machine) (path : string) : string :=
  match Output m path with
  | None => "unknown"
  | Some out => TrimSpace m out
  end.

(** [detectChrome]; the flag [debug] is not used. *)
Definition detectChrome (m : Machine) (debug : bool) : Browser :=
  match LookPath m "google-chrome" with
  | Some path =>
      {| Type_ := BrowserChrome; Path := path; Name := "Google Chrome";
         Version := getChromeVersion m path |}
  | None =>
      match LookPath m "chromium" with
      | Some path =>
          {| Type_ := BrowserChrome; Path := path; Name := "Chromium";
             Version := getChromeVersion m path |}
      | None =>
          {| Type_ := BrowserUnknown; Path := EmptyString; Name := EmptyString;
             Version := EmptyString |}
      end
  end.

(** The loop [for _, name := range names { if path, err := LookPath(name);
    err == nil { return path } }]: the path returned from inside it, if
    any. *)
Fixpoint first_found (m : Machine) (names : list string) : option string :=
  match names with
  | [] => None
  | name :: rest =>
      match LookPath m name with
      | Some path => Some path
      | None => first_found m rest
      end
  end.

(** [getChromePath]. *)
Definition getChromePath (m : Machine) : string :=
  match first_found m ["google-chrome"; "chrome"; "chromium"] with
  | Some path => path
  | None => EmptyString
  end.

(** [getBrowserPathForProfile]. *)
Definition getBrowserPathForProfile (m : Machine) (browserName : string) : string :=
  if String.eqb browserName "Brave" then
    match first_found m ["brave-browser"; "brave"] with
    | Some path => path
    | None => getChromePath m
    end
  else if String.eqb browserName "Chrome Canary" then getChromePath m
  else getChromePath m.

End AuthLinux.

(** ** More sample inputs *)
Module Cases.
Import Rpc Grpcendpoint Samples.

(** A body that arrives in three reads, the second one empty. *)
Definition in_pieces : Http.reader :=
  Http.More ")]}'" (Http.More EmptyString (Http.Last (nl ++ "31" ++ nl ++ envelope ++ nl) Http.EOF)).

(** Surroundings whose network answers every request with status 200 and
    the body [in_pieces]. *)
Definition piecewise : Env :=
  {| Getenv := fun _ => EmptyString;
     FindStringSubmatch := fun _ _ => [];
     NewRequest := fun _ => true;
     Do := fun _ => Some {| Http.StatusCode := 200; Http.Body := in_pieces |} |}.

(** Surroundings with the build-version override alone, and no network. *)
Definition half_overridden : Env :=
  {| Getenv := fun name =>
       if String.eqb name "NLM_BUILD_VERSION" then "boq_x" else EmptyString;
     FindStringSubmatch := fun _ _ => [];
     NewRequest := fun _ => true;
     Do := fun _ => None |}.

(** A machine where [chrome] is the one browser on the path. *)
Definition chrome_only : AuthLinux.Machine :=
  {| AuthLinux.LookPath := fun name =>
       if String.eqb name "chrome" then Some "/usr/bin/chrome" else None;
     AuthLinux.Output := fun _ => None;
     AuthLinux.TrimSpace := fun s => s |}.

(** A request whose body [json.Marshal] rejects. *)
Definition unencodable : Request :=
  {| Endpoint := "/svc/ActOnSources"; Body := Json.Slice [Json.Unsupported] |}.

(** A handler that counts its invocations and refuses the second chunk. *)
Definition refuse_second (seen : nat) (chunk : string) : nat * option string :=
  (S seen, if Nat.eqb seen 1 then Some "enough" else None).

End Cases.

(** * Properties *)

Import Strings Json Decode Method Rpc Grpcendpoint Process Samples.

(** ** Package strings *)

Lemma HasPrefix_app (p s : string) : HasPrefix (p ++ s) p = true.
Proof.
  induction p as [|c p IH]; simpl; [reflexivity|].
  now rewrite Ascii.eqb_refl, IH.
Qed.

Lemma drop_app (p s : string) : drop (String.length p) (p ++ s) = s.
Proof. induction p as [|c p IH]; simpl; auto. Qed.

Lemma TrimPrefix_app (p s : string) : TrimPrefix (p ++ s) p = s.
Proof. unfold TrimPrefix. now rewrite HasPrefix_app, drop_app. Qed.

Lemma trimLeftByte_repeat (c : ascii) (k : nat) (s : string) :
  not_headed c s = true -> trimLeftByte (repeat c k ++ s) c = s.
Proof.
  intros Hs. induction k as [|k IH]; simpl.
  - destruct s as [|a t]; simpl in *; [reflexivity|].
    destruct (Ascii.eqb a c); [discriminate|reflexivity].
  - now rewrite Ascii.eqb_refl.
Qed.

Lemma cut_free (sep : ascii) (s : string) :
  free_of sep s = true -> cut s sep = None.
Proof.
  induction s as [|a t IH]; simpl; [reflexivity|].
  destruct (Ascii.eqb a sep); simpl; [discriminate|].
  intros H. now rewrite IH.
Qed.

Lemma cut_at (sep : ascii) (l r : string) :
  free_of sep l = true -> cut (l ++ String sep r) sep = Some (l, r).
Proof.
  induction l as [|a t IH]; simpl.
  - now rewrite Ascii.eqb_refl.
  - destruct (Ascii.eqb a sep); simpl; [discriminate|].
    intros H. now rewrite IH.
Qed.

Lemma app_assoc_s (a b c : string) : (a ++ b) ++ c = a ++ b ++ c.
Proof. induction a as [|x a IH]; simpl; congruence. Qed.

Lemma free_of_head (c : ascii) (s t : string) :
  free_of c s = true -> s <> EmptyString -> not_headed c (s ++ t) = true.
Proof.
  destruct s as [|a s']; simpl; [congruence|].
  destruct (Ascii.eqb a c); simpl; [discriminate|reflexivity].
Qed.

Lemma HasPrefix_app_free (c : ascii) (p s t : string) :
  free_of c p = true -> free_of c s = true ->
  HasPrefix (s ++ String c t) p = HasPrefix s p.
Proof.
  revert s. induction p as [|b p IH]; intros s Hp Hs; [now destruct s|].
  simpl in Hp. apply andb_prop in Hp as [Hb Hp].
  destruct s as [|a s']; simpl.
  - rewrite Ascii.eqb_sym. now destruct (Ascii.eqb b c).
  - simpl in Hs. apply andb_prop in Hs as [_ Hs]. now rewrite IH.
Qed.

Lemma append_empty_r (s : string) : s ++ EmptyString = s.
Proof. induction s as [|a s IH]; simpl; congruence. Qed.

Lemma SplitN_no_sep (sep : ascii) (s : string) (n : nat) :
  free_of sep s = true -> SplitN s sep (S n) = [s].
Proof.
  intros H. destruct n as [|n]; simpl; [reflexivity|].
  now rewrite (cut_free _ _ H).
Qed.

Lemma SplitN_two_fields (sep : ascii) (l1 l2 : string) :
  free_of sep l1 = true -> free_of sep l2 = true ->
  SplitN (l1 ++ String sep l2) sep 3 = [l1; l2].
Proof.
  intros H1 H2. cbn [SplitN]. rewrite (cut_at _ _ _ H1).
  now rewrite (cut_free _ _ H2).
Qed.

Lemma SplitN_three_fields (sep : ascii) (l1 l2 rest : string) :
  free_of sep l1 = true -> free_of sep l2 = true ->
  SplitN (l1 ++ String sep (l2 ++ String sep rest)) sep 3 = [l1; l2; rest].
Proof.
  intros H1 H2. cbn [SplitN]. rewrite (cut_at _ _ _ H1).
  now rewrite (cut_at _ _ _ H2).
Qed.

(** ** The decoder on printed strings *)

Lemma snoc_app (raw e : string) (c : ascii) :
  snoc raw c ++ e = raw ++ String c e.
Proof. unfold snoc. now rewrite app_assoc_s. Qed.

Lemma lex_app (a b : string) :
  forall (m : mode) (acc : list token),
    lex m acc (a ++ b)
    = match lex_run m acc a with
      | Some (m', acc') => lex m' acc' b
      | None => None
      end.
Proof.
  induction a as [|c t IH]; intros m acc; cbn [lex lex_run String.append].
  - reflexivity.
  - destruct (lex_step m acc c) as [[m' acc']|]; [apply IH|reflexivity].
Qed.

Lemma lex_run_scan_str (e : string) :
  forall (esc esc' : bool) (raw : string) (acc : list token),
    scan_str esc e = Some esc' ->
    lex_run (if esc then MEsc raw else MStr raw) acc e
    = Some (if esc' then MEsc (raw ++ e) else MStr (raw ++ e), acc).
Proof.
  induction e as [|c t IH]; intros esc esc' raw acc H; cbn [scan_str] in H.
  - injection H as <-. cbn [lex_run]. now rewrite append_empty_r.
  - cbn [lex_run]. destruct esc; cbn [lex_step].
    + rewrite (IH false esc' (snoc raw c) acc H). now rewrite snoc_app.
    + destruct (Ascii.eqb c DQ); [discriminate|].
      destruct (Ascii.eqb c "\").
      * rewrite (IH true esc' (snoc raw c) acc H). now rewrite snoc_app.
      * destruct (Utf8.byte_in 0 31 c); [discriminate|].
        rewrite (IH false esc' (snoc raw c) acc H). now rewrite snoc_app.
Qed.

Lemma scan_str_app (a b : string) (esc m : bool) :
  scan_str esc a = Some m -> scan_str esc (a ++ b) = scan_str m b.
Proof.
  revert esc. induction a as [|c t IH]; intros esc H; cbn [scan_str String.append] in *.
  - now injection H as <-.
  - destruct esc; [now apply IH|].
    destruct (Ascii.eqb c DQ); [discriminate|].
    destruct (Ascii.eqb c "\"); [now apply IH|].
    destruct (Utf8.byte_in 0 31 c); [discriminate|now apply IH].
Qed.

Lemma free_of_app (c : ascii) (a b : string) :
  free_of c (a ++ b) = free_of c a && free_of c b.
Proof.
  induction a as [|x a IH]; cbn [free_of String.append]; [reflexivity|].
  rewrite IH. now rewrite andb_assoc.
Qed.

(** What [json.Marshal] writes for a byte below [0x80] holds no line feed,
    can stand inside a string token, and is read back as that byte. *)
Lemma escape_inverse (c : ascii) :
  Utf8.byte_in 0 127 c = true ->
  scan_str false (escape c) = Some false
  /\ free_of LF (escape c) = true
  /\ forall X, unquote false 0 (escape c ++ X) = option_map (String c) (unquote false 0 X).
Proof.
  destruct c as [[] [] [] [] [] [] [] []]; intros H; try discriminate H;
    (split; [reflexivity|split; [reflexivity|]]);
    intros X; cbn; destruct (unquote false 0 X); reflexivity.
Qed.

Lemma quote_body_inverse (s : string) :
  Utf8.ascii_only s = true ->
  scan_str false (quote_body false 0 s) = Some false
  /\ free_of LF (quote_body false 0 s) = true
  /\ string_value (quote_body false 0 s) = Some s.
Proof.
  unfold string_value.
  induction s as [|c t IH]; cbn [Utf8.ascii_only quote_body]; [now repeat split|].
  intros H. apply andb_prop in H as [Hc Ht]. rewrite Hc.
  destruct (escape_inverse c Hc) as [Hs [Hf Hu]].
  destruct (IH Ht) as [IHs [IHf IHu]].
  split; [|split].
  - now rewrite (scan_str_app _ _ false false Hs).
  - now rewrite free_of_app, Hf.
  - now rewrite Hu, IHu.
Qed.

Lemma lex_open_quote (acc : list token) (Y : string) :
  lex MTop acc (String DQ Y) = lex (MStr EmptyString) acc Y.
Proof. reflexivity. Qed.

Lemma lex_close_quote (raw : string) (acc : list token) (Y : string) :
  lex (MStr raw) acc (String DQ Y) = lex MTop (TString raw :: acc) Y.
Proof. reflexivity. Qed.

Lemma lex_quote (s : string) (acc : list token) (X : string) :
  Utf8.ascii_only s = true ->
  lex MTop acc (quote s ++ X) = lex MTop (TString (quote_body false 0 s) :: acc) X.
Proof.
  intros H. unfold quote. cbn [String.append]. rewrite app_assoc_s.
  rewrite lex_open_quote, lex_app.
  destruct (quote_body_inverse s H) as [Hs _].
  rewrite (lex_run_scan_str _ false false EmptyString acc Hs).
  cbn [String.append]. apply lex_close_quote.
Qed.

Lemma Unmarshal_wrb_envelope (s : string) :
  Utf8.ascii_only s = true ->
  Unmarshal (wrb_envelope s)
  = Some [[JString "wrb.fr"; JNull; JString s; JNull; JNull; JNull]].
Proof.
  intros H. unfold Unmarshal, decode, wrb_envelope.
  change ("[[" ++ quote "wrb.fr" ++ ",null," ++ quote s ++ ",null,null,null]]")
    with (bq "[[`wrb.fr`,null," ++ (quote s ++ ",null,null,null]]")).
  rewrite lex_app.
  replace (lex_run MTop [] (bq "[[`wrb.fr`,null,"))
    with (Some (MTop, [TComma; TWord "null"; TComma; TString "wrb.fr";
                       TLBracket; TLBracket]))
    by (vm_compute; reflexivity).
  rewrite (lex_quote s _ _ H).
  destruct (quote_body_inverse s H) as [_ [_ Hu]].
  replace (lex MTop
             [TString (quote_body false 0 s); TComma; TWord "null"; TComma;
              TString "wrb.fr"; TLBracket; TLBracket] ",null,null,null]]")
    with (Some [TLBracket; TLBracket; TString "wrb.fr"; TComma; TWord "null";
                TComma; TString (quote_body false 0 s); TComma; TWord "null";
                TComma; TWord "null"; TComma; TWord "null"; TRBracket; TRBracket]).
  2:{ symmetry. generalize (quote_body false 0 s). intros q. vm_compute. reflexivity. }
  cbn [Decode.run step begin_value].
  replace (string_value "wrb.fr") with (Some "wrb.fr") by (vm_compute; reflexivity).
  cbn [option_map close Decode.run step begin_value List.length Z.of_nat].
  replace (Z.of_nat 0 <? maxNestingDepth) with true by reflexivity.
  cbn. rewrite Hu. reflexivity.
Qed.

(** ** The unary unframe path *)

Lemma strip_guard_guarded (k : nat) (s : string) :
  not_headed LF s = true -> strip_guard (guard ++ repeat LF k ++ s) = s.
Proof.
  intros H. unfold strip_guard.
  rewrite HasPrefix_app, TrimPrefix_app. now apply trimLeftByte_repeat.
Qed.

Lemma strip_guard_plain (s : string) :
  HasPrefix s guard = false -> strip_guard s = s.
Proof. intros H. unfold strip_guard. now rewrite H. Qed.

Lemma strip_guard_framed (guarded : bool) (k : nat) (len chunk : string)
    (tail : option string) :
  free_of LF len = true ->
  (if guarded then negb (Rpc.is_empty len) else negb (HasPrefix len guard)) = true ->
  strip_guard (framed guarded k len chunk tail) = len ++ nl ++ chunk ++ after tail.
Proof.
  intros Hlen Hg. unfold framed. destruct guarded.
  - rewrite app_assoc_s. apply strip_guard_guarded.
    apply free_of_head; [assumption|].
    intros ->. discriminate.
  - cbn [String.append]. apply strip_guard_plain.
    unfold nl. cbn [String.append].
    rewrite (HasPrefix_app_free LF guard len _ eq_refl Hlen).
    now destruct (HasPrefix len guard).
Qed.

Lemma first_chunk_framed (len chunk : string) (tail : option string) :
  free_of LF len = true -> free_of LF chunk = true ->
  first_chunk (len ++ nl ++ chunk ++ after tail) = Ok chunk.
Proof.
  intros Hlen Hchunk. unfold first_chunk, nl. cbn [String.append].
  destruct tail as [rest|]; unfold after, nl; cbn [String.append].
  - now rewrite (SplitN_three_fields _ _ _ _ Hlen Hchunk).
  - rewrite append_empty_r. now rewrite (SplitN_two_fields _ _ _ Hlen Hchunk).
Qed.

Lemma first_chunk_unframed (s : string) :
  free_of LF s = true -> first_chunk s = Ok s.
Proof.
  intros H. unfold first_chunk. now rewrite (SplitN_no_sep _ _ 2 H).
Qed.

Lemma payload_string (text s : string) (a b : jvalue) (tl : list jvalue)
    (more : list (list jvalue)) :
  Unmarshal text = Some ((a :: b :: JString s :: tl) :: more) ->
  payload text = Ok s.
Proof. intros H. unfold payload. now rewrite H. Qed.

Lemma payload_not_string (text : string) (a b x : jvalue) (tl : list jvalue)
    (more : list (list jvalue)) :
  Unmarshal text = Some ((a :: b :: x :: tl) :: more) ->
  is_JString x = false ->
  payload text = Err DataTypeError.
Proof. intros H Hx. unfold payload. rewrite H. now destruct x. Qed.

Lemma unframe_framed (guarded : bool) (k : nat) (len chunk : string)
    (tail : option string) :
  free_of LF len = true -> free_of LF chunk = true ->
  (if guarded then negb (Rpc.is_empty len) else negb (HasPrefix len guard)) = true ->
  unframe (framed guarded k len chunk tail) = payload chunk.
Proof.
  intros Hlen Hchunk Hg. unfold unframe.
  rewrite (strip_guard_framed _ _ _ _ _ Hlen Hg).
  now rewrite (first_chunk_framed _ _ _ Hlen Hchunk).
Qed.

Lemma wrb_envelope_free (s : string) :
  Utf8.ascii_only s = true -> free_of LF (wrb_envelope s) = true.
Proof.
  intros H. destruct (quote_body_inverse s H) as [_ [Hf _]].
  unfold wrb_envelope, quote.
  rewrite !free_of_app. cbn [free_of]. rewrite !free_of_app, Hf. reflexivity.
Qed.

Lemma unframe_wrb_envelope (guarded : bool) (k : nat) (len s : string)
    (tail : option string) :
  Utf8.ascii_only s = true ->
  free_of LF len = true ->
  (if guarded then negb (Rpc.is_empty len) else negb (HasPrefix len guard)) = true ->
  unframe (framed guarded k len (wrb_envelope s) tail) = Ok s.
Proof.
  intros Hs Hlen Hg.
  rewrite (unframe_framed _ _ _ _ _ Hlen (wrb_envelope_free s Hs) Hg).
  apply payload_string with (JString "wrb.fr") JNull [JNull; JNull; JNull] [].
  now apply Unmarshal_wrb_envelope.
Qed.

(** The envelope of the exemplar is the one written around its payload. *)
Example wrb_envelope_exemplar : wrb_envelope payload_a1 = envelope.
Proof. vm_compute. reflexivity. Qed.

(** C1.  Take a response body made of, optionally, the guard [)]}'] and any
    number of line feeds, then a first field, a line feed, the chunk, and
    either nothing or a line feed and further text (the first field and the
    chunk hold no line feed; after a guard the first field is not empty,
    without a guard it does not itself begin with the guard).  If the chunk
    parses as an array of arrays whose first element holds a string at
    index 2, the unary unframe path returns that string; if it holds
    something else there, the result is the data type error.  In
    particular, when the chunk is the envelope that [json.Marshal] writes
    around a payload of bytes below [0x80], the result is that payload,
    byte for byte.  On the exemplar body the result is the payload
    [payload_a1], the seven bytes of the object with the one member [a] of
    value 1. *)
Theorem unframe_returns_payload :
  (forall (guarded : bool) (k : nat) (len chunk : string) (tail : option string)
          (a b x : jvalue) (tl : list jvalue) (more : list (list jvalue)),
      free_of LF len = true ->
      free_of LF chunk = true ->
      (if guarded then negb (Rpc.is_empty len) else negb (HasPrefix len guard)) = true ->
      Unmarshal chunk = Some ((a :: b :: x :: tl) :: more) ->
      unframe (framed guarded k len chunk tail) =
        match x with
        | JString s => Ok s
        | _ => Err DataTypeError
        end)
  /\ (forall (guarded : bool) (k : nat) (len s : string) (tail : option string),
        Utf8.ascii_only s = true ->
        free_of LF len = true ->
        (if guarded then negb (Rpc.is_empty len) else negb (HasPrefix len guard)) = true ->
        unframe (framed guarded k len (wrb_envelope s) tail) = Ok s)
  /\ unframe exemplar = Ok payload_a1.
Proof.
  split; [|split].
  - intros guarded k len chunk tail a b x tl more Hlen Hchunk Hg Hparse.
    rewrite (unframe_framed _ _ _ _ _ Hlen Hchunk Hg).
    destruct (is_JString x) eqn:Hx.
    + destruct x; try discriminate. now apply payload_string with a b tl more.
    + rewrite (payload_not_string _ _ _ _ _ _ Hparse Hx). now destruct x.
  - intros guarded k len s tail. apply unframe_wrb_envelope.
  - vm_compute. reflexivity.
Qed.

Lemma unframe_returns_payload_witness :
  free_of LF "31" = true
  /\ free_of LF envelope = true
  /\ negb (Rpc.is_empty "31") = true
  /\ Unmarshal envelope =
       Some ([JString "wrb.fr"; JNull; JString payload_a1; JNull; JNull; JNull] :: [])
  /\ unframe (framed true 1 "31" envelope (Some EmptyString)) = Ok payload_a1.
Proof.
  do 4 (split; [vm_compute; reflexivity|]).
  apply (proj1 unframe_returns_payload true 1%nat "31" envelope (Some EmptyString)
           (JString "wrb.fr") JNull (JString payload_a1) [JNull; JNull; JNull] []);
    vm_compute; reflexivity.
Defined.

Lemma first_chunk_total (s : string) : exists text, first_chunk s = Ok text.
Proof.
  unfold first_chunk.
  destruct (SplitN s LF 3) as [|l0 [|l1 ls]]; cbn; eauto.
Qed.

Lemma payload_no_panic (text : string) : payload text <> Panic.
Proof.
  unfold payload. destruct (Unmarshal text) as [outer|]; [|discriminate].
  destruct outer as [|first rest]; cbn; [discriminate|].
  destruct first as [|a [|b [|x tl]]]; cbn; try discriminate.
  destruct x; discriminate.
Qed.

Lemma payload_short (text : string) (outer : list (list jvalue)) :
  Unmarshal text = Some outer ->
  (List.length outer = 0 \/ List.length (hd [] outer) < 3)%nat ->
  payload text = Err FormatError.
Proof.
  intros H Hshort. unfold payload. rewrite H.
  destruct outer as [|first rest]; cbn; [reflexivity|].
  destruct Hshort as [Hlen|Hlen]; cbn in Hlen; [discriminate|].
  destruct first as [|a [|b [|x tl]]]; cbn in *; try reflexivity; lia.
Qed.

(** C5.  Whenever the text handed to the JSON decoder parses to an outer
    array that is empty or whose first element has fewer than three
    positions, the unary unframe path returns the format error as a value;
    and on no body at all does it panic. *)
Theorem unframe_shape_error :
  (forall (body text : string) (outer : list (list jvalue)),
      first_chunk (strip_guard body) = Ok text ->
      Unmarshal text = Some outer ->
      (List.length outer = 0 \/ List.length (hd [] outer) < 3)%nat ->
      unframe body = Err FormatError)
  /\ (forall body : string, unframe body <> Panic).
Proof.
  split.
  - intros body text outer Htext Hparse Hshort.
    unfold unframe. rewrite Htext. cbn [bind].
    now apply payload_short with outer.
  - intros body. unfold unframe.
    destruct (first_chunk_total (strip_guard body)) as [text ->].
    cbn [bind]. apply payload_no_panic.
Qed.

Lemma unframe_shape_error_witness :
  first_chunk (strip_guard short_body) = Ok (bq "[[`wrb.fr`,null]]")
  /\ Unmarshal (bq "[[`wrb.fr`,null]]") = Some [[JString "wrb.fr"; JNull]]
  /\ (List.length [[JString "wrb.fr"; JNull]] = 0
      \/ List.length (hd [] [[JString "wrb.fr"; JNull]]) < 3)%nat
  /\ unframe short_body = Err FormatError.
Proof.
  split; [vm_compute; reflexivity|].
  split; [vm_compute; reflexivity|].
  split; [right; cbn; lia|].
  apply (proj1 unframe_shape_error short_body (bq "[[`wrb.fr`,null]]")
           [[JString "wrb.fr"; JNull]]).
  - vm_compute. reflexivity.
  - vm_compute. reflexivity.
  - right. cbn. lia.
Defined.

(** The same on an envelope that is the empty array. *)
Example unframe_empty_envelope : unframe empty_body = Err FormatError.
Proof. vm_compute. reflexivity. Qed.

(** C10.  If the body, once a leading guard and the line feeds after it are
    dropped, holds no line feed, then the whole remaining text is what the
    unary unframe path parses as the envelope: the result is that of
    [payload] on it, so a bare envelope with a string at index 2 of its
    first element yields that string. *)
Theorem unframe_unchunked :
  forall (body : string),
    free_of LF (strip_guard body) = true ->
    unframe body = payload (strip_guard body)
    /\ forall (a b : jvalue) (s : string) (tl : list jvalue) (more : list (list jvalue)),
         Unmarshal (strip_guard body) = Some ((a :: b :: JString s :: tl) :: more) ->
         unframe body = Ok s.
Proof.
  intros body Hfree.
  assert (Hu : unframe body = payload (strip_guard body)).
  { unfold unframe. now rewrite (first_chunk_unframed _ Hfree). }
  split; [exact Hu|].
  intros a b s tl more Hparse. rewrite Hu.
  now apply payload_string with a b tl more.
Qed.

Lemma unframe_unchunked_witness :
  free_of LF (strip_guard bare_body) = true
  /\ Unmarshal (strip_guard bare_body) =
       Some ([JString "wrb.fr"; JNull; JString payload_a1; JNull; JNull; JNull] :: [])
  /\ unframe bare_body = Ok payload_a1.
Proof.
  split; [vm_compute; reflexivity|].
  split; [vm_compute; reflexivity|].
  apply (proj2 (unframe_unchunked bare_body ltac:(vm_compute; reflexivity))
           (JString "wrb.fr") JNull payload_a1 [JNull; JNull; JNull] []).
  vm_compute. reflexivity.
Defined.

(** ** The argument encoders *)

Lemma collect_from (l : list value) (ids : list string) :
  fold_left (fun inner sid => Json.append inner (Str sid)) ids (Slice l)
  = Slice (l ++ map Str ids).
Proof.
  revert l. induction ids as [|sid ids IH]; intros l; cbn.
  - now rewrite app_nil_r.
  - rewrite IH. now rewrite <- app_assoc.
Qed.

Lemma collect_cons (sid : string) (ids : list string) :
  collect (sid :: ids) = Slice (map Str (sid :: ids)).
Proof. unfold collect. cbn. now rewrite collect_from. Qed.

Lemma collect_elems (ids : list string) : elems (collect ids) = Some (map Str ids).
Proof.
  destruct ids as [|sid ids]; [reflexivity|]. now rewrite collect_cons.
Qed.

(** C2.  For every list of source identifiers and every action, the
    act-on-sources encoder returns eight slots: slot 0 is a slice holding a
    slice holding the slice of the source identifiers in order, slots 1 to
    4 are nil, slot 5 is the triple of the action, of a slice holding the
    pair of the marker [CONTEXT] in brackets and the empty string, and of
    the empty string, slot 6 is nil, slot 7 is [2, nil, [1]].  For the one
    identifier [src1] and the action [do_it] the result is written by
    [json.Marshal] as the text below, where a backquote stands for a
    double quote. *)
Theorem EncodeActOnSourcesArgs_slots :
  (forall (ids : list string) (action : string),
      exists inner : value,
        EncodeActOnSourcesArgs
          {| ActOnSources_SourceIds := ids; ActOnSources_Action := action |}
        = [Slice [Slice [inner]]; Nil; Nil; Nil; Nil;
           Slice [Str action; Slice [Slice [Str "[CONTEXT]"; Str EmptyString]];
                  Str EmptyString];
           Nil;
           Slice [Int 2; Nil; Slice [Int 1]]]
        /\ elems inner = Some (map Str ids))
  /\ Marshal (Slice (EncodeActOnSourcesArgs act_on_src1))
     = Some (bq "[[[[`src1`]]],null,null,null,null,[`do_it`,[[`[CONTEXT]`,``]],``],null,[2,null,[1]]]").
Proof.
  split.
  - intros ids action. exists (collect ids). split.
    + reflexivity.
    + apply collect_elems.
  - vm_compute. reflexivity.
Qed.

(** C3.  For every list of source identifiers and every prompt, the
    generate-freeform-streamed encoder returns eight slots: slot 0 is a
    slice holding the slice of the source identifiers in order, slot 1 is
    the prompt, slots 2 to 6 are nil, slot 7 is [2, nil, [1]].  For the
    identifiers [src1], [src2] and the prompt [hello] the result is written
    by [json.Marshal] as the text below, where a backquote stands for a
    double quote. *)
Theorem EncodeGenerateFreeFormStreamedArgs_slots :
  (forall (ids : list string) (prompt : string),
      exists inner : value,
        EncodeGenerateFreeFormStreamedArgs
          {| FreeForm_SourceIds := ids; FreeForm_Prompt := prompt |}
        = [Slice [inner]; Str prompt; Nil; Nil; Nil; Nil; Nil;
           Slice [Int 2; Nil; Slice [Int 1]]]
        /\ elems inner = Some (map Str ids))
  /\ Marshal (Slice (EncodeGenerateFreeFormStreamedArgs freeform_hello))
     = Some (bq "[[[`src1`,`src2`]],`hello`,null,null,null,null,null,[2,null,[1]]]").
Proof.
  split.
  - intros ids prompt. exists (collect ids). split.
    + reflexivity.
    + apply collect_elems.
  - vm_compute. reflexivity.
Qed.

(** With no source identifier the innermost slice is the nil slice, which
    [json.Marshal] writes as [null]. *)
Example EncodeActOnSourcesArgs_no_sources :
  Marshal (Slice (EncodeActOnSourcesArgs
                    {| ActOnSources_SourceIds := []; ActOnSources_Action := "do_it" |}))
  = Some (bq "[[[null]],null,null,null,null,[`do_it`,[[`[CONTEXT]`,``]],``],null,[2,null,[1]]]").
Proof. vm_compute. reflexivity. Qed.

(** With one source identifier at least the innermost slice is written as
    an array. *)
Lemma collect_nonempty_is_array (sid : string) (ids : list string) :
  exists text, Marshal (collect (sid :: ids)) = Some ("[" ++ text ++ "]").
Proof.
  rewrite collect_cons. generalize (sid :: ids). intros l.
  cbn [Marshal].
  assert (H : exists ts,
             (fix items (l : list value) : option (list string) :=
                match l with
                | [] => Some []
                | x :: r =>
                    match Marshal x, items r with
                    | Some a, Some b => Some (a :: b)
                    | _, _ => None
                    end
                end) (map Str l) = Some ts).
  { induction l as [|x l [ts IH]]; cbn; [eauto|].
    rewrite IH. eauto. }
  destruct H as [ts ->]. eauto.
Qed.

(** ** The session parameters *)

Lemma is_empty_true (s : string) : is_empty s = true <-> s = EmptyString.
Proof. unfold is_empty. apply String.eqb_eq. Qed.

Lemma is_empty_false (s : string) : is_empty s = false <-> s <> EmptyString.
Proof. unfold is_empty. apply String.eqb_neq. Qed.

Lemma GetAPIParams_cached (env : Env) (cookies : string) (w : World) (p : ptr) :
  cachedParams w = Some p -> GetAPIParams env cookies w = (p, w).
Proof. intros H. unfold GetAPIParams. now rewrite H. Qed.

(** On an empty cache [GetAPIParams] follows the resolution order: it
    allocates the resolved struct, caches it and returns its address. *)
Lemma GetAPIParams_resolves (env : Env) (cookies : string) (w : World) :
  cachedParams w = None ->
  GetAPIParams env cookies w
  = (List.length (heap w),
     cached_with (fst (resolution env cookies)) (snd (resolution env cookies)) w).
Proof.
  intros Hc. unfold GetAPIParams, resolution. rewrite Hc.
  destruct (negb (is_empty (Getenv env "NLM_BUILD_VERSION"))
            && negb (is_empty (Getenv env "NLM_SESSION_ID"))).
  { cbn. unfold cached_with. now rewrite app_nil_r. }
  destruct (is_empty cookies); cbn [negb].
  { cbn. unfold cached_with. now rewrite app_nil_r. }
  unfold fetchAPIParamsFromPage.
  destruct (NewRequest env (pageRequest cookies)); cbn [negb].
  2:{ cbn. unfold cached_with. now rewrite app_nil_r. }
  destruct (page_text env cookies) as [html|]; [|reflexivity].
  unfold extract.
  destruct (negb (is_empty (found env blRegex blAltRegex html))
            || negb (is_empty (found env sidRegex sidAltRegex html))) eqn:Hany.
  - reflexivity.
  - apply orb_false_elim in Hany as [Hb Hs].
    apply negb_false_iff in Hb, Hs. rewrite Hb, Hs. reflexivity.
Qed.

Lemma GetAPIParams_caches (env : Env) (cookies : string) (w : World) :
  cachedParams (snd (GetAPIParams env cookies w))
  = Some (fst (GetAPIParams env cookies w)).
Proof.
  destruct (cachedParams w) as [p|] eqn:Hc.
  - now rewrite (GetAPIParams_cached _ _ _ _ Hc).
  - now rewrite (GetAPIParams_resolves _ _ _ Hc).
Qed.

(** C6.  A call of [GetAPIParams] that follows another one, with no
    [ClearAPIParamsCache] in between, returns the very pointer the first
    call returned and leaves the process state as it was, whatever the
    cookies and the surroundings of either call.  After
    [ClearAPIParamsCache] the cache is empty and the next call goes through
    the resolution order again: it allocates a new struct holding what the
    override, the fetch or the defaults give at that time, sends the page
    request when the fetch is reached, caches the new pointer and returns
    it. *)
Theorem GetAPIParams_idempotent_until_cleared :
  forall (env1 : Env) (cookies1 : string) (w : World),
    let p1 := fst (GetAPIParams env1 cookies1 w) in
    let w1 := snd (GetAPIParams env1 cookies1 w) in
    (forall (env2 : Env) (cookies2 : string),
        GetAPIParams env2 cookies2 w1 = (p1, w1))
    /\ cachedParams (ClearAPIParamsCache w1) = None
    /\ (forall (env3 : Env) (cookies3 : string),
          GetAPIParams env3 cookies3 (ClearAPIParamsCache w1)
          = (List.length (heap w1),
             cached_with (fst (resolution env3 cookies3))
                         (snd (resolution env3 cookies3)) w1)).
Proof.
  intros env1 cookies1 w p1 w1. split; [|split].
  - intros env2 cookies2. apply GetAPIParams_cached.
    apply GetAPIParams_caches.
  - reflexivity.
  - intros env3 cookies3.
    now rewrite (GetAPIParams_resolves env3 cookies3 (ClearAPIParamsCache w1) eq_refl).
Qed.

(** C7.  On an empty cache, when the two override variables are both set,
    [GetAPIParams] returns a pointer to a struct holding exactly those two
    values, whatever the cookies; it adds no event, so no request is sent;
    and any surroundings with the same two values give the same result,
    whatever their network answers. *)
Theorem GetAPIParams_override :
  forall (env : Env) (cookies : string) (w : World),
    cachedParams w = None ->
    Getenv env "NLM_BUILD_VERSION" <> EmptyString ->
    Getenv env "NLM_SESSION_ID" <> EmptyString ->
    load (fst (GetAPIParams env cookies w)) (snd (GetAPIParams env cookies w))
    = Some {| BuildVersion := Getenv env "NLM_BUILD_VERSION";
              SessionID := Getenv env "NLM_SESSION_ID" |}
    /\ trace (snd (GetAPIParams env cookies w)) = trace w
    /\ (forall env' : Env,
          Getenv env' "NLM_BUILD_VERSION" = Getenv env "NLM_BUILD_VERSION" ->
          Getenv env' "NLM_SESSION_ID" = Getenv env "NLM_SESSION_ID" ->
          GetAPIParams env' cookies w = GetAPIParams env cookies w).
Proof.
  intros env cookies w Hc Hbl Hsid.
  apply is_empty_false in Hbl, Hsid.
  assert (Hres : forall e : Env,
             Getenv e "NLM_BUILD_VERSION" = Getenv env "NLM_BUILD_VERSION" ->
             Getenv e "NLM_SESSION_ID" = Getenv env "NLM_SESSION_ID" ->
             resolution e cookies
             = ({| BuildVersion := Getenv env "NLM_BUILD_VERSION";
                   SessionID := Getenv env "NLM_SESSION_ID" |}, [])).
  { intros e E1 E2. unfold resolution. rewrite E1, E2, Hbl, Hsid. reflexivity. }
  rewrite (GetAPIParams_resolves _ _ _ Hc), (Hres env eq_refl eq_refl).
  cbn [fst snd]. split; [|split].
  - unfold load, cached_with. cbn.
    rewrite nth_error_app2 by lia. now rewrite Nat.sub_diag.
  - cbn. apply app_nil_r.
  - intros env' E1 E2.
    now rewrite (GetAPIParams_resolves _ _ _ Hc), (Hres env' E1 E2).
Qed.

Lemma GetAPIParams_override_witness :
  cachedParams init = None
  /\ Getenv overridden "NLM_BUILD_VERSION" <> EmptyString
  /\ Getenv overridden "NLM_SESSION_ID" <> EmptyString
  /\ load (fst (GetAPIParams overridden "SID=abc" init))
          (snd (GetAPIParams overridden "SID=abc" init))
     = Some {| BuildVersion := "boq_x"; SessionID := "42" |}
  /\ trace (snd (GetAPIParams overridden "SID=abc" init)) = [].
Proof.
  split; [reflexivity|].
  split; [cbn; discriminate|].
  split; [cbn; discriminate|].
  pose proof (GetAPIParams_override overridden "SID=abc" init eq_refl
                ltac:(cbn; discriminate) ltac:(cbn; discriminate)) as [H1 [H2 _]].
  split; [exact H1 | exact H2].
Defined.

(** *** The cache never holds an empty field *)

Lemma resolution_filled (env : Env) (cookies : string) :
  BuildVersion (fst (resolution env cookies)) <> EmptyString
  /\ SessionID (fst (resolution env cookies)) <> EmptyString.
Proof.
  unfold resolution.
  destruct (negb (is_empty (Getenv env "NLM_BUILD_VERSION"))
            && negb (is_empty (Getenv env "NLM_SESSION_ID"))) eqn:Hov.
  { apply andb_prop in Hov as [Hb Hs]. apply negb_true_iff in Hb, Hs.
    cbn. split; now apply is_empty_false. }
  assert (Hd : BuildVersion defaults <> EmptyString
               /\ SessionID defaults <> EmptyString)
    by (split; discriminate).
  destruct (is_empty cookies); [exact Hd|].
  destruct (negb (NewRequest env (pageRequest cookies))); [exact Hd|].
  cbn [fst]. destruct (page_text env cookies) as [html|]; [|exact Hd].
  cbn [BuildVersion SessionID]. split.
  - destruct (is_empty (found env blRegex blAltRegex html)) eqn:E;
      [discriminate | now apply is_empty_false].
  - destruct (is_empty (found env sidRegex sidAltRegex html)) eqn:E;
      [discriminate | now apply is_empty_false].
Qed.

Lemma load_cached_with (v : APIParams) (evs : list event) (w : World) :
  load (List.length (heap w)) (cached_with v evs w) = Some v.
Proof.
  unfold load, cached_with. cbn.
  rewrite nth_error_app2 by lia. now rewrite Nat.sub_diag.
Qed.

Lemma cache_filled_store (w w' : World) :
  same_store w w' -> cache_filled w -> cache_filled w'.
Proof.
  intros [Hh Hc] Hinv p Hp. unfold load. rewrite <- Hh.
  apply Hinv. now rewrite Hc.
Qed.

Lemma same_store_refl (w : World) : same_store w w.
Proof. now split. Qed.

Lemma same_store_trans (a b c : World) :
  same_store a b -> same_store b c -> same_store a c.
Proof. intros [H1 H2] [H3 H4]. split; congruence. Qed.

Lemma GetAPIParams_filled (env : Env) (cookies : string) (w : World) :
  cache_filled w -> cache_filled (snd (GetAPIParams env cookies w)).
Proof.
  intros Hinv. destruct (cachedParams w) as [p|] eqn:Hc.
  - now rewrite (GetAPIParams_cached _ _ _ _ Hc).
  - rewrite (GetAPIParams_resolves _ _ _ Hc). cbn [snd].
    intros p Hp. cbn in Hp. injection Hp as <-.
    exists (fst (resolution env cookies)). split.
    + apply load_cached_with.
    + apply resolution_filled.
Qed.

Lemma exchange_store (env : Env) (c : Client) (req : Request)
    (extra : list (string * string)) (w : World) :
  same_store (snd (GetAPIParams env (cookies c) w)) (snd (exchange env c req extra w)).
Proof.
  unfold exchange.
  destruct (GetAPIParams env (cookies c) w) as [ap w1]. cbn [snd].
  destruct (load ap w1) as [apiParams|]; [|apply same_store_refl].
  cbn [generateRequestID].
  destruct (Marshal (Body req)) as [bodyJSON|]; [|now split].
  match goal with |- context [negb (NewRequest env ?r)] =>
    destruct (negb (NewRequest env r)); [now split|];
    destruct (Do env r) end; now split.
Qed.

Lemma readLoop_store {H : Type} (handler : H -> string -> H * option string)
    (r : Http.reader) (h : H) (w : World) :
  same_store w (snd (readLoop handler r h w)).
Proof.
  revert h w. induction r as [data e|data rest IH]; intros h w; cbn [readLoop].
  - destruct (0 <? String.length data)%nat.
    + destruct (handler h data) as [h' [cause|]]; [now split|].
      destruct e; now split.
    + destruct e; now split.
  - destruct (0 <? String.length data)%nat.
    + destruct (handler h data) as [h' [cause|]]; [now split|].
      eapply same_store_trans; [|apply IH]. now split.
    + apply IH.
Qed.

Lemma perform_filled (env : Env) (k : call) (w : World) :
  cache_filled w -> cache_filled (perform env k w).
Proof.
  intros Hinv. destruct k as [ck| |c req|H c req handler h]; cbn [perform].
  - now apply GetAPIParams_filled.
  - intros p Hp. discriminate.
  - apply cache_filled_store with (snd (GetAPIParams env (cookies c) w));
      [|now apply GetAPIParams_filled].
    unfold Execute.
    pose proof (exchange_store env c req acceptHeaders w) as Hs.
    destruct (exchange env c req _ w) as [[resp|e|] w']; exact Hs.
  - apply cache_filled_store with (snd (GetAPIParams env (cookies c) w));
      [|now apply GetAPIParams_filled].
    unfold Stream.
    pose proof (exchange_store env c req [] w) as Hs.
    destruct (exchange env c req [] w) as [[resp|e|] w']; cbn [snd] in *; try exact Hs.
    destruct (negb (Http.StatusCode resp =? Http.StatusOK)).
    + destruct (Http.ReadAll (Http.Body resp)). exact Hs.
    + eapply same_store_trans; [exact Hs|apply readLoop_store].
Qed.

Lemma run_filled (script : list (Env * call)) (w : World) :
  cache_filled w -> cache_filled (run script w).
Proof.
  revert w. induction script as [|[env k] rest IH]; intros w Hinv; cbn [run].
  - exact Hinv.
  - apply IH. now apply perform_filled.
Qed.

Lemma init_filled : cache_filled init.
Proof. intros p Hp. discriminate. Qed.

(** C8.  After any sequence of calls from the start of the process, a call
    of [GetAPIParams] leaves its result in the cache, and both fields of
    the cached struct are set, whatever the cookies and whatever the
    network and the patterns answer.  In the struct the fetch builds from a
    page, a field for which neither pattern gave a value holds its default
    constant, and the other one holds the value found; the fetch builds no
    struct when neither field was found. *)
Theorem cached_params_never_empty :
  (forall (script : list (Env * call)) (env : Env) (cookies : string),
      let w := run script init in
      cachedParams (snd (GetAPIParams env cookies w))
      = Some (fst (GetAPIParams env cookies w))
      /\ filled (fst (GetAPIParams env cookies w)) (snd (GetAPIParams env cookies w)))
  /\ (forall (env : Env) (html : string),
        let bl := found env blRegex blAltRegex html in
        let sid := found env sidRegex sidAltRegex html in
        match extract env html with
        | Some v =>
            BuildVersion v = (if is_empty bl then DefaultBuildVersion else bl)
            /\ SessionID v = (if is_empty sid then DefaultSessionID else sid)
        | None => bl = EmptyString /\ sid = EmptyString
        end).
Proof.
  split.
  - intros script env cookies w. split; [apply GetAPIParams_caches|].
    apply (GetAPIParams_filled env cookies w (run_filled script init init_filled)).
    apply GetAPIParams_caches.
  - intros env html bl sid. unfold extract. fold bl sid.
    destruct (negb (is_empty bl) || negb (is_empty sid)) eqn:Hany.
    + now split.
    + apply orb_false_elim in Hany as [Hb Hs].
      apply negb_false_iff in Hb, Hs. split; now apply is_empty_true.
Qed.

(** A page on which only the session-id pattern matches: the build version
    is the default constant. *)
Example GetAPIParams_sid_only :
  load (fst (GetAPIParams sid_only_page "SID=abc" init))
       (snd (GetAPIParams sid_only_page "SID=abc" init))
  = Some {| BuildVersion := DefaultBuildVersion; SessionID := "-77" |}
  /\ trace (snd (GetAPIParams sid_only_page "SID=abc" init))
     = [Sent (pageRequest "SID=abc")].
Proof. split; vm_compute; reflexivity. Qed.

(** No cookies, no override and no network: the defaults. *)
Example GetAPIParams_defaults :
  load (fst (GetAPIParams offline EmptyString init))
       (snd (GetAPIParams offline EmptyString init)) = Some defaults
  /\ trace (snd (GetAPIParams offline EmptyString init)) = [].
Proof. split; vm_compute; reflexivity. Qed.

(** ** Request identifiers *)

Open Scope list_scope.

Lemma wrap_small (z : Z) : - 2 ^ 63 <= z <= maxInt -> wrap z = z.
Proof.
  unfold wrap, maxInt. intros Hz.
  rewrite Z.mod_small; lia.
Qed.

Lemma generateRequestID_next (w : World) :
  0 <= requestCounter w ->
  1000000 + (requestCounter w + 1) <= maxInt ->
  fst (generateRequestID w) = 1000000 + (requestCounter w + 1)
  /\ requestCounter (snd (generateRequestID w)) = requestCounter w + 1.
Proof.
  intros H0 Hmax. unfold generateRequestID. cbn [fst snd requestCounter].
  assert (Hc : wrap (requestCounter w + 1) = requestCounter w + 1)
    by (apply wrap_small; unfold maxInt in *; lia).
  rewrite Hc. split; [|reflexivity].
  apply wrap_small. unfold maxInt in *. lia.
Qed.

Lemma generateRequestID_trace (w : World) :
  trace (snd (generateRequestID w)) = trace w.
Proof. reflexivity. Qed.

Lemma reqids_app (a b : list event) : reqids (a ++ b) = reqids a ++ reqids b.
Proof.
  induction a as [|e a IH]; cbn [reqids List.app]; [reflexivity|].
  destruct e as [r|chunk]; [|exact IH].
  destruct (String.eqb (Http.Method r) "POST"); [|exact IH].
  destruct (Http.lookup "_reqid" (Http.Query r)); [|exact IH].
  cbn. now rewrite IH.
Qed.

Lemma moves_refl (w : World) : moves 0 [] w w.
Proof.
  split; [lia|]. exists []. split; [now rewrite app_nil_r|reflexivity].
Qed.

Lemma moves_trans (d1 d2 : Z) (i1 i2 : list string) (a b c : World) :
  moves d1 i1 a b -> moves d2 i2 b c -> moves (d1 + d2) (i1 ++ i2) a c.
Proof.
  intros [Hc1 [e1 [Ht1 Hi1]]] [Hc2 [e2 [Ht2 Hi2]]]. split; [lia|].
  exists (e1 ++ e2). split.
  - rewrite Ht2, Ht1. now rewrite app_assoc.
  - rewrite reqids_app. congruence.
Qed.

Lemma moves_step (d1 d2 d : Z) (i1 i2 i : list string) (a b c : World) :
  moves d1 i1 a b -> moves d2 i2 b c -> d = d1 + d2 -> i = i1 ++ i2 ->
  moves d i a c.
Proof. intros H1 H2 -> ->. now apply moves_trans with b. Qed.

Lemma resolution_no_ids (env : Env) (cookies : string) :
  reqids (snd (resolution env cookies)) = [].
Proof.
  unfold resolution.
  destruct (negb (is_empty (Getenv env "NLM_BUILD_VERSION"))
            && negb (is_empty (Getenv env "NLM_SESSION_ID"))); [reflexivity|].
  destruct (is_empty cookies); [reflexivity|].
  destruct (negb (NewRequest env (pageRequest cookies))); reflexivity.
Qed.

Lemma GetAPIParams_moves (env : Env) (cookies : string) (w : World) :
  moves 0 [] w (snd (GetAPIParams env cookies w)).
Proof.
  destruct (cachedParams w) as [p|] eqn:Hc.
  - rewrite (GetAPIParams_cached _ _ _ _ Hc). apply moves_refl.
  - rewrite (GetAPIParams_resolves _ _ _ Hc). cbn [snd]. split.
    + cbn. lia.
    + exists (snd (resolution env cookies)). split; [reflexivity|].
      apply resolution_no_ids.
Qed.

Lemma GetAPIParams_loads (env : Env) (cookies : string) (w : World) :
  cache_filled w ->
  exists v, load (fst (GetAPIParams env cookies w)) (snd (GetAPIParams env cookies w))
            = Some v.
Proof.
  intros Hinv.
  destruct (GetAPIParams_filled env cookies w Hinv _ (GetAPIParams_caches env cookies w))
    as [v [Hv _]].
  now exists v.
Qed.

Lemma reqids_post (c : Client) (req : Request) (apiParams : APIParams) (reqid : Z)
    (bodyJSON : string) (extra : list (string * string)) :
  reqids [Sent (post c req apiParams reqid bodyJSON extra)] = [itoa reqid].
Proof. reflexivity. Qed.

(** What one transport call adds: the counter moves by one, and the POST
    request, if one is sent, carries the id drawn. *)
Lemma exchange_moves (env : Env) (c : Client) (req : Request)
    (extra : list (string * string)) (w : World) :
  cache_filled w ->
  0 <= requestCounter w ->
  1000000 + (requestCounter w + 1) <= maxInt ->
  exists ids,
    moves 1 ids w (snd (exchange env c req extra w))
    /\ (ids = [] \/ ids = [itoa (1000000 + (requestCounter w + 1))])
    /\ ((forall r, NewRequest env r = true) -> Marshal (Body req) <> None ->
        ids = [itoa (1000000 + (requestCounter w + 1))]).
Proof.
  intros Hinv H0 Hmax. unfold exchange.
  pose proof (GetAPIParams_moves env (cookies c) w) as Hm.
  destruct (GetAPIParams_loads env (cookies c) w Hinv) as [apiParams Hload].
  destruct (GetAPIParams env (cookies c) w) as [ap w1]. cbn [fst snd] in *.
  rewrite Hload.
  assert (Hc1 : requestCounter w1 = requestCounter w) by (destruct Hm; lia).
  destruct (generateRequestID_next w1) as [Hid Hcnt]; [lia|lia|].
  pose proof (generateRequestID_trace w1) as Ht2.
  destruct (generateRequestID w1) as [reqid w2]. cbn [fst snd] in Hid, Hcnt, Ht2.
  assert (Hm2 : moves 1 [] w w2).
  { apply (moves_step 0 1 1 [] [] [] w w1 w2); [exact Hm| |reflexivity|reflexivity].
    split; [lia|]. exists []. split; [now rewrite app_nil_r|reflexivity]. }
  rewrite Hc1 in Hid.
  destruct (Marshal (Body req)) as [bodyJSON|].
  2:{ exists []. cbn [snd]. split; [exact Hm2|]. split; [now left|].
      intros _ Hne. now elim Hne. }
  match goal with |- context [negb (NewRequest env ?r)] => set (httpReq := r) end.
  assert (Hm3 : moves 1 [itoa (1000000 + (requestCounter w + 1))] w
                  (log (Sent httpReq) w2)).
  { apply (moves_step 1 0 1 [] [itoa (1000000 + (requestCounter w + 1))] _ w w2);
      [exact Hm2| |reflexivity|reflexivity].
    split; [cbn; lia|].
    exists [Sent httpReq]. split; [reflexivity|].
    unfold httpReq. rewrite reqids_post. now rewrite Hid. }
  destruct (NewRequest env httpReq) eqn:Hnew; cbn [negb].
  - exists [itoa (1000000 + (requestCounter w + 1))].
    split; [|split; [now right|reflexivity]].
    destruct (Do env httpReq); exact Hm3.
  - exists []. cbn [snd]. split; [exact Hm2|]. split; [now left|].
    intros Hall _. rewrite Hall in Hnew. discriminate.
Qed.

Lemma readLoop_moves {H : Type} (handler : H -> string -> H * option string)
    (r : Http.reader) (h : H) (w : World) :
  moves 0 [] w (snd (readLoop handler r h w)).
Proof.
  assert (Hlog : forall data w0, moves 0 [] w0 (log (Delivered data) w0)).
  { intros data w0. split; [cbn; lia|]. exists [Delivered data]. now split. }
  revert h w. induction r as [data e|data rest IH]; intros h w; cbn [readLoop].
  - destruct (0 <? String.length data)%nat.
    + destruct (handler h data) as [h' [cause|]]; [apply Hlog|].
      destruct e; apply Hlog.
    + destruct e; apply moves_refl.
  - destruct (0 <? String.length data)%nat.
    + destruct (handler h data) as [h' [cause|]]; [apply Hlog|].
      eapply (moves_step 0 0 0 [] [] []); [apply Hlog|apply IH|reflexivity|reflexivity].
    + apply IH.
Qed.

Lemma perform_moves (env : Env) (k : call) (w : World) :
  cache_filled w ->
  0 <= requestCounter w ->
  if is_transport k then
    1000000 + (requestCounter w + 1) <= maxInt ->
    exists ids,
      moves 1 ids w (perform env k w)
      /\ (ids = [] \/ ids = [itoa (1000000 + (requestCounter w + 1))])
      /\ (sends env k -> ids = [itoa (1000000 + (requestCounter w + 1))])
  else moves 0 [] w (perform env k w).
Proof.
  intros Hinv H0. destruct k as [ck| |c req|H c req handler h]; cbn [is_transport perform].
  - apply GetAPIParams_moves.
  - split; [cbn; lia|]. exists []. split; [now rewrite app_nil_r|reflexivity].
  - intros Hmax.
    destruct (exchange_moves env c req acceptHeaders w Hinv H0 Hmax)
      as [ids [Hm [Hor Hs]]].
    exists ids. split; [|split; [exact Hor|]].
    + unfold Execute. destruct (exchange env c req _ w) as [[resp|e|] w']; exact Hm.
    + intros [Hall Henc]. now apply Hs.
  - intros Hmax.
    destruct (exchange_moves env c req [] w Hinv H0 Hmax) as [ids [Hm [Hor Hs]]].
    exists ids. split; [|split; [exact Hor|]].
    + unfold Stream.
      destruct (exchange env c req [] w) as [[resp|e|] w']; cbn [snd] in *;
        try exact Hm.
      destruct (negb (Http.StatusCode resp =? Http.StatusOK)).
      * destruct (Http.ReadAll (Http.Body resp)). exact Hm.
      * eapply (moves_step 1 0 1 ids [] ids);
          [exact Hm|apply readLoop_moves|reflexivity|now rewrite app_nil_r].
    + intros [Hall Henc]. now apply Hs.
Qed.

Lemma run_ids (script : list (Env * call)) (w : World) :
  cache_filled w ->
  0 <= requestCounter w ->
  1000000 + (requestCounter w + Z.of_nat (transport_count script)) <= maxInt ->
  requestCounter (run script w) = requestCounter w + Z.of_nat (transport_count script)
  /\ (Forall (fun ek => sends (fst ek) (snd ek)) script ->
      reqids (trace (run script w))
      = reqids (trace w) ++ ids_from (requestCounter w + 1) (transport_count script)).
Proof.
  revert w. induction script as [|[env k] rest IH]; intros w Hinv H0 Hmax.
  - cbn. split; [lia|]. intros _. now rewrite app_nil_r.
  - cbn [run transport_count] in *.
    pose proof (perform_filled env k w Hinv) as Hinv'.
    pose proof (perform_moves env k w Hinv H0) as Hp.
    destruct (is_transport k).
    + assert (Hnext : 1000000 + (requestCounter w + 1) <= maxInt) by lia.
      destruct (Hp Hnext) as [ids [[Hc [evs [Ht Hids]]] [_ Hs]]].
      destruct (IH (perform env k w) Hinv') as [IHc IHr]; [lia|lia|].
      split; [lia|].
      intros Hall. pose proof (Forall_inv Hall) as Hk.
      pose proof (Forall_inv_tail Hall) as Hrest. cbn [fst snd] in Hk.
      rewrite (IHr Hrest), Ht, reqids_app, Hids, (Hs Hk), Hc.
      cbn [ids_from]. now rewrite <- app_assoc.
    + destruct Hp as [Hc [evs [Ht Hids]]].
      destruct (IH (perform env k w) Hinv') as [IHc IHr]; [lia|lia|].
      split; [lia|].
      intros Hall. pose proof (Forall_inv Hall) as Hk.
      pose proof (Forall_inv_tail Hall) as Hrest. cbn [fst snd] in Hk.
      rewrite (IHr Hrest), Ht, reqids_app, Hids, Hc, app_nil_r.
      now replace (requestCounter w + 0 + 1) with (requestCounter w + 1) by lia.
Qed.

(** C9.  In a sequential run from the start of the process, after [n]
    calls of [Execute] or [Stream] (in any order, mixed with any other
    calls) the counter stands at [n] and the next id drawn is
    [1000000 + (n + 1)]; the next transport call moves the counter by
    exactly one, and a POST request it sends carries [_reqid] equal to the
    decimal text of [1000000 + (n + 1)].  When every call gets as far as
    sending its request, the ids of the requests sent are, in order, those
    of 1000001, 1000002, and so on, one per call.  This holds as long as
    the ids stay within Go's int. *)
Theorem request_ids_follow_calls :
  forall (script : list (Env * call)),
    let n := Z.of_nat (transport_count script) in
    let w := run script init in
    1000000 + (n + 1) <= maxInt ->
    requestCounter w = n
    /\ fst (generateRequestID w) = 1000000 + (n + 1)
    /\ (forall (env : Env) (k : call),
          is_transport k = true ->
          requestCounter (perform env k w) = n + 1
          /\ (reqids (trace (perform env k w))
              = reqids (trace w) ++ [itoa (1000000 + (n + 1))]
              \/ reqids (trace (perform env k w)) = reqids (trace w))
          /\ (sends env k ->
              reqids (trace (perform env k w))
              = reqids (trace w) ++ [itoa (1000000 + (n + 1))]))
    /\ (Forall (fun ek => sends (fst ek) (snd ek)) script ->
        reqids (trace w) = ids_from 1 (transport_count script)).
Proof.
  intros script. cbv zeta. intros Hmax.
  destruct (run_ids script init init_filled) as [Hc Hr];
    [cbn [init requestCounter]; lia|cbn [init requestCounter]; lia|].
  cbn [init requestCounter] in Hc. rewrite Z.add_0_l in Hc.
  assert (Hinv : cache_filled (run script init))
    by apply (run_filled script init init_filled).
  split; [exact Hc|]. split; [|split].
  - destruct (generateRequestID_next (run script init)) as [Hid _]; [lia|lia|].
    rewrite Hid, Hc. reflexivity.
  - intros env k Hk.
    pose proof (perform_moves env k (run script init) Hinv) as Hp. rewrite Hk in Hp.
    assert (H0 : 0 <= requestCounter (run script init)) by lia.
    assert (Hnext : 1000000 + (requestCounter (run script init) + 1) <= maxInt) by lia.
    destruct (Hp H0 Hnext) as [ids [[Hc' [evs [Ht Hids]]] [Hor Hs]]].
    rewrite Hc in *.
    split; [exact Hc'|]. rewrite Ht, reqids_app, Hids. split.
    + destruct Hor as [-> | ->]; [right; apply app_nil_r|now left].
    + intros Hsend. now rewrite (Hs Hsend).
  - intros Hall. now rewrite (Hr Hall).
Qed.

Lemma request_ids_follow_calls_witness :
  1000000 + (Z.of_nat (transport_count two_calls) + 1) <= maxInt
  /\ Forall (fun ek => sends (fst ek) (snd ek)) two_calls
  /\ requestCounter (run two_calls init) = 2
  /\ fst (generateRequestID (run two_calls init)) = 1000003
  /\ reqids (trace (run two_calls init)) = ["1000001"; "1000002"]%string.
Proof.
  assert (Hmax : 1000000 + (Z.of_nat (transport_count two_calls) + 1) <= maxInt)
    by (vm_compute; discriminate).
  assert (Hall : Forall (fun ek => sends (fst ek) (snd ek)) two_calls).
  { repeat constructor; cbn; discriminate. }
  destruct (request_ids_follow_calls two_calls Hmax) as [Hc [Hid [_ Hr]]].
  split; [exact Hmax|]. split; [exact Hall|].
  split; [exact Hc|]. split; [exact Hid|]. exact (Hr Hall).
Defined.

(** ** The status check *)

Open Scope string_scope.
Open Scope Z_scope.

Lemma payload_no_status (text : string) (code : Z) (body : string) :
  payload text <> Err (StatusError code body).
Proof.
  unfold payload. destruct (Unmarshal text) as [outer|]; [|discriminate].
  destruct outer as [|first rest]; cbn; [discriminate|].
  destruct first as [|a [|b [|x tl]]]; cbn; try discriminate.
  destruct x; discriminate.
Qed.

Lemma unframe_no_status (b : string) (code : Z) (body : string) :
  unframe b <> Err (StatusError code body).
Proof.
  unfold unframe. destruct (first_chunk_total (strip_guard b)) as [text ->].
  cbn [bind]. apply payload_no_status.
Qed.

Lemma exchange_no_status (env : Env) (c : Client) (req : Request)
    (extra : list (string * string)) (w : World) (code : Z) (body : string) :
  fst (exchange env c req extra w) <> Err (StatusError code body).
Proof.
  unfold exchange.
  destruct (GetAPIParams env (cookies c) w) as [ap w1].
  destruct (load ap w1) as [apiParams|]; [|discriminate].
  destruct (generateRequestID w1) as [reqid w2].
  destruct (Marshal (Body req)) as [bodyJSON|]; [|discriminate].
  match goal with |- context [negb (NewRequest env ?r)] =>
    destruct (negb (NewRequest env r)); [discriminate|];
    destruct (Do env r) end; discriminate.
Qed.

Lemma readLoop_no_status {H : Type} (handler : H -> string -> H * option string)
    (r : Http.reader) (h : H) (w : World) (code : Z) (body : string) :
  fst (fst (readLoop handler r h w)) <> Err (StatusError code body).
Proof.
  revert h w. induction r as [data e|data rest IH]; intros h w; cbn [readLoop].
  - destruct (0 <? String.length data)%nat.
    + destruct (handler h data) as [h' [cause|]]; [discriminate|].
      destruct e; discriminate.
    + destruct e; discriminate.
  - destruct (0 <? String.length data)%nat.
    + destruct (handler h data) as [h' [cause|]]; [discriminate|]. apply IH.
    + apply IH.
Qed.

(** C4, as the code has it.  Once the round trip has produced a response:
    [Execute], when the body was read without error, returns the status
    error holding the status code and the body read if the status is not
    200, and goes on to unframe the body if it is 200; [Stream] returns the
    status error holding the status code and the body as far as it could
    be read if the status is not 200, and enters the read loop if it is
    200.  Conversely a status error returned by either call holds the
    status and body of the response received, and that status is not
    200. *)
Theorem status_error_unless_200 :
  (forall (env : Env) (c : Client) (req : Request) (w : World) (resp : Http.Response),
      fst (exchange env c req acceptHeaders w) = Ok resp ->
      snd (Http.ReadAll (Http.Body resp)) = false ->
      fst (Execute env c req w)
      = if Http.StatusCode resp =? 200
        then unframe (fst (Http.ReadAll (Http.Body resp)))
        else Err (StatusError (Http.StatusCode resp)
                              (fst (Http.ReadAll (Http.Body resp)))))
  /\ (forall (H : Type) (env : Env) (c : Client) (req : Request)
             (handler : H -> string -> H * option string) (h : H) (w : World)
             (resp : Http.Response),
        fst (exchange env c req [] w) = Ok resp ->
        Stream env c req handler h w
        = if Http.StatusCode resp =? 200
          then readLoop handler (Http.Body resp) h (snd (exchange env c req [] w))
          else (Err (StatusError (Http.StatusCode resp)
                                 (fst (Http.ReadAll (Http.Body resp)))),
                h, snd (exchange env c req [] w)))
  /\ (forall (env : Env) (c : Client) (req : Request) (w : World)
             (code : Z) (body : string),
        fst (Execute env c req w) = Err (StatusError code body) ->
        code <> 200
        /\ exists resp,
             fst (exchange env c req acceptHeaders w) = Ok resp
             /\ Http.StatusCode resp = code
             /\ Http.ReadAll (Http.Body resp) = (body, false))
  /\ (forall (H : Type) (env : Env) (c : Client) (req : Request)
             (handler : H -> string -> H * option string) (h : H) (w : World)
             (code : Z) (body : string),
        fst (fst (Stream env c req handler h w)) = Err (StatusError code body) ->
        code <> 200
        /\ exists resp,
             fst (exchange env c req [] w) = Ok resp
             /\ Http.StatusCode resp = code
             /\ fst (Http.ReadAll (Http.Body resp)) = body).
Proof.
  split; [|split; [|split]].
  - intros env c req w resp Hx Hread. unfold Execute.
    destruct (exchange env c req acceptHeaders w) as [o w']. cbn [fst] in Hx. subst o.
    cbn [fst]. unfold receive, Http.StatusOK.
    destruct (Http.ReadAll (Http.Body resp)) as [body failed]. cbn [fst snd] in *.
    subst failed. now destruct (Http.StatusCode resp =? 200).
  - intros H env c req handler h w resp Hx. unfold Stream.
    destruct (exchange env c req [] w) as [o w']. cbn [fst snd] in *. subst o.
    unfold Http.StatusOK.
    destruct (Http.StatusCode resp =? 200); cbn [negb]; [reflexivity|].
    now destruct (Http.ReadAll (Http.Body resp)).
  - intros env c req w code body. unfold Execute.
    pose proof (exchange_no_status env c req acceptHeaders w code body) as Hno.
    destruct (exchange env c req acceptHeaders w) as [[resp|e|] w']; cbn [fst] in *;
      [|congruence|discriminate].
    unfold receive, Http.StatusOK.
    destruct (Http.ReadAll (Http.Body resp)) as [b [|]] eqn:Hread; [discriminate|].
    destruct (Http.StatusCode resp =? 200) eqn:Hs; cbn [negb].
    + intros Hu. now apply unframe_no_status in Hu.
    + intros Hu. injection Hu as <- <-. apply Z.eqb_neq in Hs.
      split; [exact Hs|]. exists resp. repeat split. exact Hread.
  - intros H env c req handler h w code body. unfold Stream.
    pose proof (exchange_no_status env c req [] w code body) as Hno.
    destruct (exchange env c req [] w) as [[resp|e|] w']; cbn [fst] in *;
      [|congruence|discriminate].
    unfold Http.StatusOK.
    destruct (Http.StatusCode resp =? 200) eqn:Hs; cbn [negb].
    + intros Hu. now apply readLoop_no_status in Hu.
    + destruct (Http.ReadAll (Http.Body resp)) as [b failed] eqn:Hread. cbn [fst].
      intros Hu. injection Hu as <- <-. apply Z.eqb_neq in Hs.
      split; [exact Hs|]. exists resp. repeat split. now rewrite Hread.
Qed.

Lemma status_error_unless_200_witness :
  fst (exchange (answering 500 "oops") client request acceptHeaders init)
  = Ok {| Http.StatusCode := 500; Http.Body := Http.Last "oops" Http.EOF |}
  /\ snd (Http.ReadAll (Http.Last "oops" Http.EOF)) = false
  /\ fst (Execute (answering 500 "oops") client request init)
     = Err (StatusError 500 "oops").
Proof.
  split; [vm_compute; reflexivity|].
  split; [reflexivity|].
  apply (proj1 status_error_unless_200 (answering 500 "oops") client request init
           {| Http.StatusCode := 500; Http.Body := Http.Last "oops" Http.EOF |}).
  - vm_compute. reflexivity.
  - reflexivity.
Defined.

(** C4 as the specification words it fails: 204 is a status of the 2xx
    class, and both calls answer it with the status error. *)
Lemma status_204_is_refused :
  Http.is_2xx 204 = true
  /\ fst (Execute (answering 204 exemplar) client request init)
     = Err (StatusError 204 exemplar)
  /\ fst (fst (Stream (answering 204 exemplar) client request
                 (fun (_ : unit) (_ : string) => (tt, None)) tt init))
     = Err (StatusError 204 exemplar).
Proof. repeat split; vm_compute; reflexivity. Qed.

(** The text of the status error holds the code in decimal and the body as
    it is. *)
Example status_error_message :
  message (StatusError 204 "no content") = "request failed with status 204: no content".
Proof. reflexivity. Qed.

(** With status 200 the same body is unframed by [Execute] and handed to
    the handler by [Stream]. *)
Example status_200_proceeds :
  fst (Execute (answering 200 exemplar) client request init) = Ok payload_a1
  /\ Stream (answering 200 exemplar) client request
       (fun (seen : list string) (chunk : string) => (seen ++ [chunk], None))%list
       [] init
     = (Ok tt, [exemplar],
        snd (Stream (answering 200 exemplar) client request
               (fun (seen : list string) (chunk : string) => (seen ++ [chunk], None))%list
               [] init)).
Proof. split; vm_compute; reflexivity. Qed.

(** * Further properties *)

Import Reads Chat Cases.
Open Scope string_scope.
Open Scope Z_scope.
Open Scope list_scope.

(** ** The read loop *)

Lemma log_trace (e : event) (w : World) : trace (log e w) = trace w ++ [e].
Proof. reflexivity. Qed.

(** The read loop is the handler fed with the non-empty reads, in order,
    up to its first error; it touches nothing but the events. *)
Lemma readLoop_feed {H : Type} (handler : H -> string -> H * option string)
    (r : Http.reader) (h : H) (w : World) :
  let '(seen, h', res) := feed handler (chunks r) h in
  fst (fst (readLoop handler r h w))
  = match res with
    | Some cause => Err (HandlerError cause)
    | None => match ending r with
              | Http.EOF => Ok tt
              | Http.ReadFailure => Err StreamReadError
              end
    end
  /\ snd (fst (readLoop handler r h w)) = h'
  /\ trace (snd (readLoop handler r h w)) = trace w ++ map Delivered seen
  /\ heap (snd (readLoop handler r h w)) = heap w
  /\ cachedParams (snd (readLoop handler r h w)) = cachedParams w
  /\ requestCounter (snd (readLoop handler r h w)) = requestCounter w.
Proof.
  revert h w. induction r as [data e|data rest IH]; intros h w;
    cbn [readLoop chunks ending].
  - destruct (0 <? String.length data)%nat; cbn [feed].
    + destruct (handler h data) as [h' [cause|]]; cbn.
      * repeat split.
      * destruct e; repeat split.
    + destruct e; cbn; rewrite app_nil_r; repeat split.
  - destruct (0 <? String.length data)%nat; cbn [feed].
    + destruct (handler h data) as [h' [cause|]].
      * cbn. repeat split.
      * specialize (IH h' (log (Delivered data) w)).
        destruct (feed handler (chunks rest) h') as [[seen h''] res].
        destruct IH as (I1 & I2 & I3 & I4 & I5 & I6).
        rewrite I1, I2, I3, I4, I5, I6. cbn [map].
        rewrite log_trace, <- app_assoc. repeat split.
    + apply IH.
Qed.

Lemma feed_never_failing {H : Type} (handler : H -> string -> H * option string)
    (cs : list string) (h : H) :
  (forall h0 d, snd (handler h0 d) = None) ->
  feed handler cs h = (cs, fed handler cs h, None).
Proof.
  intros Hok. revert h. induction cs as [|c rest IH]; intros h; cbn [feed fed fold_left].
  - reflexivity.
  - pose proof (Hok h c) as Hc. destruct (handler h c) as [h' res]. cbn in Hc. subst res.
    rewrite IH. reflexivity.
Qed.

Lemma feed_app {H : Type} (handler : H -> string -> H * option string)
    (pre post : list string) (h h1 : H) :
  feed handler pre h = (pre, h1, None) ->
  feed handler (pre ++ post) h
  = (let '(seen, h2, res) := feed handler post h1 in (pre ++ seen, h2, res)).
Proof.
  revert h. induction pre as [|c rest IH]; intros h Hpre; cbn [feed List.app] in *.
  - injection Hpre as <-. now destruct (feed handler post h) as [[seen h2] res].
  - destruct (handler h c) as [h' [cause|]]; [discriminate|].
    destruct (feed handler rest h') as [[seen h''] res] eqn:Hf.
    injection Hpre as -> -> ->.
    rewrite (IH h' Hf).
    now destruct (feed handler post h1) as [[seen2 h2] res2].
Qed.

Lemma joined_chunks (r : Http.reader) : joined (chunks r) = fst (Http.ReadAll r).
Proof.
  assert (Hkeep : forall d l,
             joined (if (0 <? String.length d)%nat then d :: l else l)
             = (d ++ joined l)%string).
  { intros d l. destruct d as [|a d]; reflexivity. }
  induction r as [data e|data rest IH]; cbn [chunks Http.ReadAll].
  - rewrite Hkeep. cbn. destruct e; cbn; now rewrite append_empty_r.
  - rewrite Hkeep, IH. now destruct (Http.ReadAll rest).
Qed.

Lemma Stream_on_200 {H : Type} (env : Env) (c : Client) (req : Request)
    (handler : H -> string -> H * option string) (h : H) (w : World)
    (resp : Http.Response) :
  fst (exchange env c req [] w) = Ok resp ->
  Http.StatusCode resp = 200 ->
  Stream env c req handler h w
  = readLoop handler (Http.Body resp) h (snd (exchange env c req [] w)).
Proof.
  intros Hx Hs. unfold Stream.
  destruct (exchange env c req [] w) as [o w']. cbn [fst snd] in *. subst o.
  unfold Http.StatusOK. rewrite Hs. reflexivity.
Qed.

(** X1.  When the response has status 200 and the handler never answers
    with an error, [Stream] invokes it once for every non-empty read, in
    arrival order, and for nothing else; the chunks put end to end are the
    body as [io.ReadAll] would return it; the call returns nil when the
    body ends with [io.EOF] and the read error otherwise, after the data
    that came with that last read was delivered too. *)
Theorem Stream_delivers_every_chunk :
  forall (H : Type) (env : Env) (c : Client) (req : Request)
         (handler : H -> string -> H * option string) (h : H) (w : World)
         (resp : Http.Response),
    fst (exchange env c req [] w) = Ok resp ->
    Http.StatusCode resp = 200 ->
    (forall h0 d, snd (handler h0 d) = None) ->
    let body := Http.Body resp in
    fst (fst (Stream env c req handler h w))
    = match ending body with
      | Http.EOF => Ok tt
      | Http.ReadFailure => Err StreamReadError
      end
    /\ snd (fst (Stream env c req handler h w)) = fed handler (chunks body) h
    /\ trace (snd (Stream env c req handler h w))
       = trace (snd (exchange env c req [] w)) ++ map Delivered (chunks body)
    /\ joined (chunks body) = fst (Http.ReadAll body).
Proof.
  intros H env c req handler h w resp Hx Hs Hok body.
  rewrite (Stream_on_200 env c req handler h w resp Hx Hs).
  pose proof (readLoop_feed handler body h (snd (exchange env c req [] w))) as Hf.
  fold body. rewrite (feed_never_failing handler (chunks body) h Hok) in Hf.
  destruct Hf as (F1 & F2 & F3 & _).
  repeat split; try assumption. apply joined_chunks.
Qed.

Lemma Stream_delivers_every_chunk_witness :
  fst (exchange piecewise client request [] init)
  = Ok {| Http.StatusCode := 200; Http.Body := in_pieces |}
  /\ (forall h0 d, snd (gather h0 d) = None)
  /\ fst (Stream piecewise client request gather EmptyString init)
     = (Ok tt, exemplar).
Proof.
  assert (Hx : fst (exchange piecewise client request [] init)
               = Ok {| Http.StatusCode := 200; Http.Body := in_pieces |})
    by (vm_compute; reflexivity).
  assert (Hok : forall h0 d : string, snd (gather h0 d) = None) by reflexivity.
  split; [exact Hx|]. split; [exact Hok|].
  destruct (Stream_delivers_every_chunk string piecewise client request gather
              EmptyString init _ Hx eq_refl Hok) as (R1 & R2 & _).
  destruct (Stream piecewise client request gather EmptyString init) as [[o h] w'].
  cbn [fst snd] in *. rewrite R1, R2. vm_compute. reflexivity.
Defined.

(** X2.  When the handler answers with an error, [Stream] returns that
    error wrapped as the handler error and stops reading: the chunks
    delivered are those before the refused one and the refused one itself,
    and nothing that follows in the body is delivered or looked at, be it
    further data or a read failure. *)
Theorem Stream_stops_at_handler_error :
  forall (H : Type) (env : Env) (c : Client) (req : Request)
         (handler : H -> string -> H * option string) (h h1 h2 : H) (w : World)
         (resp : Http.Response) (before after : list string) (refused cause : string),
    fst (exchange env c req [] w) = Ok resp ->
    Http.StatusCode resp = 200 ->
    chunks (Http.Body resp) = before ++ refused :: after ->
    feed handler before h = (before, h1, None) ->
    handler h1 refused = (h2, Some cause) ->
    fst (Stream env c req handler h w) = (Err (HandlerError cause), h2)
    /\ trace (snd (Stream env c req handler h w))
       = trace (snd (exchange env c req [] w)) ++ map Delivered (before ++ [refused]).
Proof.
  intros H env c req handler h h1 h2 w resp before after refused cause
         Hx Hs Hchunks Hbefore Hrefused.
  rewrite (Stream_on_200 env c req handler h w resp Hx Hs).
  pose proof (readLoop_feed handler (Http.Body resp) h (snd (exchange env c req [] w)))
    as Hf.
  rewrite Hchunks, (feed_app handler before (refused :: after) h h1 Hbefore) in Hf.
  cbn [feed] in Hf. rewrite Hrefused in Hf.
  destruct Hf as (F1 & F2 & F3 & _).
  destruct (readLoop handler (Http.Body resp) h (snd (exchange env c req [] w)))
    as [[o hh] w'].
  cbn [fst snd] in *. now subst.
Qed.

Lemma Stream_stops_at_handler_error_witness :
  fst (exchange piecewise client request [] init)
  = Ok {| Http.StatusCode := 200; Http.Body := in_pieces |}
  /\ chunks in_pieces = [")]}'"%string] ++ (nl ++ "31" ++ nl ++ envelope ++ nl)%string :: []
  /\ feed refuse_second [")]}'"%string] 0%nat = ([")]}'"%string], 1%nat, None)
  /\ refuse_second 1 (nl ++ "31" ++ nl ++ envelope ++ nl)%string = (2%nat, Some "enough"%string)
  /\ fst (Stream piecewise client request refuse_second 0%nat init)
     = (Err (HandlerError "enough"), 2%nat).
Proof.
  assert (Hx : fst (exchange piecewise client request [] init)
               = Ok {| Http.StatusCode := 200; Http.Body := in_pieces |})
    by (vm_compute; reflexivity).
  split; [exact Hx|]. split; [reflexivity|]. split; [reflexivity|].
  split; [reflexivity|].
  apply (proj1 (Stream_stops_at_handler_error nat piecewise client request
                  refuse_second 0%nat 1%nat 2%nat init _ [")]}'"%string] []
                  (nl ++ "31" ++ nl ++ envelope ++ nl)%string "enough"%string
                  Hx eq_refl eq_refl eq_refl eq_refl)).
Defined.

(** X3.  For one and the same response of status 200 whose body ends with
    [io.EOF], what [Execute] returns is what the unframe path gives on the
    chunks [Stream] hands to a handler that puts them end to end. *)
Theorem Execute_agrees_with_gathered_Stream :
  forall (env : Env) (c : Client) (req : Request) (w : World) (resp : Http.Response),
    fst (exchange env c req acceptHeaders w) = Ok resp ->
    fst (exchange env c req [] w) = Ok resp ->
    Http.StatusCode resp = 200 ->
    ending (Http.Body resp) = Http.EOF ->
    fst (fst (Stream env c req gather EmptyString w)) = Ok tt
    /\ fst (Execute env c req w)
       = unframe (snd (fst (Stream env c req gather EmptyString w))).
Proof.
  intros env c req w resp HxE HxS Hs Hend.
  assert (Hok : forall h0 d : string, snd (gather h0 d) = None) by reflexivity.
  rewrite (Stream_on_200 env c req gather EmptyString w resp HxS Hs).
  pose proof (readLoop_feed gather (Http.Body resp) EmptyString
                (snd (exchange env c req [] w))) as Hf.
  rewrite (feed_never_failing gather _ EmptyString Hok), Hend in Hf.
  destruct Hf as (F1 & F2 & _). rewrite F1, F2. split; [reflexivity|].
  assert (Hg : forall cs s, fed gather cs s = (s ++ joined cs)%string).
  { induction cs as [|x cs IH]; intros s; cbn [fed fold_left joined fold_right].
    - now rewrite append_empty_r.
    - change (fold_left (fun h0 c0 => fst (gather h0 c0)) cs (fst (gather s x)))
        with (fed gather cs (s ++ x)%string).
      rewrite IH. cbn [joined]. now rewrite app_assoc_s. }
  rewrite Hg, joined_chunks. cbn [String.append].
  unfold Execute.
  destruct (exchange env c req acceptHeaders w) as [o w']. cbn [fst] in *. subst o.
  unfold receive, Http.StatusOK. rewrite Hs.
  assert (Hread : forall r, ending r = Http.EOF -> snd (Http.ReadAll r) = false).
  { induction r as [d e|d rest IH]; cbn [ending Http.ReadAll]; intros He.
    - now subst e.
    - specialize (IH He). now destruct (Http.ReadAll rest). }
  specialize (Hread _ Hend).
  destruct (Http.ReadAll (Http.Body resp)) as [body failed]. cbn [fst snd] in *.
  now subst failed.
Qed.

Lemma Execute_agrees_with_gathered_Stream_witness :
  fst (exchange piecewise client request acceptHeaders init)
  = Ok {| Http.StatusCode := 200; Http.Body := in_pieces |}
  /\ fst (exchange piecewise client request [] init)
     = Ok {| Http.StatusCode := 200; Http.Body := in_pieces |}
  /\ ending in_pieces = Http.EOF
  /\ fst (Execute piecewise client request init)
     = unframe (snd (fst (Stream piecewise client request gather EmptyString init))).
Proof.
  assert (HxE : fst (exchange piecewise client request acceptHeaders init)
                = Ok {| Http.StatusCode := 200; Http.Body := in_pieces |})
    by (vm_compute; reflexivity).
  assert (HxS : fst (exchange piecewise client request [] init)
                = Ok {| Http.StatusCode := 200; Http.Body := in_pieces |})
    by (vm_compute; reflexivity).
  split; [exact HxE|]. split; [exact HxS|]. split; [reflexivity|].
  apply (proj2 (Execute_agrees_with_gathered_Stream piecewise client request init _
                  HxE HxS eq_refl eq_refl)).
Defined.

(** ** No panic *)

Lemma exchange_no_panic (env : Env) (c : Client) (req : Request)
    (extra : list (string * string)) (w : World) :
  cache_filled w -> fst (exchange env c req extra w) <> Panic.
Proof.
  intros Hinv. unfold exchange.
  destruct (GetAPIParams_loads env (cookies c) w Hinv) as [apiParams Hload].
  destruct (GetAPIParams env (cookies c) w) as [ap w1]. cbn [fst snd] in Hload.
  rewrite Hload.
  destruct (generateRequestID w1) as [reqid w2].
  destruct (Marshal (Body req)) as [bodyJSON|]; [|discriminate].
  match goal with |- context [negb (NewRequest env ?r)] =>
    destruct (negb (NewRequest env r)); [discriminate|];
    destruct (Do env r) end; discriminate.
Qed.

Lemma unframe_no_panic (body : string) : unframe body <> Panic.
Proof.
  unfold unframe. destruct (first_chunk_total (strip_guard body)) as [text ->].
  cbn [bind]. apply payload_no_panic.
Qed.

Lemma readLoop_no_panic {H : Type} (handler : H -> string -> H * option string)
    (r : Http.reader) (h : H) (w : World) :
  fst (fst (readLoop handler r h w)) <> Panic.
Proof.
  pose proof (readLoop_feed handler r h w) as Hf.
  destruct (feed handler (chunks r) h) as [[seen h'] res].
  destruct Hf as (F1 & _). rewrite F1.
  destruct res; [discriminate|]. destruct (ending r); discriminate.
Qed.

(** X4.  Whatever calls came before in the process, neither [Execute] nor
    [Stream] panics: the pointer [GetAPIParams] returns is never nil and
    always leads to a struct, the index expressions of the unframe path
    are all in range, and the read loop indexes nothing. *)
Theorem transport_never_panics :
  forall (script : list (Env * call)) (env : Env) (c : Client) (req : Request),
    fst (Execute env c req (run script init)) <> Panic
    /\ forall (H : Type) (handler : H -> string -> H * option string) (h : H),
         fst (fst (Stream env c req handler h (run script init))) <> Panic.
Proof.
  intros script env c req.
  assert (Hinv : cache_filled (run script init))
    by apply (run_filled script init init_filled).
  split.
  - unfold Execute.
    pose proof (exchange_no_panic env c req acceptHeaders _ Hinv) as Hx.
    destruct (exchange env c req acceptHeaders (run script init)) as [[resp|e|] w'];
      cbn [fst] in *; [|discriminate|congruence].
    unfold receive. destruct (Http.ReadAll (Http.Body resp)) as [body [|]];
      [discriminate|].
    destruct (negb (Http.StatusCode resp =? Http.StatusOK)); [discriminate|].
    apply unframe_no_panic.
  - intros H handler h. unfold Stream.
    pose proof (exchange_no_panic env c req [] _ Hinv) as Hx.
    destruct (exchange env c req [] (run script init)) as [[resp|e|] w'];
      cbn [fst] in *; [|discriminate|congruence].
    destruct (negb (Http.StatusCode resp =? Http.StatusOK)).
    + destruct (Http.ReadAll (Http.Body resp)). discriminate.
    + apply readLoop_no_panic.
Qed.

(** ** Requests for the root page *)

Lemma page_gets_app (a b : list event) :
  page_gets (a ++ b) = (page_gets a + page_gets b)%nat.
Proof.
  induction a as [|e a IH]; cbn [page_gets List.app]; [reflexivity|].
  destruct e as [r|chunk]; [|exact IH].
  destruct (String.eqb (Http.Method r) "GET"); cbn; now rewrite IH.
Qed.

Lemma page_gets_delivered (l : list string) : page_gets (map Delivered l) = 0%nat.
Proof. induction l; cbn; auto. Qed.

Lemma resolution_gets (env : Env) (cookies : string) :
  (page_gets (snd (resolution env cookies)) <= 1)%nat.
Proof.
  unfold resolution.
  destruct (negb (is_empty (Getenv env "NLM_BUILD_VERSION"))
            && negb (is_empty (Getenv env "NLM_SESSION_ID"))); [cbn; lia|].
  destruct (is_empty cookies); [cbn; lia|].
  destruct (negb (NewRequest env (pageRequest cookies))); cbn; lia.
Qed.

Lemma GetAPIParams_gets (env : Env) (cookies : string) (w : World) (n : nat) :
  gets_within n w -> gets_within n (snd (GetAPIParams env cookies w)).
Proof.
  unfold gets_within. intros Hw.
  destruct (cachedParams w) as [p|] eqn:Hc.
  - rewrite (GetAPIParams_cached _ _ _ _ Hc). cbn [snd]. rewrite Hc. exact Hw.
  - rewrite (GetAPIParams_resolves _ _ _ Hc). cbn [snd cached_with trace cachedParams].
    rewrite page_gets_app. pose proof (resolution_gets env cookies). lia.
Qed.

Lemma gets_within_same (n : nat) (w w' : World) :
  cachedParams w' = cachedParams w ->
  page_gets (trace w') = page_gets (trace w) ->
  gets_within n w -> gets_within n w'.
Proof. unfold gets_within. intros -> ->. auto. Qed.

Lemma exchange_gets (env : Env) (c : Client) (req : Request)
    (extra : list (string * string)) (w : World) :
  page_gets (trace (snd (exchange env c req extra w)))
  = page_gets (trace (snd (GetAPIParams env (cookies c) w))).
Proof.
  unfold exchange.
  destruct (GetAPIParams env (cookies c) w) as [ap w1]. cbn [snd].
  destruct (load ap w1) as [apiParams|]; [|reflexivity].
  pose proof (generateRequestID_trace w1) as Ht.
  destruct (generateRequestID w1) as [reqid w2]. cbn [snd] in Ht.
  destruct (Marshal (Body req)) as [bodyJSON|]; cbn [snd]; [|now rewrite Ht].
  match goal with |- context [negb (NewRequest env ?r)] =>
    destruct (negb (NewRequest env r)); [cbn [snd]; now rewrite Ht|];
    destruct (Do env r) end;
    cbn [snd]; rewrite log_trace, page_gets_app, Ht; cbn; lia.
Qed.

Lemma perform_gets (env : Env) (k : call) (w : World) (n : nat) :
  gets_within n w ->
  gets_within (n + match k with CallClearAPIParamsCache => 1 | _ => 0 end)
              (perform env k w).
Proof.
  intros Hw. destruct k as [ck| |c req|H c req handler h]; cbn [perform].
  - rewrite Nat.add_0_r. now apply GetAPIParams_gets.
  - unfold gets_within in *. cbn. destruct (cachedParams w); lia.
  - rewrite Nat.add_0_r.
    apply gets_within_same with (snd (GetAPIParams env (cookies c) w));
      [| |now apply GetAPIParams_gets].
    + pose proof (exchange_store env c req acceptHeaders w) as [_ Hc].
      unfold Execute. destruct (exchange env c req acceptHeaders w) as [[resp|e|] w'];
        now rewrite Hc.
    + pose proof (exchange_gets env c req acceptHeaders w) as Hg.
      unfold Execute. destruct (exchange env c req acceptHeaders w) as [[resp|e|] w'];
        exact Hg.
  - rewrite Nat.add_0_r.
    apply gets_within_same with (snd (GetAPIParams env (cookies c) w));
      [| |now apply GetAPIParams_gets].
    + pose proof (exchange_store env c req [] w) as [_ Hc].
      unfold Stream. destruct (exchange env c req [] w) as [[resp|e|] w'];
        cbn [snd] in *; try (now rewrite Hc).
      destruct (negb (Http.StatusCode resp =? Http.StatusOK)).
      * destruct (Http.ReadAll (Http.Body resp)). now rewrite Hc.
      * pose proof (readLoop_feed handler (Http.Body resp) h w') as Hf.
        destruct (feed handler (chunks (Http.Body resp)) h) as [[seen h'] res].
        destruct Hf as (_ & _ & _ & _ & F5 & _). now rewrite F5, Hc.
    + pose proof (exchange_gets env c req [] w) as Hg.
      unfold Stream. destruct (exchange env c req [] w) as [[resp|e|] w'];
        cbn [snd] in *; try exact Hg.
      destruct (negb (Http.StatusCode resp =? Http.StatusOK)).
      * destruct (Http.ReadAll (Http.Body resp)). exact Hg.
      * pose proof (readLoop_feed handler (Http.Body resp) h w') as Hf.
        destruct (feed handler (chunks (Http.Body resp)) h) as [[seen h'] res].
        destruct Hf as (_ & _ & F3 & _).
        rewrite F3, page_gets_app, page_gets_delivered. lia.
Qed.

Lemma run_gets (script : list (Env * call)) (w : World) (n : nat) :
  gets_within n w -> gets_within (n + clears script) (run script w).
Proof.
  revert w n. induction script as [|[env k] rest IH]; intros w n Hw; cbn [run clears].
  - now rewrite Nat.add_0_r.
  - pose proof (perform_gets env k w n Hw) as Hp.
    apply IH in Hp.
    destruct k; rewrite ?Nat.add_0_r in Hp; try exact Hp.
    replace (n + S (clears rest))%nat with (n + 1 + clears rest)%nat by lia.
    exact Hp.
Qed.

(** X5.  In a sequential run from the start of the process the root page
    is requested at most once more than [ClearAPIParamsCache] was called,
    whatever the number of [GetAPIParams], [Execute] and [Stream] calls,
    their cookies and the answers they get: a fetch that failed is not
    tried again until the cache is cleared. *)
Theorem page_fetched_once_per_clear :
  forall (script : list (Env * call)),
    (page_gets (trace (run script init)) <= clears script + 1)%nat.
Proof.
  intros script.
  assert (H0 : gets_within 0 init) by (unfold gets_within; cbn; lia).
  pose proof (run_gets script init 0 H0) as Hr. unfold gets_within in Hr.
  destruct (cachedParams (run script init)); cbn [Nat.add] in Hr; lia.
Qed.

(** ** Success and early failure of [Execute] *)

Lemma payload_ok_inv (text s : string) :
  payload text = Ok s ->
  exists a b tl more, Unmarshal text = Some ((a :: b :: JString s :: tl) :: more).
Proof.
  unfold payload. destruct (Unmarshal text) as [outer|]; [|discriminate].
  destruct outer as [|first more]; cbn; [discriminate|].
  destruct first as [|a [|b [|x tl]]]; cbn; try discriminate.
  destruct x; try discriminate. intros H. injection H as ->.
  now exists a, b, tl, more.
Qed.

(** X6.  [Execute] returns a payload only if the round trip gave a
    response of status 200 whose body was read in full, and the text it
    took from that body (the second line-feed-delimited field after the
    guard, or the whole of it) parsed as an array of arrays with that very
    string at index 2 of its first element. *)
Theorem Execute_ok_only_from_200 :
  forall (env : Env) (c : Client) (req : Request) (w : World) (s : string),
    fst (Execute env c req w) = Ok s ->
    exists (resp : Http.Response) (body text : string) (a b : jvalue)
           (tl : list jvalue) (more : list (list jvalue)),
      fst (exchange env c req acceptHeaders w) = Ok resp
      /\ Http.StatusCode resp = 200
      /\ Http.ReadAll (Http.Body resp) = (body, false)
      /\ first_chunk (strip_guard body) = Ok text
      /\ Unmarshal text = Some ((a :: b :: JString s :: tl) :: more).
Proof.
  intros env c req w s. unfold Execute.
  destruct (exchange env c req acceptHeaders w) as [[resp|e|] w']; cbn [fst];
    [|discriminate|discriminate].
  unfold receive, Http.StatusOK.
  destruct (Http.ReadAll (Http.Body resp)) as [body [|]] eqn:Hread; [discriminate|].
  destruct (Http.StatusCode resp =? 200) eqn:Hs; cbn [negb]; [|discriminate].
  apply Z.eqb_eq in Hs. unfold unframe.
  destruct (first_chunk_total (strip_guard body)) as [text Htext].
  rewrite Htext. cbn [bind]. intros Hp.
  destruct (payload_ok_inv text s Hp) as (a & b & tl & more & Hu).
  exists resp, body, text, a, b, tl, more. repeat split; assumption.
Qed.

Lemma Execute_ok_only_from_200_witness :
  fst (Execute (answering 200 exemplar) client request init) = Ok payload_a1
  /\ exists (resp : Http.Response) (body text : string) (a b : jvalue)
            (tl : list jvalue) (more : list (list jvalue)),
       fst (exchange (answering 200 exemplar) client request acceptHeaders init) = Ok resp
       /\ Http.StatusCode resp = 200
       /\ Http.ReadAll (Http.Body resp) = (body, false)
       /\ first_chunk (strip_guard body) = Ok text
       /\ Unmarshal text = Some ((a :: b :: JString payload_a1 :: tl) :: more).
Proof.
  assert (H : fst (Execute (answering 200 exemplar) client request init) = Ok payload_a1)
    by (vm_compute; reflexivity).
  split; [exact H|].
  exact (Execute_ok_only_from_200 (answering 200 exemplar) client request init
           payload_a1 H).
Defined.

Lemma GetAPIParams_counter (env : Env) (cookies : string) (w : World) :
  requestCounter (snd (GetAPIParams env cookies w)) = requestCounter w
  /\ reqids (trace (snd (GetAPIParams env cookies w))) = reqids (trace w).
Proof.
  destruct (GetAPIParams_moves env cookies w) as [Hc [evs [Ht Hi]]].
  split; [lia|]. rewrite Ht, reqids_app, Hi. apply app_nil_r.
Qed.

Lemma exchange_unencodable (env : Env) (c : Client) (req : Request)
    (extra : list (string * string)) (w : World) :
  cache_filled w ->
  Marshal (Body req) = None ->
  fst (exchange env c req extra w) = Err EncodeError
  /\ requestCounter (snd (exchange env c req extra w)) = wrap (requestCounter w + 1)
  /\ reqids (trace (snd (exchange env c req extra w))) = reqids (trace w).
Proof.
  intros Hinv Henc. unfold exchange.
  destruct (GetAPIParams_loads env (cookies c) w Hinv) as [apiParams Hload].
  destruct (GetAPIParams_counter env (cookies c) w) as [Hc Hr].
  destruct (GetAPIParams env (cookies c) w) as [ap w1]. cbn [fst snd] in *.
  rewrite Hload, Henc. cbn [generateRequestID fst snd requestCounter trace].
  now rewrite Hc, Hr.
Qed.

(** X7.  A call whose request body [json.Marshal] rejects returns the
    encode error and sends no POST request, yet it has drawn its request
    id: the counter has moved by one, so the id is not used by any request.
    This holds for [Execute] and for [Stream], after any calls before. *)
Theorem unencodable_body_uses_up_an_id :
  forall (script : list (Env * call)) (env : Env) (c : Client) (req : Request),
    Marshal (Body req) = None ->
    let w := run script init in
    (fst (Execute env c req w) = Err EncodeError
     /\ requestCounter (snd (Execute env c req w)) = wrap (requestCounter w + 1)
     /\ reqids (trace (snd (Execute env c req w))) = reqids (trace w))
    /\ forall (H : Type) (handler : H -> string -> H * option string) (h : H),
         fst (Stream env c req handler h w) = (Err EncodeError, h)
         /\ requestCounter (snd (Stream env c req handler h w))
            = wrap (requestCounter w + 1)
         /\ reqids (trace (snd (Stream env c req handler h w))) = reqids (trace w).
Proof.
  intros script env c req Henc w.
  assert (Hinv : cache_filled w) by apply (run_filled script init init_filled).
  split.
  - destruct (exchange_unencodable env c req acceptHeaders w Hinv Henc) as (E1 & E2 & E3).
    unfold Execute.
    destruct (exchange env c req acceptHeaders w) as [o w']. cbn [fst snd] in *.
    subst o. now repeat split.
  - intros H handler h.
    destruct (exchange_unencodable env c req [] w Hinv Henc) as (E1 & E2 & E3).
    unfold Stream.
    destruct (exchange env c req [] w) as [o w']. cbn [fst snd] in *.
    subst o. now repeat split.
Qed.

Lemma unencodable_body_uses_up_an_id_witness :
  Marshal (Body unencodable) = None
  /\ fst (Execute (answering 200 exemplar) client unencodable init) = Err EncodeError
  /\ requestCounter (snd (Execute (answering 200 exemplar) client unencodable init)) = 1
  /\ reqids (trace (snd (Execute (answering 200 exemplar) client unencodable init))) = [].
Proof.
  split; [reflexivity|].
  destruct (proj1 (unencodable_body_uses_up_an_id [] (answering 200 exemplar) client
                     unencodable eq_refl)) as (E1 & E2 & E3).
  split; [exact E1|]. split; [exact E2|exact E3].
Defined.

(** ** What the unframe path does not look at *)

(** X8.  The unary unframe path reads nothing but the second
    line-feed-delimited field: two framed bodies with the same chunk give
    the same result whatever their first fields (the declared length is
    never compared with the chunk), whatever follows the chunk (later
    chunks are never inspected), whether or not the guard is there and
    however many line feeds follow it. *)
Theorem unframe_reads_second_field_only :
  forall (g g' : bool) (k k' : nat) (len len' chunk : string)
         (tail tail' : option string),
    free_of LF chunk = true ->
    free_of LF len = true ->
    free_of LF len' = true ->
    (if g then negb (Rpc.is_empty len) else negb (HasPrefix len guard)) = true ->
    (if g' then negb (Rpc.is_empty len') else negb (HasPrefix len' guard)) = true ->
    unframe (framed g k len chunk tail) = unframe (framed g' k' len' chunk tail').
Proof.
  intros g g' k k' len len' chunk tail tail' Hchunk Hlen Hlen' Hg Hg'.
  rewrite (unframe_framed g k len chunk tail Hlen Hchunk Hg).
  now rewrite (unframe_framed g' k' len' chunk tail' Hlen' Hchunk Hg').
Qed.

Lemma unframe_reads_second_field_only_witness :
  free_of LF envelope = true
  /\ free_of LF "31" = true
  /\ free_of LF "7" = true
  /\ negb (Rpc.is_empty "31") = true
  /\ negb (HasPrefix "7" guard) = true
  /\ unframe (framed true 1 "31" envelope (Some EmptyString))
     = unframe (framed false 0 "7" envelope (Some "25]]not json")).
Proof.
  do 5 (split; [reflexivity|]).
  apply (unframe_reads_second_field_only true false 1 0 "31" "7" envelope
           (Some EmptyString) (Some "25]]not json"));
    reflexivity.
Defined.

Lemma start_digit (acc : list token) (c : ascii) :
  is_digit c = true -> start acc c = Some (MNum (String c EmptyString), acc).
Proof.
  destruct c as [[] [] [] [] [] [] [] []]; intros H; try discriminate H; reflexivity.
Qed.

Lemma is_digit_numchar (c : ascii) : is_digit c = true -> is_numchar c = true.
Proof. unfold is_numchar. now intros ->. Qed.

Lemma lex_digits (ds : string) :
  forall (l : string) (acc : list token),
    all_digits ds = true ->
    lex (MNum l) acc ds = Some (rev (TNumber (l ++ ds)%string :: acc)).
Proof.
  induction ds as [|c t IH]; intros l acc H; cbn [all_digits lex finish] in *.
  - now rewrite append_empty_r.
  - apply andb_prop in H as [Hc Ht]. cbn [lex_step].
    rewrite (is_digit_numchar c Hc), (IH _ _ Ht). now rewrite snoc_app.
Qed.

Lemma Unmarshal_digits (c : ascii) (ds : string) :
  all_digits (String c ds) = true -> Unmarshal (String c ds) = None.
Proof.
  cbn [all_digits]. intros H. apply andb_prop in H as [Hc Hds].
  unfold Unmarshal, decode. cbn [lex lex_step].
  rewrite (start_digit [] c Hc), (lex_digits ds _ [] Hds).
  cbn [rev List.app Decode.run step begin_value].
  unfold number_value.
  destruct (scan_number (String c EmptyString ++ ds)) as [[m e]|]; [|reflexivity].
  destruct (float64_in_range m e); reflexivity.
Qed.

(** X9.  Line feeds at the head of a body are dropped only after the
    guard.  Without the guard a body that begins with a line feed has the
    empty string as its first field, so the text parsed as the envelope is
    the line that follows, whatever comes after it; when that line is a
    decimal length, the result is the parse error. *)
Theorem unframe_blank_first_line :
  forall (line rest : string),
    free_of LF line = true ->
    unframe (nl ++ line ++ nl ++ rest) = payload line
    /\ (all_digits line = true -> line <> EmptyString ->
        unframe (nl ++ line ++ nl ++ rest) = Err ParseOuterError).
Proof.
  intros line rest Hline.
  assert (Hu : unframe (nl ++ line ++ nl ++ rest) = payload line).
  { assert (Hs : strip_guard (nl ++ line ++ nl ++ rest)
                 = (nl ++ line ++ nl ++ rest)%string) by reflexivity.
    assert (Hc : cut (nl ++ line ++ nl ++ rest) LF
                 = Some (EmptyString, (line ++ nl ++ rest)%string)) by reflexivity.
    unfold unframe. rewrite Hs. unfold first_chunk. cbn [SplitN]. rewrite Hc.
    unfold nl. cbn [String.append]. rewrite (cut_at LF line rest Hline).
    reflexivity. }
  split; [exact Hu|].
  intros Hd Hne. rewrite Hu. unfold payload.
  destruct line as [|c ds]; [congruence|]. now rewrite (Unmarshal_digits c ds Hd).
Qed.

Lemma unframe_blank_first_line_witness :
  free_of LF "31" = true
  /\ all_digits "31" = true
  /\ unframe (nl ++ "31" ++ nl ++ envelope ++ nl) = Err ParseOuterError.
Proof.
  split; [reflexivity|]. split; [reflexivity|].
  apply (proj2 (unframe_blank_first_line "31" (envelope ++ nl) eq_refl));
    [reflexivity|discriminate].
Defined.

(** ** The request both transports send *)

Lemma posts_app (a b : list event) : posts (a ++ b) = posts a ++ posts b.
Proof.
  induction a as [|e a IH]; cbn [posts List.app]; [reflexivity|].
  destruct e as [r|chunk]; [|exact IH].
  destruct (String.eqb (Http.Method r) "POST"); cbn; now rewrite IH.
Qed.

Lemma posts_delivered (l : list string) : posts (map Delivered l) = [].
Proof. induction l; cbn; auto. Qed.

Lemma GetAPIParams_posts (env : Env) (cookies : string) (w : World) :
  posts (trace (snd (GetAPIParams env cookies w))) = posts (trace w).
Proof.
  destruct (cachedParams w) as [p|] eqn:Hc.
  - now rewrite (GetAPIParams_cached _ _ _ _ Hc).
  - rewrite (GetAPIParams_resolves _ _ _ Hc). cbn [snd cached_with trace].
    rewrite posts_app.
    assert (Hr : posts (snd (resolution env cookies)) = []).
    { unfold resolution.
      destruct (negb (is_empty (Getenv env "NLM_BUILD_VERSION"))
                && negb (is_empty (Getenv env "NLM_SESSION_ID"))); [reflexivity|].
      destruct (is_empty cookies); [reflexivity|].
      destruct (negb (NewRequest env (pageRequest cookies))); reflexivity. }
    rewrite Hr. apply app_nil_r.
Qed.

Lemma exchange_sends (env : Env) (c : Client) (req : Request)
    (extra : list (string * string)) (w : World) (bodyJSON : string) :
  cache_filled w ->
  Marshal (Body req) = Some bodyJSON ->
  (forall r, NewRequest env r = true) ->
  exists apiParams,
    load (fst (GetAPIParams env (cookies c) w)) (snd (GetAPIParams env (cookies c) w))
    = Some apiParams
    /\ posts (trace (snd (exchange env c req extra w)))
       = posts (trace w)
         ++ [post c req apiParams
               (fst (generateRequestID (snd (GetAPIParams env (cookies c) w))))
               bodyJSON extra].
Proof.
  intros Hinv Henc Hnew. unfold exchange.
  destruct (GetAPIParams_loads env (cookies c) w Hinv) as [apiParams Hload].
  pose proof (GetAPIParams_posts env (cookies c) w) as Hp.
  destruct (GetAPIParams env (cookies c) w) as [ap w1]. cbn [fst snd] in *.
  exists apiParams. split; [exact Hload|]. rewrite Hload.
  pose proof (generateRequestID_trace w1) as Ht.
  destruct (generateRequestID w1) as [reqid w2]. cbn [fst snd] in *.
  rewrite Henc, Hnew. cbn [negb].
  match goal with |- context [Do env ?r] => destruct (Do env r) end;
    cbn [snd]; rewrite log_trace, posts_app, Ht, Hp; reflexivity.
Qed.

(** X10.  From the same state, with a body that encodes and a URL that is
    accepted, [Execute] and [Stream] each send exactly one POST request,
    and the two requests agree in URL, query parameters and form fields:
    [bl] and [f.sid] are the fields of the struct [GetAPIParams] returns,
    [_reqid] the id drawn, [f.req] the JSON text of the body, [at] the
    auth token.  They differ in their headers only: [Execute] adds
    [Accept] and [Accept-Language], [Stream] does not. *)
Theorem transports_send_the_same_request :
  forall (script : list (Env * call)) (env : Env) (c : Client) (req : Request)
         (bodyJSON : string),
    Marshal (Body req) = Some bodyJSON ->
    (forall r, NewRequest env r = true) ->
    let w := run script init in
    exists (apiParams : APIParams) (reqid : Z),
      load (fst (GetAPIParams env (cookies c) w)) (snd (GetAPIParams env (cookies c) w))
      = Some apiParams
      /\ posts (trace (snd (Execute env c req w)))
         = posts (trace w) ++ [post c req apiParams reqid bodyJSON acceptHeaders]
      /\ (forall (H : Type) (handler : H -> string -> H * option string) (h : H),
            posts (trace (snd (Stream env c req handler h w)))
            = posts (trace w) ++ [post c req apiParams reqid bodyJSON []])
      /\ Http.Query (post c req apiParams reqid bodyJSON [])
         = [("bl", BuildVersion apiParams); ("f.sid", SessionID apiParams);
            ("hl", "en"); ("_reqid", itoa reqid); ("rt", "c")]%string
      /\ Http.Form (post c req apiParams reqid bodyJSON [])
         = [("f.req", bodyJSON); ("at", authToken c)]%string
      /\ Http.Header (post c req apiParams reqid bodyJSON acceptHeaders)
         = Http.Header (post c req apiParams reqid bodyJSON [])
           ++ [("Accept", "*/*"); ("Accept-Language", "en-US,en;q=0.9")]%string.
Proof.
  intros script env c req bodyJSON Henc Hnew w.
  assert (Hinv : cache_filled w) by apply (run_filled script init init_filled).
  destruct (exchange_sends env c req acceptHeaders w bodyJSON Hinv Henc Hnew)
    as [apiParams [Hload HE]].
  destruct (exchange_sends env c req [] w bodyJSON Hinv Henc Hnew)
    as [apiParams' [Hload' HS]].
  rewrite Hload in Hload'. injection Hload' as <-.
  exists apiParams, (fst (generateRequestID (snd (GetAPIParams env (cookies c) w)))).
  split; [exact Hload|]. split; [|split; [|repeat split]].
  - unfold Execute. destruct (exchange env c req acceptHeaders w) as [[resp|e|] w'];
      exact HE.
  - intros H handler h. unfold Stream.
    destruct (exchange env c req [] w) as [[resp|e|] w']; cbn [snd] in *; try exact HS.
    destruct (negb (Http.StatusCode resp =? Http.StatusOK)).
    + destruct (Http.ReadAll (Http.Body resp)). exact HS.
    + pose proof (readLoop_feed handler (Http.Body resp) h w') as Hf.
      destruct (feed handler (chunks (Http.Body resp)) h) as [[seen h'] res].
      destruct Hf as (_ & _ & F3 & _).
      rewrite F3, posts_app, posts_delivered, app_nil_r. exact HS.
Qed.

Lemma transports_send_the_same_request_witness :
  Marshal (Body request)
  = Some (bq "[[[[`src1`]]],null,null,null,null,[`do_it`,[[`[CONTEXT]`,``]],``],null,[2,null,[1]]]")
  /\ (forall r, NewRequest offline r = true)
  /\ exists (apiParams : APIParams) (reqid : Z),
       posts (trace (snd (Execute offline client request init)))
       = [post client request apiParams reqid
            (bq "[[[[`src1`]]],null,null,null,null,[`do_it`,[[`[CONTEXT]`,``]],``],null,[2,null,[1]]]")
            acceptHeaders]
       /\ posts (trace (snd (Stream offline client request gather EmptyString init)))
          = [post client request apiParams reqid
               (bq "[[[[`src1`]]],null,null,null,null,[`do_it`,[[`[CONTEXT]`,``]],``],null,[2,null,[1]]]")
               []].
Proof.
  assert (Henc : Marshal (Body request)
                 = Some (bq "[[[[`src1`]]],null,null,null,null,[`do_it`,[[`[CONTEXT]`,``]],``],null,[2,null,[1]]]"))
    by (vm_compute; reflexivity).
  assert (Hnew : forall r, NewRequest offline r = true) by reflexivity.
  split; [exact Henc|]. split; [exact Hnew|].
  destruct (transports_send_the_same_request [] offline client request _ Henc Hnew)
    as (apiParams & reqid & _ & HE & HS & _).
  exists apiParams, reqid. split; [exact HE|exact (HS string gather EmptyString)].
Defined.

(** ** When [GetAPIParams] uses the override and the network *)

(** X11.  The override counts only when both variables are set: on an
    empty cache, with [NLM_BUILD_VERSION] or [NLM_SESSION_ID] missing, the
    other one is ignored altogether, and [GetAPIParams] does what it does
    with neither set. *)
Theorem lone_override_is_ignored :
  forall (env : Env) (cookies : string) (w : World),
    cachedParams w = None ->
    Getenv env "NLM_BUILD_VERSION" = EmptyString
    \/ Getenv env "NLM_SESSION_ID" = EmptyString ->
    GetAPIParams env cookies w = GetAPIParams (unset env) cookies w.
Proof.
  intros env cookies w Hc Hone.
  rewrite (GetAPIParams_resolves env cookies w Hc).
  rewrite (GetAPIParams_resolves (unset env) cookies w Hc).
  assert (Hr : resolution env cookies = resolution (unset env) cookies).
  { unfold resolution.
    assert (Hov : negb (is_empty (Getenv env "NLM_BUILD_VERSION"))
                  && negb (is_empty (Getenv env "NLM_SESSION_ID")) = false).
    { destruct Hone as [-> | ->]; cbn; [reflexivity|apply andb_false_r]. }
    rewrite Hov. reflexivity. }
  now rewrite Hr.
Qed.

Lemma lone_override_is_ignored_witness :
  cachedParams init = None
  /\ (Getenv half_overridden "NLM_BUILD_VERSION" = EmptyString
      \/ Getenv half_overridden "NLM_SESSION_ID" = EmptyString)
  /\ load (fst (GetAPIParams half_overridden EmptyString init))
          (snd (GetAPIParams half_overridden EmptyString init))
     = Some defaults.
Proof.
  split; [reflexivity|]. split; [right; reflexivity|].
  rewrite (lone_override_is_ignored half_overridden EmptyString init eq_refl
             (or_intror eq_refl)).
  reflexivity.
Defined.

(** X12.  [GetAPIParams] sends a request in one case only: the cache is
    empty, the override is not complete, the cookies are not empty (and
    the request can be built).  It then sends exactly one GET of the root
    page with the cookies in its [Cookie] header; in every other case it
    adds no event at all. *)
Theorem GetAPIParams_fetches_only_when_needed :
  forall (env : Env) (cookies : string) (w : World),
    trace (snd (GetAPIParams env cookies w))
    = trace w
      ++ (if match cachedParams w with Some _ => false | None => true end
             && negb (negb (is_empty (Getenv env "NLM_BUILD_VERSION"))
                      && negb (is_empty (Getenv env "NLM_SESSION_ID")))
             && negb (is_empty cookies)
             && NewRequest env (pageRequest cookies)
          then [Sent (pageRequest cookies)]
          else [])
    /\ Http.lookup "Cookie" (Http.Header (pageRequest cookies)) = Some cookies
    /\ Http.Method (pageRequest cookies) = "GET"%string
    /\ Http.URL (pageRequest cookies) = "https://notebooklm.google.com/"%string.
Proof.
  intros env cookies w. split; [|repeat split].
  destruct (cachedParams w) as [p|] eqn:Hc.
  - rewrite (GetAPIParams_cached _ _ _ _ Hc). cbn. now rewrite app_nil_r.
  - rewrite (GetAPIParams_resolves _ _ _ Hc). cbn [snd cached_with trace andb].
    f_equal. unfold resolution.
    destruct (negb (is_empty (Getenv env "NLM_BUILD_VERSION"))
              && negb (is_empty (Getenv env "NLM_SESSION_ID"))); [reflexivity|].
    destruct (is_empty cookies); [reflexivity|].
    destruct (NewRequest env (pageRequest cookies)); reflexivity.
Qed.

(** ** The chat request *)

Lemma Marshal_strings (l : list string) :
  Marshal (Slice (map Str l)) = Some ("[" ++ String.concat "," (map quote l) ++ "]")%string.
Proof.
  cbn [Marshal].
  assert (H : (fix items (l : list value) : option (list string) :=
                 match l with
                 | [] => Some []
                 | x :: r =>
                     match Marshal x, items r with
                     | Some a, Some b => Some (a :: b)
                     | _, _ => None
                     end
                 end) (map Str l) = Some (map quote l)).
  { induction l as [|x l IH]; cbn; [reflexivity|]. now rewrite IH. }
  now rewrite H.
Qed.

Lemma Marshal_collect (ids : list string) : Marshal (collect ids) = Some (ids_text ids).
Proof.
  destruct ids as [|sid ids]; [reflexivity|].
  rewrite collect_cons. apply Marshal_strings.
Qed.

Lemma Marshal_innerArray (ids : list string) (prompt : string) :
  Marshal (innerArray ids prompt) = Some (chat_text ids prompt).
Proof.
  unfold innerArray, chat_text. cbn [Marshal]. rewrite Marshal_collect.
  cbn [String.concat]. f_equal.
  change (itoa 2) with "2"%string. change (itoa 1) with "1"%string.
  cbn [String.concat String.append].
  repeat (rewrite !app_assoc_s; cbn [String.append]). reflexivity.
Qed.

Lemma BuildChatRequest_eq (ids : list string) (prompt : string) :
  BuildChatRequest ids prompt = Slice [Nil; Str (chat_text ids prompt)].
Proof. unfold BuildChatRequest. now rewrite Marshal_innerArray. Qed.

Lemma Marshal_BuildChatRequest (ids : list string) (prompt : string) :
  Marshal (BuildChatRequest ids prompt)
  = Some ("[null," ++ quote (chat_text ids prompt) ++ "]")%string.
Proof.
  rewrite BuildChatRequest_eq. cbn [Marshal String.concat].
  repeat (rewrite !app_assoc_s; cbn [String.append]). reflexivity.
Qed.

(** X13.  [BuildChatRequest] never loses its inner array to the error it
    drops: for every list of source ids and every prompt the inner array
    encodes, and the result is the pair of nil and the text
    [[[[ids]]],prompt,null,[2,null,[1]]] with the ids and the prompt as
    JSON strings; with no source id the innermost position is [null], not
    an empty array.  The result itself encodes as the array of [null] and
    that text as a JSON string. *)
Theorem BuildChatRequest_text :
  forall (ids : list string) (prompt : string),
    BuildChatRequest ids prompt = Slice [Nil; Str (chat_text ids prompt)]
    /\ Marshal (BuildChatRequest ids prompt)
       = Some ("[null," ++ quote (chat_text ids prompt) ++ "]")%string.
Proof.
  intros ids prompt. split;
    [apply BuildChatRequest_eq | apply Marshal_BuildChatRequest].
Qed.

(** *** Reading the chat request back *)

Lemma ascii_only_app (a b : string) :
  Utf8.ascii_only (a ++ b) = Utf8.ascii_only a && Utf8.ascii_only b.
Proof.
  induction a as [|c a IH]; cbn [Utf8.ascii_only String.append]; [reflexivity|].
  rewrite IH. now rewrite andb_assoc.
Qed.

Lemma escape_ascii (c : ascii) :
  Utf8.byte_in 0 127 c = true -> Utf8.ascii_only (escape c) = true.
Proof.
  destruct c as [[] [] [] [] [] [] [] []]; intros H; try discriminate H; reflexivity.
Qed.

Lemma quote_ascii (s : string) :
  Utf8.ascii_only s = true -> Utf8.ascii_only (quote s) = true.
Proof.
  intros H. unfold quote. cbn [Utf8.ascii_only]. rewrite ascii_only_app.
  cbn. rewrite andb_true_r.
  induction s as [|c t IH]; cbn [Utf8.ascii_only quote_body] in *; [reflexivity|].
  apply andb_prop in H as [Hc Ht]. rewrite Hc.
  now rewrite ascii_only_app, (escape_ascii c Hc), (IH Ht).
Qed.

Lemma concat_quotes (sid : string) (rest : list string) :
  String.concat "," (map quote (sid :: rest)) = (quote sid ++ commas rest)%string.
Proof.
  revert sid. induction rest as [|r rest IH]; intros sid.
  - cbn. now rewrite append_empty_r.
  - change (String.concat "," (map quote (sid :: r :: rest)))
      with (quote sid ++ "," ++ String.concat "," (map quote (r :: rest)))%string.
    rewrite IH. reflexivity.
Qed.

Lemma commas_ascii (ids : list string) :
  forallb Utf8.ascii_only ids = true -> Utf8.ascii_only (commas ids) = true.
Proof.
  induction ids as [|r rest IH]; cbn [forallb commas fold_right]; [reflexivity|].
  intros H. apply andb_prop in H as [Hr Hrest].
  fold (commas rest). cbn [String.append Utf8.ascii_only].
  now rewrite ascii_only_app, (quote_ascii r Hr), (IH Hrest).
Qed.

Lemma chat_text_ascii (ids : list string) (prompt : string) :
  forallb Utf8.ascii_only ids = true ->
  Utf8.ascii_only prompt = true ->
  Utf8.ascii_only (chat_text ids prompt) = true.
Proof.
  intros Hids Hp. unfold chat_text, ids_text.
  destruct ids as [|sid rest].
  - rewrite !ascii_only_app, (quote_ascii _ Hp). reflexivity.
  - cbn [forallb] in Hids. apply andb_prop in Hids as [Hs Hrest].
    rewrite concat_quotes.
    rewrite !ascii_only_app, (quote_ascii _ Hs), (commas_ascii _ Hrest), (quote_ascii _ Hp).
    reflexivity.
Qed.

Lemma lex_commas (rest : list string) :
  forall (acc : list token) (X : string),
    forallb Utf8.ascii_only rest = true ->
    lex MTop acc (commas rest ++ X) = lex MTop (rev (more_tokens rest) ++ acc) X.
Proof.
  induction rest as [|r rest IH]; intros acc X H; cbn [forallb] in H.
  - reflexivity.
  - apply andb_prop in H as [Hr Hrest].
    cbn [commas fold_right]. fold (commas rest).
    rewrite !app_assoc_s.
    change (lex MTop acc ("," ++ quote r ++ commas rest ++ X))
      with (lex MTop (TComma :: acc) (quote r ++ commas rest ++ X)).
    rewrite (lex_quote r _ _ Hr), (IH _ _ Hrest).
    cbn [more_tokens flat_map List.app rev]. fold (more_tokens rest).
    now rewrite <- !app_assoc.
Qed.

Lemma run_more_tokens (rest : list string) :
  forall (done : list jvalue) (st : list frame) (T : list token),
    forallb Utf8.ascii_only rest = true ->
    Decode.run (SMore (FArray done :: st)) (more_tokens rest ++ T)
    = Decode.run (SMore (FArray (done ++ map JString rest) :: st)) T.
Proof.
  induction rest as [|r rest IH]; intros done st T H; cbn [forallb] in H.
  - cbn. now rewrite app_nil_r.
  - apply andb_prop in H as [Hr Hrest].
    destruct (quote_body_inverse r Hr) as (_ & _ & Hu).
    cbn [more_tokens flat_map List.app Decode.run step begin_value].
    rewrite Hu. cbn [option_map close]. fold (more_tokens rest).
    rewrite (IH _ _ _ Hrest). cbn [map]. now rewrite <- app_assoc.
Qed.

Lemma lex_end (acc : list token) : lex MTop acc EmptyString = Some (rev acc).
Proof. reflexivity. Qed.

Lemma run_app (a b : list token) :
  forall s : pstate,
    Decode.run s (a ++ b)
    = match Decode.run s a with
      | Some s' => Decode.run s' b
      | None => None
      end.
Proof.
  induction a as [|t a IH]; intros s; cbn [Decode.run List.app]; [reflexivity|].
  destruct (step s t); [apply IH|reflexivity].
Qed.

(** The tokens after the source ids: three closing brackets, the prompt
    and the fixed tail. *)
Lemma lex_chat_tail (prompt : string) (acc : list token) :
  Utf8.ascii_only prompt = true ->
  lex MTop acc ("]]," ++ quote prompt ++ ",null,[2,null,[1]]]")
  = Some (rev acc
          ++ [TRBracket; TRBracket; TComma; TString (quote_body false 0 prompt);
              TComma; TWord "null"; TComma; TLBracket; TNumber "2"; TComma;
              TWord "null"; TComma; TLBracket; TNumber "1"; TRBracket; TRBracket;
              TRBracket]).
Proof.
  intros Hp.
  change (lex MTop acc ("]]," ++ quote prompt ++ ",null,[2,null,[1]]]"))
    with (lex MTop (TComma :: TRBracket :: TRBracket :: acc)
            (quote prompt ++ ",null,[2,null,[1]]]")).
  rewrite (lex_quote prompt _ _ Hp).
  rewrite (lex_app ",null,[2,null,[1]]]" EmptyString).
  replace (lex_run MTop
             (TString (quote_body false 0 prompt) :: TComma :: TRBracket :: TRBracket :: acc)
             ",null,[2,null,[1]]]")
    with (Some (MTop,
                [TRBracket; TRBracket; TRBracket; TNumber "1"; TLBracket; TComma;
                 TWord "null"; TComma; TNumber "2"; TLBracket; TComma; TWord "null";
                 TComma; TString (quote_body false 0 prompt); TComma; TRBracket;
                 TRBracket] ++ acc))
    by reflexivity.
  rewrite lex_end, rev_app_distr. reflexivity.
Qed.

(** The parser on those tokens, inside the three brackets that hold the
    source ids. *)
Lemma run_chat_tail (prompt : string) (v : jvalue) (T : list token) :
  Utf8.ascii_only prompt = true ->
  Decode.run (close [FArray []; FArray []; FArray []] v)
    [TRBracket; TRBracket; TComma; TString (quote_body false 0 prompt);
     TComma; TWord "null"; TComma; TLBracket; TNumber "2"; TComma;
     TWord "null"; TComma; TLBracket; TNumber "1"; TRBracket; TRBracket;
     TRBracket]
  = Some (SDone (JArray [JArray [JArray [v]]; JString prompt; JNull;
                         JArray [JNumber "2"; JNull; JArray [JNumber "1"]]])).
Proof.
  intros Hp. destruct (quote_body_inverse prompt Hp) as (_ & _ & Hu).
  cbn [close List.app Decode.run step begin_value].
  rewrite Hu.
  replace (number_value "2") with (Some (JNumber "2")) by (vm_compute; reflexivity).
  replace (number_value "1") with (Some (JNumber "1")) by (vm_compute; reflexivity).
  reflexivity.
Qed.

Lemma lex_chat_text_nil (prompt : string) :
  Utf8.ascii_only prompt = true ->
  lex MTop [] (chat_text [] prompt)
  = Some ([TLBracket; TLBracket; TLBracket; TWord "null"] ++ chat_tail_tokens prompt).
Proof.
  intros Hp. unfold chat_text, ids_text.
  rewrite (lex_app "[[[" _).
  replace (lex_run MTop [] "[[[") with (Some (MTop, [TLBracket; TLBracket; TLBracket]))
    by reflexivity.
  cbv beta iota.
  rewrite (lex_app "null" _).
  replace (lex_run MTop [TLBracket; TLBracket; TLBracket] "null")
    with (Some (MWord "null", [TLBracket; TLBracket; TLBracket])) by reflexivity.
  cbv beta iota.
  change (lex (MWord "null") [TLBracket; TLBracket; TLBracket]
            ("]]," ++ quote prompt ++ ",null,[2,null,[1]]]"))
    with (lex MTop [TWord "null"; TLBracket; TLBracket; TLBracket]
            ("]]," ++ quote prompt ++ ",null,[2,null,[1]]]")).
  now rewrite (lex_chat_tail prompt _ Hp).
Qed.

Lemma lex_chat_text_cons (sid : string) (rest : list string) (prompt : string) :
  Utf8.ascii_only sid = true ->
  forallb Utf8.ascii_only rest = true ->
  Utf8.ascii_only prompt = true ->
  lex MTop [] (chat_text (sid :: rest) prompt)
  = Some ([TLBracket; TLBracket; TLBracket; TLBracket; TString (quote_body false 0 sid)]
          ++ more_tokens rest ++ TRBracket :: chat_tail_tokens prompt).
Proof.
  intros Hs Hrest Hp. unfold chat_text, ids_text.
  rewrite concat_quotes.
  rewrite (lex_app "[[[" _).
  replace (lex_run MTop [] "[[[") with (Some (MTop, [TLBracket; TLBracket; TLBracket]))
    by reflexivity.
  cbv beta iota.
  rewrite !app_assoc_s.
  change (lex MTop [TLBracket; TLBracket; TLBracket]
            ("[" ++ quote sid ++ commas rest ++ "]" ++ "]]," ++ quote prompt
             ++ ",null,[2,null,[1]]]"))
    with (lex MTop [TLBracket; TLBracket; TLBracket; TLBracket]
            (quote sid ++ commas rest ++ "]" ++ "]]," ++ quote prompt
             ++ ",null,[2,null,[1]]]")).
  rewrite (lex_quote sid _ _ Hs), (lex_commas rest _ _ Hrest).
  match goal with
  | |- context [lex MTop ?acc ("]" ++ ?Y)] =>
      change (lex MTop acc ("]" ++ Y)) with (lex MTop (TRBracket :: acc) Y)
  end.
  rewrite (lex_chat_tail prompt _ Hp).
  cbn [rev]. rewrite rev_app_distr, rev_involutive. cbn [rev List.app].
  rewrite <- !app_assoc. reflexivity.
Qed.

Lemma decode_chat_text (ids : list string) (prompt : string) :
  forallb Utf8.ascii_only ids = true ->
  Utf8.ascii_only prompt = true ->
  decode (chat_text ids prompt)
  = Some (JArray [JArray [JArray [ids_value ids]]; JString prompt; JNull;
                  JArray [JNumber "2"; JNull; JArray [JNumber "1"]]]).
Proof.
  intros Hids Hp. unfold decode, ids_value.
  destruct ids as [|sid rest].
  - rewrite (lex_chat_text_nil prompt Hp), run_app.
    replace (Decode.run (SValue []) [TLBracket; TLBracket; TLBracket; TWord "null"])
      with (Some (close [FArray []; FArray []; FArray []] JNull)) by reflexivity.
    unfold chat_tail_tokens. now rewrite (run_chat_tail prompt JNull [] Hp).
  - cbn [forallb] in Hids. apply andb_prop in Hids as [Hs Hrest].
    destruct (quote_body_inverse sid Hs) as (_ & _ & Hu).
    rewrite (lex_chat_text_cons sid rest prompt Hs Hrest Hp), run_app.
    replace (Decode.run (SValue [])
               [TLBracket; TLBracket; TLBracket; TLBracket;
                TString (quote_body false 0 sid)])
      with (Some (SMore [FArray [JString sid]; FArray []; FArray []; FArray []])).
    2:{ cbn -[string_value]. rewrite Hu. reflexivity. }
    rewrite (run_more_tokens rest _ _ _ Hrest).
    cbn [Decode.run step].
    change ([JString sid] ++ map JString rest) with (map JString (sid :: rest)).
    unfold chat_tail_tokens.
    now rewrite (run_chat_tail prompt (JArray (map JString (sid :: rest))) [] Hp).
Qed.

(** X14.  The request [BuildChatRequest] builds reads back: for source ids
    and a prompt of bytes below [0x80], the text [json.Marshal] writes for
    it (the [f.req] field) decodes to the array of [null] and a string,
    and that string decodes to the array of the source ids wrapped three
    times, the prompt, [null] and [2, null, [1]].  With no source id the
    innermost value read back is [null]. *)
Theorem BuildChatRequest_reads_back :
  forall (ids : list string) (prompt : string),
    forallb Utf8.ascii_only ids = true ->
    Utf8.ascii_only prompt = true ->
    exists (freq inner : string),
      Marshal (BuildChatRequest ids prompt) = Some freq
      /\ decode freq = Some (JArray [JNull; JString inner])
      /\ decode inner
         = Some (JArray [JArray [JArray [ids_value ids]]; JString prompt; JNull;
                         JArray [JNumber "2"; JNull; JArray [JNumber "1"]]]).
Proof.
  intros ids prompt Hids Hp.
  exists ("[null," ++ quote (chat_text ids prompt) ++ "]")%string, (chat_text ids prompt).
  split; [apply Marshal_BuildChatRequest|].
  split; [|now apply decode_chat_text].
  pose proof (chat_text_ascii ids prompt Hids Hp) as Ha.
  destruct (quote_body_inverse _ Ha) as (_ & _ & Hu).
  unfold decode. rewrite (lex_app "[null," _).
  replace (lex_run MTop [] "[null,") with (Some (MTop, [TComma; TWord "null"; TLBracket]))
    by reflexivity.
  cbv beta iota. rewrite (lex_quote _ _ _ Ha).
  change (lex MTop [TString (quote_body false 0 (chat_text ids prompt)); TComma;
                    TWord "null"; TLBracket] "]")
    with (Some [TLBracket; TWord "null"; TComma;
                TString (quote_body false 0 (chat_text ids prompt)); TRBracket]).
  cbn -[string_value chat_text quote_body]. rewrite Hu. reflexivity.
Qed.

Lemma BuildChatRequest_reads_back_witness :
  forallb Utf8.ascii_only ["src1"; "src2"]%string = true
  /\ Utf8.ascii_only "hello" = true
  /\ exists (freq inner : string),
       Marshal (BuildChatRequest ["src1"; "src2"]%string "hello") = Some freq
       /\ decode freq = Some (JArray [JNull; JString inner])
       /\ decode inner
          = Some (JArray [JArray [JArray [JArray [JString "src1"; JString "src2"]]];
                          JString "hello"; JNull;
                          JArray [JNumber "2"; JNull; JArray [JNumber "1"]]]).
Proof.
  split; [reflexivity|]. split; [reflexivity|].
  exact (BuildChatRequest_reads_back ["src1"; "src2"]%string "hello" eq_refl eq_refl).
Defined.

(** ** The encoders on the wire *)

(** X15.  Both encoders always give something [json.Marshal] accepts, and
    the text is known for every input: the source ids as JSON strings
    inside the brackets of slot 0, or [null] in their place when there is
    none, then the fixed slots with the action or the prompt as a JSON
    string.  A backquote stands for a double quote below. *)
Theorem encoders_always_encode :
  forall (ids : list string) (text : string),
    Marshal (Slice (EncodeActOnSourcesArgs
                      {| ActOnSources_SourceIds := ids; ActOnSources_Action := text |}))
    = Some ("[[[" ++ ids_text ids ++ "]],null,null,null,null,[" ++ quote text
            ++ bq ",[[`[CONTEXT]`,``]],``],null,[2,null,[1]]]")%string
    /\ Marshal (Slice (EncodeGenerateFreeFormStreamedArgs
                         {| FreeForm_SourceIds := ids; FreeForm_Prompt := text |}))
       = Some ("[[" ++ ids_text ids ++ "]," ++ quote text
               ++ ",null,null,null,null,null,[2,null,[1]]]")%string.
Proof.
  intros ids text. split.
  - unfold EncodeActOnSourcesArgs. cbn [Marshal ActOnSources_SourceIds ActOnSources_Action].
    rewrite Marshal_collect. unfold metadata. cbn [Marshal String.concat].
    change (itoa 2) with "2"%string. change (itoa 1) with "1"%string.
    change (quote EmptyString) with (bq "``").
    change (quote "[CONTEXT]") with (bq "`[CONTEXT]`").
    cbn [String.concat String.append bq].
    repeat (rewrite !app_assoc_s; cbn [String.append]). reflexivity.
  - unfold EncodeGenerateFreeFormStreamedArgs.
    cbn [Marshal FreeForm_SourceIds FreeForm_Prompt].
    rewrite Marshal_collect. unfold metadata. cbn [Marshal String.concat].
    change (itoa 2) with "2"%string. change (itoa 1) with "1"%string.
    cbn [String.concat String.append].
    repeat (rewrite !app_assoc_s; cbn [String.append]). reflexivity.
Qed.

(** ** The batchexecute client *)

Lemma set_same (m : RpcClient.gomap) (k v : string) : RpcClient.set m k v k = Some v.
Proof. unfold RpcClient.set. now rewrite String.eqb_refl. Qed.

Lemma set_other (m : RpcClient.gomap) (k v k' : string) :
  k' <> k -> RpcClient.set m k v k' = m k'.
Proof. unfold RpcClient.set. intros H. apply String.eqb_neq in H. now rewrite H. Qed.

(** X16.  After any calls before, [New] does not panic and leaves the
    cache filled; the client it returns carries as [bl] and [f.sid] the
    two fields of the cached struct, neither of them empty, and [hl=en].
    Every call [Do] then hands to the batchexecute client has those three
    parameters unchanged, the id and arguments of the call, the index
    [generic], and [source-path] set to [/notebook/] followed by the
    notebook id, or to [/] when there is none, whatever the configuration
    held under that name. *)
Theorem New_client_carries_session :
  forall (script : list (Env * call)) (newClient : RpcClient.Config -> RpcClient.RPC -> option string)
         (env : Env) (authToken cookies : string),
    let r := RpcClient.New newClient env authToken cookies (run script init) in
    exists (c : RpcClient.Client) (p : ptr) (params : APIParams),
      fst r = Ok c
      /\ cachedParams (snd r) = Some p
      /\ load p (snd r) = Some params
      /\ BuildVersion params <> EmptyString
      /\ SessionID params <> EmptyString
      /\ forall (k : RpcClient.Call),
           let q := RpcClient.request_of c k in
           RpcClient.RPC_URLParams q "bl" = Some (BuildVersion params)
           /\ RpcClient.RPC_URLParams q "f.sid" = Some (SessionID params)
           /\ RpcClient.RPC_URLParams q "hl" = Some "en"%string
           /\ RpcClient.RPC_URLParams q "source-path"
              = Some (if is_empty (RpcClient.NotebookID k) then "/"
                      else "/notebook/" ++ RpcClient.NotebookID k)%string
           /\ RpcClient.ID q = RpcClient.Call_ID k /\ RpcClient.Args q = RpcClient.Call_Args k /\ RpcClient.Index q = "generic"%string.
Proof.
  intros script newClient env authToken cookies r. subst r.
  assert (Hinv : cache_filled (run script init))
    by apply (run_filled script init init_filled).
  pose proof (GetAPIParams_caches env cookies (run script init)) as Hc.
  pose proof (GetAPIParams_filled env cookies _ Hinv _ Hc) as (params & Hload & Hb & Hs).
  unfold RpcClient.New.
  destruct (GetAPIParams env cookies (run script init)) as [p w1]. cbn [fst snd] in *.
  rewrite Hload. cbn [fst snd].
  eexists. exists p, params. split; [reflexivity|].
  split; [exact Hc|]. split; [exact Hload|]. split; [exact Hb|]. split; [exact Hs|].
  intros k. cbv zeta. unfold RpcClient.request_of. cbn [RpcClient.Client_Config RpcClient.URLParams RpcClient.RPC_URLParams RpcClient.ID RpcClient.Args RpcClient.Index].
  destruct (is_empty (RpcClient.NotebookID k)); cbn [negb]; repeat split; reflexivity.
Qed.

(** ** Small helpers *)

Lemma HasPrefix_iff (s p : string) :
  HasPrefix s p = true <-> exists b, s = (p ++ b)%string.
Proof.
  split.
  - revert s. induction p as [|c p IH]; intros s H.
    + now exists s.
    + destruct s as [|a s]; cbn in H; [discriminate|].
      apply andb_prop in H as [Hc Hp]. apply Ascii.eqb_eq in Hc. subst a.
      destruct (IH s Hp) as [b ->]. now exists b.
  - intros [b ->]. apply HasPrefix_app.
Qed.

Lemma Contains_iff (s sub : string) :
  RpcClient.Contains s sub = true <-> exists a b, s = (a ++ sub ++ b)%string.
Proof.
  split.
  - induction s as [|c s IH]; cbn [RpcClient.Contains]; intros H.
    + rewrite orb_false_r in H. apply HasPrefix_iff in H as [b Hb].
      now exists EmptyString, b.
    + apply orb_prop in H as [H|H].
      * apply HasPrefix_iff in H as [b Hb]. now exists EmptyString, b.
      * destruct (IH H) as (a & b & ->). now exists (String c a), b.
  - intros (a & b & ->). induction a as [|c a IH]; cbn [String.append].
    + destruct (sub ++ b)%string eqn:E; cbn [RpcClient.Contains];
        rewrite <- E, HasPrefix_app; reflexivity.
    + cbn [RpcClient.Contains]. rewrite IH. apply orb_true_r.
Qed.

(** X17.  [isNotebookLMPage] answers true exactly for the texts in which
    [notebooklm] or [LabsTailwind] occurs, byte for byte: another
    capitalisation of either word does not count, nor does the empty
    text. *)
Theorem isNotebookLMPage_iff :
  forall html : string,
    RpcClient.isNotebookLMPage html = true
    <-> exists a b : string,
          html = (a ++ "notebooklm" ++ b)%string
          \/ html = (a ++ "LabsTailwind" ++ b)%string.
Proof.
  intros html. unfold RpcClient.isNotebookLMPage. rewrite orb_true_iff, !Contains_iff.
  split.
  - intros [(a & b & H) | (a & b & H)]; exists a, b; auto.
  - intros (a & b & [H | H]); [left|right]; now exists a, b.
Qed.

(** Neither the product name as it is usually written nor the empty text
    passes. *)
Example isNotebookLMPage_case :
  RpcClient.isNotebookLMPage "<title>NotebookLM</title>" = false
  /\ RpcClient.isNotebookLMPage EmptyString = false
  /\ RpcClient.isNotebookLMPage "https://notebooklm.google.com/" = true.
Proof. repeat split. Qed.

Lemma length_app_s (a b : string) :
  String.length (a ++ b) = (String.length a + String.length b)%nat.
Proof. induction a as [|c a IH]; cbn; congruence. Qed.

Lemma substring_prefix (n : nat) (s : string) :
  (n <= String.length s)%nat ->
  String.length (String.substring 0 n s) = n
  /\ exists rest, s = (String.substring 0 n s ++ rest)%string.
Proof.
  revert s. induction n as [|n IH]; intros s Hn.
  - destruct s; cbn; split; eauto.
  - destruct s as [|c s]; cbn in Hn; [lia|].
    destruct (IH s ltac:(lia)) as [Hl [rest Hr]]. cbn [String.substring String.length].
    split; [now rewrite Hl|]. exists rest. cbn. now rewrite <- Hr.
Qed.

(** X18.  The slice expressions behind the two debug excerpts never go
    out of range: for every string the bound [min(limit, len)] lies
    between 0 and the length, so the excerpt is the string itself when it
    is no longer than the limit, and its first [limit] bytes otherwise. *)
Theorem excerpts_stay_in_range :
  forall s : string,
    (exists e rest,
        RpcClient.data_excerpt s = Ok e /\ s = (e ++ rest)%string
        /\ Z.of_nat (String.length e) = RpcClient.min 300 (Z.of_nat (String.length s))
        /\ (Z.of_nat (String.length s) <= 300 -> e = s))
    /\ (exists e rest,
          RpcClient.version_excerpt s = Ok e /\ s = (e ++ rest)%string
          /\ Z.of_nat (String.length e) = RpcClient.min 50 (Z.of_nat (String.length s))
          /\ (Z.of_nat (String.length s) <= 50 -> e = s)).
Proof.
  assert (Hgen : forall (limit : Z) (s : string), 0 <= limit ->
             exists e rest,
               RpcClient.slice_to s (RpcClient.min limit (Z.of_nat (String.length s))) = Ok e
               /\ s = (e ++ rest)%string
               /\ Z.of_nat (String.length e) = RpcClient.min limit (Z.of_nat (String.length s))
               /\ (Z.of_nat (String.length s) <= limit -> e = s)).
  { intros limit s Hl. unfold RpcClient.slice_to.
    set (n := RpcClient.min limit (Z.of_nat (String.length s))).
    assert (Hn : 0 <= n <= Z.of_nat (String.length s)).
    { unfold n, RpcClient.min. destruct (limit <? Z.of_nat (String.length s)) eqn:E;
        [apply Z.ltb_lt in E|apply Z.ltb_ge in E]; lia. }
    replace ((n <? 0) || (Z.of_nat (String.length s) <? n)) with false.
    2:{ symmetry. apply orb_false_intro; apply Z.ltb_ge; lia. }
    destruct (substring_prefix (Z.to_nat n) s ltac:(lia)) as [Hlen [rest Hrest]].
    exists (String.substring 0 (Z.to_nat n) s), rest.
    split; [reflexivity|]. split; [exact Hrest|]. split; [rewrite Hlen; lia|].
    intros Hshort.
    assert (Hnl : Z.to_nat n = String.length s).
    { unfold n, RpcClient.min. destruct (limit <? Z.of_nat (String.length s)) eqn:E;
        [apply Z.ltb_lt in E|apply Z.ltb_ge in E]; lia. }
    rewrite Hnl in *.
    assert (Hr : rest = EmptyString).
    { apply (f_equal String.length) in Hrest.
      rewrite length_app_s, Hlen in Hrest.
      destruct rest; [reflexivity|cbn in Hrest; lia]. }
    subst rest. rewrite append_empty_r in Hrest. now symmetry. }
  intros s. split; [apply (Hgen 300 s)|apply (Hgen 50 s)]; lia.
Qed.

(** ** Finding the browser on Linux *)

(** X19.  [getBrowserPathForProfile] comes back empty-handed only when no
    candidate is on the path: provided [exec.LookPath] never answers with
    an empty path, the result is empty exactly when none of
    [google-chrome], [chrome] and [chromium] is found and, for the name
    [Brave], neither [brave-browser] nor [brave] is.  For every name but
    [Brave] the result is that of [getChromePath], so Chrome Canary is
    served by the regular Chrome. *)
Theorem getBrowserPathForProfile_empty_iff :
  forall (m : AuthLinux.Machine) (browserName : string),
    (forall name, AuthLinux.LookPath m name <> Some EmptyString) ->
    (AuthLinux.getBrowserPathForProfile m browserName = EmptyString
     <-> (AuthLinux.LookPath m "google-chrome" = None
          /\ AuthLinux.LookPath m "chrome" = None
          /\ AuthLinux.LookPath m "chromium" = None
          /\ (browserName = "Brave"%string ->
              AuthLinux.LookPath m "brave-browser" = None
              /\ AuthLinux.LookPath m "brave" = None)))
    /\ (browserName <> "Brave"%string ->
        AuthLinux.getBrowserPathForProfile m browserName = AuthLinux.getChromePath m).
Proof.
  intros m browserName Hne.
  assert (Hchrome : AuthLinux.getChromePath m = EmptyString
                    <-> (AuthLinux.LookPath m "google-chrome" = None
                         /\ AuthLinux.LookPath m "chrome" = None
                         /\ AuthLinux.LookPath m "chromium" = None)).
  { unfold AuthLinux.getChromePath. cbn [AuthLinux.first_found].
    pose proof (Hne "google-chrome"%string) as H1.
    pose proof (Hne "chrome"%string) as H2.
    pose proof (Hne "chromium"%string) as H3.
    destruct (AuthLinux.LookPath m "google-chrome") as [p1|].
    { split; [intros ->; now elim H1|intros [H _]; discriminate]. }
    destruct (AuthLinux.LookPath m "chrome") as [p2|].
    { split; [intros ->; now elim H2|intros (_ & H & _); discriminate]. }
    destruct (AuthLinux.LookPath m "chromium") as [p3|].
    { split; [intros ->; now elim H3|intros (_ & _ & H); discriminate]. }
    now split. }
  unfold AuthLinux.getBrowserPathForProfile.
  destruct (String.eqb browserName "Brave") eqn:Eb.
  - apply String.eqb_eq in Eb. subst browserName. split; [|congruence].
    cbn [AuthLinux.first_found].
    pose proof (Hne "brave-browser"%string) as H1.
    pose proof (Hne "brave"%string) as H2.
    destruct (AuthLinux.LookPath m "brave-browser") as [p1|].
    { split; [intros ->; now elim H1|]. intros (_ & _ & _ & H).
      destruct (H eq_refl) as [H' _]. discriminate. }
    destruct (AuthLinux.LookPath m "brave") as [p2|].
    { split; [intros ->; now elim H2|]. intros (_ & _ & _ & H).
      destruct (H eq_refl) as [_ H']. discriminate. }
    rewrite Hchrome. split; [intros (A & B & C); auto|intros (A & B & C & _); auto].
  - apply String.eqb_neq in Eb. split.
    + assert (Hsame : (if String.eqb browserName "Chrome Canary"
                       then AuthLinux.getChromePath m
                       else AuthLinux.getChromePath m) = AuthLinux.getChromePath m)
        by (destruct (String.eqb browserName "Chrome Canary"); reflexivity).
      rewrite Hsame, Hchrome.
      split; [intros (A & B & C); repeat split; auto; congruence
             |intros (A & B & C & _); auto].
    + intros _. now destruct (String.eqb browserName "Chrome Canary").
Qed.

Lemma getBrowserPathForProfile_empty_iff_witness :
  (forall name, AuthLinux.LookPath chrome_only name <> Some EmptyString)
  /\ AuthLinux.getBrowserPathForProfile chrome_only "Brave" = "/usr/bin/chrome"%string.
Proof.
  assert (Hne : forall name, AuthLinux.LookPath chrome_only name <> Some EmptyString).
  { intros name. cbn. destruct (String.eqb name "chrome"); discriminate. }
  split; [exact Hne|].
  destruct (getBrowserPathForProfile_empty_iff chrome_only "Brave" Hne) as [_ _].
  reflexivity.
Defined.

(** X20.  [detectChrome] and [getChromePath] do not look for the same
    names: a browser installed as [chrome], with neither [google-chrome]
    nor [chromium] on the path, is found by [getChromePath] and yet
    reported as unknown by [detectChrome]. *)
Theorem detectChrome_misses_chrome :
  forall (m : AuthLinux.Machine) (debug : bool) (path : string),
    AuthLinux.LookPath m "google-chrome" = None ->
    AuthLinux.LookPath m "chromium" = None ->
    AuthLinux.LookPath m "chrome" = Some path ->
    AuthLinux.Type_ (AuthLinux.detectChrome m debug) = AuthLinux.BrowserUnknown
    /\ AuthLinux.Path (AuthLinux.detectChrome m debug) = EmptyString
    /\ AuthLinux.getChromePath m = path.
Proof.
  intros m debug path Hg Hc Hp.
  unfold AuthLinux.detectChrome, AuthLinux.getChromePath. cbn [AuthLinux.first_found].
  rewrite Hg, Hc, Hp. repeat split.
Qed.

Lemma detectChrome_misses_chrome_witness :
  AuthLinux.LookPath chrome_only "google-chrome" = None
  /\ AuthLinux.LookPath chrome_only "chromium" = None
  /\ AuthLinux.LookPath chrome_only "chrome" = Some "/usr/bin/chrome"%string
  /\ AuthLinux.Type_ (AuthLinux.detectChrome chrome_only false) = AuthLinux.BrowserUnknown
  /\ AuthLinux.getChromePath chrome_only = "/usr/bin/chrome"%string.
Proof.
  do 3 (split; [reflexivity|]).
  destruct (detectChrome_misses_chrome chrome_only false "/usr/bin/chrome"
              eq_refl eq_refl eq_refl) as (H1 & _ & H3).
  split; [exact H1|exact H3].
Defined.
